(** * solanabotV6: position risk management and execution coordinator

    A shallow embedding of the risk state machine of
    [src/utils/handlers/positionManager.ts], of the trade coordinator of
    [src/core/tradingEngine.ts], of the sizing policy of
    [src/utils/handlers/balanceManager.ts], of the sell path of
    [src/utils/handlers/enhancedSniperooHandler.ts] and of the failure
    tracking of [src/utils/handlers/priceFeedHandler.ts]; then of the
    status of the engine and of its checks before a purchase, of the
    reports of the balance manager, of the price source and the price
    monitoring, of the emergency sell script [src/utils/emergencySell.ts]
    and of the health monitor [src/utils/healthCheck.ts].

    Conventions.
    - A JavaScript [number] that holds a price, an amount or a percentage is
      a rational [Q]: arithmetic is exact, so rounding of IEEE doubles, NaN
      and the infinities are outside the model. Counters, indices,
      identifiers and clock readings are [nat].
    - The singletons of the process (trading engine, position manager)
      share one record [Bot]; [Map<string, Position>] is a [gmap].
    - An [await] on a collaborator is a read of an oracle: [svc] at index n
      is what the n-th call of the handler of the execution service
      obtains. The copy of the holdings that the handler keeps for three
      seconds and the repeats that its HTTP client makes after a 5xx status
      are inside the oracle: an answer served from the copy is the oracle
      giving the same list again, and the result of a sell is the status
      the client ends with. The properties therefore hold for every oracle
      and do not count HTTP requests.
    - Console output is dropped; Telegram notifications and sell orders are
      appended to the trace of the process.
    - [Math.floor] is [Qfloor], with an integer result; the length of a
      string is its number of characters, a token address being ASCII. *)

From Stdlib Require Import QArith Qminmax Qround Lqa Lia.
From stdpp Require Import gmap strings list fin_maps pretty.

Local Open Scope Q_scope.

(** ** JavaScript primitives on numbers *)

Module JS.

Definition le (x y : Q) : bool := Qle_bool x y.
Definition lt (x y : Q) : bool := negb (Qle_bool y x).
Definition ge (x y : Q) : bool := Qle_bool y x.
Definition gt (x y : Q) : bool := negb (Qle_bool x y).

(** [Math.max(x, y)] and [Math.min(x, y)] *)
Definition Math_max (x y : Q) : Q := if Qle_bool x y then y else x.
Definition Math_min (x y : Q) : Q := if Qle_bool x y then x else y.

(** [x || d] on numbers: the default replaces a falsy (zero) value *)
Definition or_default (x d : Q) : Q := if Qeq_bool x 0 then d else x.

(** truthiness of a string: only the empty string is falsy *)
Definition truthy (s : string) : bool :=
  match s with EmptyString => false | String _ _ => true end.

End JS.

(** ** Configuration ([src/config.ts]) *)

Record TokenBuy := {
  buy_mode : string;
  balance_percentage : Q;
  min_sol_amount : Q;
  max_sol_amount : Q;
  reserve_sol : Q;
  sol_amount : Q
}.

Record Breakeven := {
  breakeven_enabled : bool;
  trigger_profit_percent : Q;
  breakeven_offset_percent : Q
}.

Record TrailingStop := {
  trailing_enabled : bool;
  activation_profit_percent : Q;
  trailing_distance_percent : Q
}.

Record RiskManagement := {
  initial_stop_loss_percent : Q;
  breakeven : Breakeven;
  trailing_stop : TrailingStop
}.

Record TakeProfitLevel := {
  profit_percent : Q;
  sell_percent : Q;
  description : string
}.

Record TakeProfitGrid := {
  grid_enabled : bool;
  levels : list TakeProfitLevel
}.

Record AdvancedTrading := {
  advanced_enabled : bool;
  risk_management : RiskManagement;
  take_profit_grid : TakeProfitGrid
}.

Record Config := {
  token_buy : TokenBuy;
  advanced_trading : AdvancedTrading
}.

(** The configuration object of the repository. *)
Definition config : Config := {|
  token_buy := {|
    buy_mode := "percentage";
    balance_percentage := 8;
    min_sol_amount := 0.005;
    max_sol_amount := 0.5;
    reserve_sol := 0.2;
    sol_amount := 0.05 |};
  advanced_trading := {|
    advanced_enabled := true;
    risk_management := {|
      initial_stop_loss_percent := 60;
      breakeven := {|
        breakeven_enabled := true;
        trigger_profit_percent := 25;
        breakeven_offset_percent := 8 |};
      trailing_stop := {|
        trailing_enabled := true;
        activation_profit_percent := 40;
        trailing_distance_percent := 25 |} |};
    take_profit_grid := {|
      grid_enabled := true;
      levels := [
        {| profit_percent := 30; sell_percent := 15;
           description := "Quick profit lock" |};
        {| profit_percent := 75; sell_percent := 25;
           description := "Major profit taking" |};
        {| profit_percent := 150; sell_percent := 30;
           description := "Gem profit realization" |};
        {| profit_percent := 300; sell_percent := 20;
           description := "Moon bag reduction" |};
        {| profit_percent := 800; sell_percent := 10;
           description := "Final moon bag" |} ] |} |}
|}.

(** ** Data model *)

Record Position := {
  tokenAddress : string;
  entryPrice : Q;
  entryAmount : Q;
  remainingAmount : Q;
  entryTime : nat;
  currentStopLoss : Q;
  isBreakevenMoved : bool;
  isTrailingActive : bool;
  highestPrice : Q;
  executedTpLevels : list nat;
  totalSold : Q
}.

Definition with_highestPrice (p : Position) (v : Q) : Position :=
  {| tokenAddress := tokenAddress p; entryPrice := entryPrice p;
     entryAmount := entryAmount p; remainingAmount := remainingAmount p;
     entryTime := entryTime p; currentStopLoss := currentStopLoss p;
     isBreakevenMoved := isBreakevenMoved p;
     isTrailingActive := isTrailingActive p; highestPrice := v;
     executedTpLevels := executedTpLevels p; totalSold := totalSold p |}.

Definition with_currentStopLoss (p : Position) (v : Q) : Position :=
  {| tokenAddress := tokenAddress p; entryPrice := entryPrice p;
     entryAmount := entryAmount p; remainingAmount := remainingAmount p;
     entryTime := entryTime p; currentStopLoss := v;
     isBreakevenMoved := isBreakevenMoved p;
     isTrailingActive := isTrailingActive p; highestPrice := highestPrice p;
     executedTpLevels := executedTpLevels p; totalSold := totalSold p |}.

Definition with_isBreakevenMoved (p : Position) (v : bool) : Position :=
  {| tokenAddress := tokenAddress p; entryPrice := entryPrice p;
     entryAmount := entryAmount p; remainingAmount := remainingAmount p;
     entryTime := entryTime p; currentStopLoss := currentStopLoss p;
     isBreakevenMoved := v;
     isTrailingActive := isTrailingActive p; highestPrice := highestPrice p;
     executedTpLevels := executedTpLevels p; totalSold := totalSold p |}.

Definition with_isTrailingActive (p : Position) (v : bool) : Position :=
  {| tokenAddress := tokenAddress p; entryPrice := entryPrice p;
     entryAmount := entryAmount p; remainingAmount := remainingAmount p;
     entryTime := entryTime p; currentStopLoss := currentStopLoss p;
     isBreakevenMoved := isBreakevenMoved p;
     isTrailingActive := v; highestPrice := highestPrice p;
     executedTpLevels := executedTpLevels p; totalSold := totalSold p |}.

(** The three assignments made after a successful take-profit sell:
    [executedTpLevels.push(i)], [totalSold += sell_percent] and
    [remainingAmount = entryAmount * (1 - totalSold / 100)]. *)
Definition with_levelExecuted (p : Position) (i : nat) (sold : Q) : Position :=
  {| tokenAddress := tokenAddress p; entryPrice := entryPrice p;
     entryAmount := entryAmount p;
     remainingAmount := entryAmount p * (1 - (totalSold p + sold) / 100);
     entryTime := entryTime p; currentStopLoss := currentStopLoss p;
     isBreakevenMoved := isBreakevenMoved p;
     isTrailingActive := isTrailingActive p; highestPrice := highestPrice p;
     executedTpLevels := executedTpLevels p ++ [i];
     totalSold := totalSold p + sold |}.

(** Messages handed to [telegramManager.notifyError]; the numbers that the
    source formats into the text are kept as fields. *)
Inductive ErrorText :=
| TakeProfitFailed (level : nat) (token : string) (price target : Q)
| EmergencyStopExecuted
| TradeExecutionFailed (errorMsg : string).

Inductive Event :=
| SellPosted (positionId : nat) (percentage : Q) (reason : string)
| TokenSold (reason : string) (pnl pnl_sol : Q) (token : string) (price : Q)
| BreakevenMoved (token : string) (profit new_sl : Q)
| TrailingActivated (token : string) (profit distance : Q)
| ErrorAlert (e : ErrorText).

(** The state of the process: the fields of the [tradingEngine] singleton,
    the map of the [positionManager] singleton, the number of calls of the
    handler of the execution service that were answered so far
    ([requests]), and what was sent out so far. *)
Record Bot := {
  isTrading : bool;
  tradingQueue : list string;
  positions : gmap string Position;
  requests : nat;
  trace : list Event
}.

Definition set_positions (f : gmap string Position -> gmap string Position)
    (b : Bot) : Bot :=
  {| isTrading := isTrading b; tradingQueue := tradingQueue b;
     positions := f (positions b); requests := requests b;
     trace := trace b |}.

Definition set_engine (t : bool) (q : list string) (b : Bot) : Bot :=
  {| isTrading := t; tradingQueue := q; positions := positions b;
     requests := requests b; trace := trace b |}.

(** ** State passing *)

Definition M (A : Type) : Type := Bot -> A * Bot.

Definition ret {A} (a : A) : M A := fun b => (a, b).

Definition bind {A B} (m : M A) (k : A -> M B) : M B :=
  fun b => let (a, b') := m b in k a b'.

Notation "'let*' x ':=' c 'in' k" := (bind c (fun x => k))
  (at level 10, x name, c at level 100, k at level 200).
Notation "c ';;' k" := (bind c (fun _ => k))
  (at level 100, k at level 200, right associativity).

Definition emit (e : Event) : M unit := fun b =>
  (tt, {| isTrading := isTrading b; tradingQueue := tradingQueue b;
          positions := positions b; requests := requests b;
          trace := trace b ++ [e] |}).

Definition when (c : bool) (m : M unit) : M unit := if c then m else ret tt.

(** ** The execution service ([enhancedSniperooHandler.ts]) *)

Module Sniperoo.

(** An element of the array answered by [GET /positions/all]. *)
Record ApiPosition := {
  id : nat;
  api_tokenAddress : string;
  initialTokenAmountUi : Q;
  currentValue : Q
}.

Inductive HoldingsResponse :=
| HoldingsThrew
| HoldingsNotOk
| HoldingsOk (data : list ApiPosition).

(** What the n-th call of the handler obtains: the holdings if the call
    is [getWalletHoldings] (the answer to [GET /positions/all], or the
    copy of an earlier answer that the handler kept in [positionsCache]
    for less than [CACHE_TTL]), and, if the call is [sellToken], whether
    the status that the HTTP client ends with is 200 or 201 (the response
    interceptor repeats a request answered with a 5xx status up to twice
    before it gives up). *)
Record Service := {
  holdingsAt : nat -> HoldingsResponse;
  sellOkAt : nat -> bool
}.

Record WalletPosition := {
  tokenAddress : string;
  balance : Q;
  value : Q;
  positionId : nat
}.

Record SellOrderData := {
  order_positionId : nat;
  percentage : Q;
  reason : string
}.

Record SniperooTradeResult := {
  success : bool;
  error : option string
}.

Record EmergencySellDetail := {
  detail_tokenAddress : string;
  detail_positionId : nat;
  detail_success : bool;
  detail_error : option string
}.

Record EmergencySellResult := {
  total : nat;
  successful : nat;
  failed : nat;
  details : list EmergencySellDetail
}.

Section Handler.
Context (svc : Service).

Definition request {A} (answer : nat -> A) : M A := fun b =>
  (answer (requests b),
   {| isTrading := isTrading b; tradingQueue := tradingQueue b;
      positions := positions b; requests := S (requests b);
      trace := trace b |}).

(** [getWalletHoldings]: the list comes from the oracle, whether the
    handler asked the service or answered from [positionsCache]; the
    filter and the map give the same list in both cases. *)
Definition getWalletHoldings : M (option (list WalletPosition)) :=
  let* response := request (holdingsAt svc) in
  match response with
  | HoldingsOk data =>
      ret (Some (map (fun pos =>
             {| tokenAddress := api_tokenAddress pos;
                balance := initialTokenAmountUi pos;
                value := currentValue pos;
                positionId := id pos |})
           (filter (fun pos => id pos <> 0%nat /\
                               api_tokenAddress pos <> EmptyString) data)))
  | HoldingsNotOk => ret (Some [])
  | HoldingsThrew => ret None
  end.

(** [sellToken]: [SellPosted] records the order handed to the HTTP
    client, once per call, however many times the client repeats the
    request. *)
Definition sellToken (sellOrder : SellOrderData) : M SniperooTradeResult :=
  if Nat.eqb (order_positionId sellOrder) 0
     || JS.le (percentage sellOrder) 0
     || JS.gt (percentage sellOrder) 100
  then ret {| success := false; error := Some "Invalid sell parameters" |}
  else
    emit (SellPosted (order_positionId sellOrder) (percentage sellOrder)
                     (reason sellOrder)) ;;
    let* ok := request (sellOkAt svc) in
    if ok then ret {| success := true; error := None |}
    else ret {| success := false; error := Some "Sale failed" |}.

Fixpoint sellEach (positions : list WalletPosition)
    : M (list EmergencySellDetail) :=
  match positions with
  | [] => ret []
  | pos :: rest =>
      let* sellResult :=
        sellToken {| order_positionId := positionId pos;
                     percentage := 100;
                     reason := "Emergency sell" |} in
      let* details := sellEach rest in
      ret ({| detail_tokenAddress := tokenAddress pos;
              detail_positionId := positionId pos;
              detail_success := success sellResult;
              detail_error := error sellResult |} :: details)
  end.

Definition emergencySellAll : M EmergencySellResult :=
  let* positions := getWalletHoldings in
  match positions with
  | None | Some [] =>
      ret {| total := 0; successful := 0; failed := 0; details := [] |}
  | Some positions =>
      let* details := sellEach positions in
      ret {| total := length positions;
             successful :=
               length (filter (fun d => detail_success d = true) details);
             failed :=
               length (filter (fun d => detail_success d = false) details);
             details := details |}
  end.

End Handler.

End Sniperoo.

(** ** The position manager ([positionManager.ts]) *)

Module PositionManager.

Section Manager.
Context (cfg : Config) (svc : Sniperoo.Service).

Let risk : RiskManagement := risk_management (advanced_trading cfg).

Definition getPosition (tokenAddress : string) : M (option Position) :=
  fun b => (positions b !! tokenAddress, b).

(** A write to a field of the record held by the map under
    [tokenAddress]: the map entry is replaced by the mutated record. *)
Definition storePosition (tokenAddress : string) (position : Position)
    : M unit :=
  fun b => (tt, set_positions (insert tokenAddress position) b).

Definition removePosition (tokenAddress : string) : M unit :=
  fun b => (tt, set_positions (delete tokenAddress) b).

(** [now] is the reading of [Date.now()]. *)
Definition addPosition (tokenAddress : string) (entryPrice entryAmount : Q)
    (now : nat) : M unit :=
  let position := {|
    tokenAddress := tokenAddress;
    entryPrice := entryPrice;
    entryAmount := entryAmount;
    remainingAmount := entryAmount;
    entryTime := now;
    currentStopLoss :=
      entryPrice * (1 - initial_stop_loss_percent risk / 100);
    isBreakevenMoved := false;
    isTrailingActive := false;
    highestPrice := entryPrice;
    executedTpLevels := [];
    totalSold := 0 |} in
  storePosition tokenAddress position.

Definition executeSell (tokenAddress : string)
    (percentageToSell currentPrice : Q) (reason : string) : M bool :=
  let* positions := Sniperoo.getWalletHoldings svc in
  match positions with
  | None | Some [] => ret false
  | Some positions =>
      match List.find (fun pos =>
              String.eqb (Sniperoo.tokenAddress pos) tokenAddress)
              positions with
      | None => ret false
      | Some position =>
          let* sellResult :=
            Sniperoo.sellToken svc
              {| Sniperoo.order_positionId := Sniperoo.positionId position;
                 Sniperoo.percentage := percentageToSell;
                 Sniperoo.reason := reason |} in
          ret (Sniperoo.success sellResult)
      end
  end.

Definition checkStopLoss (tokenAddress : string)
    (currentPrice profitPercent : Q) : M bool :=
  let* position := getPosition tokenAddress in
  match position with
  | None => ret false
  | Some position =>
      if JS.le currentPrice (currentStopLoss position) then
        let pnlPercent := profitPercent in
        let pnlSol := remainingAmount position
                      * (currentPrice / entryPrice position - 1) in
        let* sellSuccess :=
          executeSell tokenAddress (100 - totalSold position)
                      currentPrice "Stop Loss" in
        if sellSuccess then
          emit (TokenSold
                  (if isTrailingActive position
                   then "Trailing Stop Loss" else "Stop Loss")
                  pnlPercent pnlSol tokenAddress currentPrice) ;;
          removePosition tokenAddress ;;
          ret true
        else ret false
      else ret false
  end.

Definition checkBreakevenMove (tokenAddress : string)
    (currentPrice profitPercent : Q) : M unit :=
  let* position := getPosition tokenAddress in
  match position with
  | None => ret tt
  | Some position =>
      if isBreakevenMoved position then ret tt
      else
        let breakevenConfig := breakeven risk in
        if negb (breakeven_enabled breakevenConfig) then ret tt
        else if JS.ge profitPercent
                      (trigger_profit_percent breakevenConfig) then
          let newStopLoss :=
            entryPrice position
            * (1 + breakeven_offset_percent breakevenConfig / 100) in
          storePosition tokenAddress
            (with_isBreakevenMoved
               (with_currentStopLoss position newStopLoss) true) ;;
          emit (BreakevenMoved tokenAddress profitPercent
                  (breakeven_offset_percent breakevenConfig))
        else ret tt
  end.

Definition checkTrailingStopActivation (tokenAddress : string)
    (currentPrice profitPercent : Q) : M unit :=
  let* position := getPosition tokenAddress in
  match position with
  | None => ret tt
  | Some position =>
      if isTrailingActive position then ret tt
      else
        let trailingConfig := trailing_stop risk in
        if negb (trailing_enabled trailingConfig) then ret tt
        else if JS.ge profitPercent
                      (activation_profit_percent trailingConfig) then
          storePosition tokenAddress
            (with_isTrailingActive position true) ;;
          emit (TrailingActivated tokenAddress profitPercent
                  (trailing_distance_percent trailingConfig))
        else ret tt
  end.

Definition updateTrailingStop (tokenAddress : string)
    (currentPrice profitPercent : Q) : M unit :=
  let* position := getPosition tokenAddress in
  match position with
  | None => ret tt
  | Some position =>
      if negb (isTrailingActive position) then ret tt
      else
        let trailingConfig := trailing_stop risk in
        let trailingStopPrice :=
          highestPrice position
          * (1 - trailing_distance_percent trailingConfig / 100) in
        if JS.gt trailingStopPrice (currentStopLoss position) then
          storePosition tokenAddress
            (with_currentStopLoss position trailingStopPrice)
        else ret tt
  end.

(** The body of [for (let i = 0; i < tpConfig.levels.length; i++)]:
    [rest] is what is left of the levels from index [i] on, and
    [position] is the record the loop holds a reference to. *)
Fixpoint takeProfitLoop (tokenAddress : string)
    (currentPrice profitPercent : Q) (i : nat)
    (rest : list TakeProfitLevel) (position : Position) : M unit :=
  match rest with
  | [] => ret tt
  | level :: rest' =>
      if bool_decide (i ∈ executedTpLevels position) then
        takeProfitLoop tokenAddress currentPrice profitPercent
                       (S i) rest' position
      else if JS.lt profitPercent (profit_percent level) then
        takeProfitLoop tokenAddress currentPrice profitPercent
                       (S i) rest' position
      else
        let* sellSuccess :=
          executeSell tokenAddress (sell_percent level) currentPrice
                      (description level) in
        if sellSuccess then
          let position' :=
            with_levelExecuted position i (sell_percent level) in
          storePosition tokenAddress position' ;;
          let partialAmount :=
            entryAmount position' * (sell_percent level / 100) in
          let pnlPercent := profitPercent in
          let pnlSol :=
            partialAmount * (currentPrice / entryPrice position' - 1) in
          emit (TokenSold
                  ("Take Profit Level " +:+ pretty (i + 1)%nat +:+ " ("
                     +:+ description level +:+ ")")
                  pnlPercent pnlSol tokenAddress currentPrice) ;;
          if JS.ge (totalSold position') 99.9 then
            removePosition tokenAddress
          else
            takeProfitLoop tokenAddress currentPrice profitPercent
                           (S i) rest' position'
        else
          emit (ErrorAlert
                  (TakeProfitFailed (i + 1) tokenAddress currentPrice
                                    (profit_percent level))) ;;
          takeProfitLoop tokenAddress currentPrice profitPercent
                         (S i) rest' position
  end.

Definition checkTakeProfitGrid (tokenAddress : string)
    (currentPrice profitPercent : Q) : M unit :=
  let* position := getPosition tokenAddress in
  match position with
  | None => ret tt
  | Some position =>
      let tpConfig := take_profit_grid (advanced_trading cfg) in
      if negb (grid_enabled tpConfig) then ret tt
      else takeProfitLoop tokenAddress currentPrice profitPercent
                          0 (levels tpConfig) position
  end.

(** The four steps that follow the stop-loss check. *)
Definition afterStopLoss (tokenAddress : string)
    (currentPrice profitPercent : Q) : M unit :=
  checkBreakevenMove tokenAddress currentPrice profitPercent ;;
  checkTrailingStopActivation tokenAddress currentPrice profitPercent ;;
  updateTrailingStop tokenAddress currentPrice profitPercent ;;
  checkTakeProfitGrid tokenAddress currentPrice profitPercent.

(** The profit that [updatePosition] computes and hands to its five
    steps. The value is exact here; the steps take it as an argument, and
    the properties of the take-profit pass are stated for every value of
    that argument. *)
Definition profitPercentOf (position : Position) (currentPrice : Q) : Q :=
  ((currentPrice - entryPrice position) / entryPrice position) * 100.

Definition updatePosition (tokenAddress : string) (currentPrice : Q)
    : M unit :=
  let* position := getPosition tokenAddress in
  match position with
  | None => ret tt
  | Some position =>
      let profitPercent := profitPercentOf position currentPrice in
      when (JS.gt currentPrice (highestPrice position))
           (storePosition tokenAddress
              (with_highestPrice position currentPrice)) ;;
      let* closed :=
        checkStopLoss tokenAddress currentPrice profitPercent in
      if closed then ret tt
      else afterStopLoss tokenAddress currentPrice profitPercent
  end.

(** A run of price ticks, each a token and its observed price. *)
Fixpoint ticks (l : list (string * Q)) : M unit :=
  match l with
  | [] => ret tt
  | (tokenAddress, currentPrice) :: l' =>
      updatePosition tokenAddress currentPrice ;; ticks l'
  end.

End Manager.

End PositionManager.

(** ** The trading engine ([tradingEngine.ts]) *)

Module TradingEngine.

Definition MAX_QUEUE_SIZE : nat := 5.

Record TradeResult := {
  success : bool;
  tokenAddress : string;
  amount : Q;
  price : option Q;
  error : option string
}.

(** How a call of [executeTrade] leaves its first synchronous stretch:
    it has returned the busy result, or it has taken the flag and waits
    for [quickTradeCheck]. *)
Inductive Entered :=
| Busy (result : TradeResult)
| Started.

(** What the awaited collaborators made of a started trade. *)
Inductive Pipeline :=
| Threw (errorMsg : string)
| Declined (reason : string)
| PurchaseFailed (buyAmount : Q)
| Purchased (buyAmount : Q) (price : Q).

Section Engine.
Context (cfg : Config) (svc : Sniperoo.Service).

(** [executeTrade] from its entry to its first [await]. *)
Definition executeTrade_enter (tokenAddress : string) : M Entered :=
  fun b =>
    if isTrading b then
      (Busy {| success := false; tokenAddress := tokenAddress;
               amount := 0; price := None;
               error := Some "Trading in progress" |},
       if Nat.ltb (length (tradingQueue b)) MAX_QUEUE_SIZE
       then set_engine (isTrading b) (tradingQueue b ++ [tokenAddress]) b
       else b)
    else (Started, set_engine true (tradingQueue b) b).

(** [processQueue]; the result is the token whose trade it started. *)
Definition processQueue : M (option string) :=
  fun b =>
    if Nat.eqb (length (tradingQueue b)) 0 || isTrading b then (None, b)
    else
      match tradingQueue b with
      | [] => (None, b)
      | nextToken :: rest =>
          let b' := set_engine (isTrading b) rest b in
          if JS.truthy nextToken then
            let (_, b'') := executeTrade_enter nextToken b' in
            (Some nextToken, b'')
          else (None, b')
      end.

(** The [finally] block of [executeTrade]. *)
Definition executeTrade_finally : M (option string) :=
  (fun b => (tt, set_engine false (tradingQueue b) b)) ;;
  processQueue.

(** [executeTrade] from the last answer of its collaborators to its
    end: the rest of the [try] block or the [catch] block, then the
    [finally] block. The purchase notification is sent later and is
    not part of this stretch. *)
Definition executeTrade_complete (tokenAddress : string)
    (outcome : Pipeline) (now : nat) : M (TradeResult * option string) :=
  let* result :=
    match outcome with
    | Declined reason =>
        ret {| success := false; tokenAddress := tokenAddress;
               amount := 0; price := None; error := Some reason |}
    | PurchaseFailed buyAmount =>
        ret {| success := false; tokenAddress := tokenAddress;
               amount := buyAmount; price := None;
               error := Some "Purchase failed" |}
    | Purchased buyAmount price =>
        when (advanced_enabled (advanced_trading cfg) && JS.gt price 0)
             (PositionManager.addPosition cfg tokenAddress price
                                          buyAmount now) ;;
        ret {| success := true; tokenAddress := tokenAddress;
               amount := buyAmount; price := Some price; error := None |}
    | Threw errorMsg =>
        emit (ErrorAlert (TradeExecutionFailed errorMsg)) ;;
        ret {| success := false; tokenAddress := tokenAddress;
               amount := 0; price := None; error := Some errorMsg |}
    end in
  let* next := executeTrade_finally in
  ret (result, next).

Definition emergencyStop : M unit :=
  (fun b => (tt, set_engine false [] b)) ;;
  Sniperoo.emergencySellAll svc ;;
  emit (ErrorAlert EmergencyStopExecuted).

End Engine.

End TradingEngine.

(** ** The balance manager ([balanceManager.ts]) *)

Module BalanceManager.

Definition LAMPORTS_PER_SOL : Q := 1000000000.
Definition CACHE_DURATION : nat := 2000.

Record BalanceInfo := {
  solBalance : Q;
  lamportsBalance : N;
  availableForTrading : Q;
  calculatedBuyAmount : Q;
  percentageUsed : option Q;
  reservedAmount : Q
}.

Record State := {
  balanceCache : option BalanceInfo;
  cacheTimestamp : nat
}.

Record Affordable := {
  canTrade : bool;
  reason : option string;
  availableAmount : option Q;
  recommendedAmount : option Q
}.

Section Manager.
Context (cfg : Config).
(** The text JavaScript puts for a number inside a template string. *)
Context (show : Q -> string).

Definition calculateBuyAmount (availableBalance : Q) : Q * option Q :=
  let buyConfig := token_buy cfg in
  if String.eqb (buy_mode buyConfig) "percentage" then
    let percentageAmount :=
      (availableBalance * balance_percentage buyConfig) / 100 in
    let minAmount := JS.or_default (min_sol_amount buyConfig) 0.01 in
    let maxAmount := JS.or_default (max_sol_amount buyConfig) 1.0 in
    let clampedAmount :=
      JS.Math_max minAmount (JS.Math_min percentageAmount maxAmount) in
    let clampedAmount := JS.Math_min clampedAmount availableBalance in
    (clampedAmount, Some (balance_percentage buyConfig))
  else
    let fixedAmount := JS.or_default (sol_amount buyConfig) 0.1 in
    let finalAmount := JS.Math_min fixedAmount availableBalance in
    (finalAmount,
     Some (if JS.gt availableBalance 0
           then (finalAmount / availableBalance) * 100 else 0)).

(** The balance record computed from a fetched number of lamports. *)
Definition balanceOf (lamportsBalance : N) : BalanceInfo :=
  let solBalance :=
    inject_Z (Z.of_N lamportsBalance) / LAMPORTS_PER_SOL in
  let reservedAmount :=
    JS.or_default (reserve_sol (token_buy cfg)) 0.15 in
  let availableForTrading :=
    JS.Math_max 0 (solBalance - reservedAmount) in
  let (buyAmount, percentageUsed) :=
    calculateBuyAmount availableForTrading in
  {| solBalance := solBalance;
     lamportsBalance := lamportsBalance;
     availableForTrading := availableForTrading;
     calculatedBuyAmount := buyAmount;
     percentageUsed := percentageUsed;
     reservedAmount := reservedAmount |}.

(** [getBalance]: [now] is the reading of [Date.now()], [fetched] what
    [connection.getBalance] answers if it is asked ([None] when it
    throws); the result is [None] when the error is thrown again. *)
Definition getBalance (forceRefresh : bool) (now : nat)
    (fetched : option N) (s : State) : option BalanceInfo * State :=
  match balanceCache s with
  | Some cached =>
      if negb forceRefresh
         && Nat.ltb (now - cacheTimestamp s) CACHE_DURATION
      then (Some cached, s)
      else
        match fetched with
        | Some lamportsBalance =>
            let balanceInfo := balanceOf lamportsBalance in
            (Some balanceInfo,
             {| balanceCache := Some balanceInfo; cacheTimestamp := now |})
        | None => (None, s)
        end
  | None =>
      match fetched with
      | Some lamportsBalance =>
          let balanceInfo := balanceOf lamportsBalance in
          (Some balanceInfo,
           {| balanceCache := Some balanceInfo; cacheTimestamp := now |})
      | None => (None, s)
      end
  end.

(** The checks of [canAffordTrade] on the balance it obtained. *)
Definition affordable (balance : BalanceInfo) : Affordable :=
  if JS.lt (solBalance balance) (reservedAmount balance) then
    {| canTrade := false;
       reason := Some ("Insufficient balance (need "
                         +:+ show (reservedAmount balance)
                         +:+ " SOL reserve)");
       availableAmount := Some (solBalance balance);
       recommendedAmount := None |}
  else if JS.le (calculatedBuyAmount balance) 0 then
    {| canTrade := false;
       reason := Some "Insufficient balance after reserve";
       availableAmount := Some (availableForTrading balance);
       recommendedAmount := None |}
  else
    let minAmount := JS.or_default (min_sol_amount (token_buy cfg)) 0.01 in
    if JS.lt (calculatedBuyAmount balance) minAmount then
      {| canTrade := false;
         reason := Some ("Amount below minimum (" +:+ show minAmount
                           +:+ " SOL)");
         availableAmount := Some (calculatedBuyAmount balance);
         recommendedAmount := Some minAmount |}
    else
      {| canTrade := true;
         reason := None;
         availableAmount := Some (calculatedBuyAmount balance);
         recommendedAmount := None |}.

Definition canAffordTrade (now : nat) (fetched : option N) (s : State)
    : Affordable * State :=
  match getBalance false now fetched s with
  | (Some balance, s') => (affordable balance, s')
  | (None, s') =>
      ({| canTrade := false;
          reason := Some "Error checking balance";
          availableAmount := None;
          recommendedAmount := None |}, s')
  end.

End Manager.

End BalanceManager.

(** ** Failure tracking of the price feed ([priceFeedHandler.ts]) *)

Module PriceFeed.

Definition CACHE_DURATION : nat := 3000.
Definition MAX_FAILURES_BEFORE_WARNING : nat := 3.

Record PriceInfo := {
  price : Q;
  timestamp : nat;
  source : string
}.

(** A warning handed to [telegramManager.notifyError]. *)
Record Warning := {
  warned_token : string;
  warned_failures : nat;
  warned_reason : string
}.

Record State := {
  priceCache : gmap string PriceInfo;
  failureCount : gmap string nat;
  warnings : list Warning
}.

(** What [getPriceFromDexScreener] gives to [getTokenPrice]. *)
Inductive Fetched :=
| FetchedPrice (price : Q)
| FetchedNull
| FetchThrew.

Definition trackFailure (tokenAddress reason : string) (s : State) : State :=
  let currentCount := default 0%nat (failureCount s !! tokenAddress) in
  let newCount := (currentCount + 1)%nat in
  {| priceCache := priceCache s;
     failureCount := <[tokenAddress := newCount]> (failureCount s);
     warnings :=
       if Nat.eqb newCount MAX_FAILURES_BEFORE_WARNING
       then warnings s ++ [ {| warned_token := tokenAddress;
                               warned_failures := newCount;
                               warned_reason := reason |} ]
       else warnings s |}.

(** The part of [getTokenPrice] that follows a cache miss. *)
Definition fetchTokenPrice (tokenAddress : string) (now : nat)
    (fetched : Fetched) (s : State) : option Q * State :=
  match fetched with
  | FetchedPrice price =>
      if JS.gt price 0 && JS.lt price 1e10 then
        (Some price,
         {| priceCache :=
              <[tokenAddress := {| price := price; timestamp := now;
                                   source := "dexscreener" |}]>
                (priceCache s);
            failureCount := delete tokenAddress (failureCount s);
            warnings := warnings s |})
      else (None, trackFailure tokenAddress "suspicious_value" s)
  | FetchedNull => (None, trackFailure tokenAddress "no_data" s)
  | FetchThrew => (None, trackFailure tokenAddress "error" s)
  end.

Definition getTokenPrice (tokenAddress : string) (now : nat)
    (fetched : Fetched) (s : State) : option Q * State :=
  match priceCache s !! tokenAddress with
  | Some cached =>
      if Nat.ltb (now - timestamp cached) CACHE_DURATION
      then (Some (price cached), s)
      else fetchTokenPrice tokenAddress now fetched s
  | None => fetchTokenPrice tokenAddress now fetched s
  end.

(** Successive uncached fetches for one token. *)
Fixpoint fetches (tokenAddress : string) (now : nat)
    (answers : list Fetched) (s : State) : State :=
  match answers with
  | [] => s
  | fetched :: rest =>
      fetches tokenAddress now rest
              (snd (fetchTokenPrice tokenAddress now fetched s))
  end.

End PriceFeed.

(** ** Sample runs *)

Module Sample.

Definition gem : string := "Gem1111111111111111111111111111111111111111".
Definition other : string := "Pup2222222222222222222222222222222222222222".

(** The process right after start. *)
Definition fresh : Bot :=
  {| isTrading := false; tradingQueue := []; positions := ∅;
     requests := 0; trace := [] |}.

Definition holdings : Sniperoo.HoldingsResponse :=
  Sniperoo.HoldingsOk
    [ {| Sniperoo.id := 7; Sniperoo.api_tokenAddress := gem;
         Sniperoo.initialTokenAmountUi := 1000;
         Sniperoo.currentValue := 1 |} ].

(** A service that executes every sell. *)
Definition accepting : Sniperoo.Service :=
  {| Sniperoo.holdingsAt := fun _ => holdings;
     Sniperoo.sellOkAt := fun _ => true |}.

(** A service that refuses every sell. *)
Definition refusing : Sniperoo.Service :=
  {| Sniperoo.holdingsAt := fun _ => holdings;
     Sniperoo.sellOkAt := fun _ => false |}.

(** A service that refuses its first six requests and executes the
    later ones. *)
Definition recovering : Sniperoo.Service :=
  {| Sniperoo.holdingsAt := fun _ => holdings;
     Sniperoo.sellOkAt := fun n => Nat.leb 6 n |}.

(** One unit bought at 100. *)
Definition bought : Bot :=
  snd (PositionManager.addPosition config gem 100 1 0 fresh).

(** The price went to 130 and the first level was sold. *)
Definition firstLevelSold : Bot :=
  snd (PositionManager.updatePosition config accepting gem 130 bought).

(** The price went to 200 while the service refused the sells. *)
Definition peaked : Bot :=
  snd (PositionManager.updatePosition config recovering gem 200 bought).

(** The record of the position in [bought]. *)
Definition boughtPosition : Position :=
  {| tokenAddress := gem; entryPrice := 100; entryAmount := 1;
     remainingAmount := 1; entryTime := 0;
     currentStopLoss := 100 * (1 - 60 / 100);
     isBreakevenMoved := false; isTrailingActive := false;
     highestPrice := 100; executedTpLevels := []; totalSold := 0 |}.

(** The record of the position in [firstLevelSold]. *)
Definition firstLevelSoldPosition : Position :=
  {| tokenAddress := gem; entryPrice := 100; entryAmount := 1;
     remainingAmount := 1 * (1 - (0 + 15) / 100); entryTime := 0;
     currentStopLoss := 100 * (1 + 8 / 100);
     isBreakevenMoved := true; isTrailingActive := false;
     highestPrice := 130; executedTpLevels := [0%nat]; totalSold := 0 + 15 |}.

(** The price fell back to 110 and rose to 130 again. *)
Definition oscillated : Bot :=
  snd (PositionManager.ticks config accepting [(gem, 110); (gem, 130)]
         firstLevelSold).

(** The repository's configuration with other risk settings. *)
Definition withRisk (risk : RiskManagement) : Config :=
  {| token_buy := token_buy config;
     advanced_trading :=
       {| advanced_enabled := true;
          risk_management := risk;
          take_profit_grid := take_profit_grid (advanced_trading config) |} |}.

(** Trailing engages at 10% of profit with a distance of 5%, the breakeven
    move waits for 50%. *)
Definition lateBreakeven : Config :=
  withRisk {| initial_stop_loss_percent := 60;
              breakeven := {| breakeven_enabled := true;
                              trigger_profit_percent := 50;
                              breakeven_offset_percent := 8 |};
              trailing_stop := {| trailing_enabled := true;
                                  activation_profit_percent := 10;
                                  trailing_distance_percent := 5 |} |}.

(** A trailing distance of 200%, with an initial stop loss of 300% and a
    breakeven offset of -250%. *)
Definition wideTrailing : Config :=
  withRisk {| initial_stop_loss_percent := 300;
              breakeven := {| breakeven_enabled := true;
                              trigger_profit_percent := 50;
                              breakeven_offset_percent := -250 |};
              trailing_stop := {| trailing_enabled := true;
                                  activation_profit_percent := 10;
                                  trailing_distance_percent := 200 |} |}.

(** One unit bought at 100 under [cfg], then a tick at 120. *)
Definition trailingAt120 (cfg : Config) : Bot :=
  snd (PositionManager.updatePosition cfg accepting gem 120
         (snd (PositionManager.addPosition cfg gem 100 1 0 fresh))).

(** The balance manager before its first fetch. *)
Definition noBalanceYet : BalanceManager.State :=
  {| BalanceManager.balanceCache := None;
     BalanceManager.cacheTimestamp := 0 |}.

(** A stand-in for the text of a number. *)
Definition noDigits (x : Q) : string := "#".

(** The price feed before its first fetch. *)
Definition noPriceYet : PriceFeed.State :=
  {| PriceFeed.priceCache := ∅; PriceFeed.failureCount := ∅;
     PriceFeed.warnings := [] |}.

(** Four failed fetches in a row. *)
Definition fourFailures : list PriceFeed.Fetched :=
  [PriceFeed.FetchedNull; PriceFeed.FetchThrew; PriceFeed.FetchedPrice 0;
   PriceFeed.FetchedNull].

(** The first level of the repository's ladder. *)
Definition quickProfit : TakeProfitLevel :=
  {| profit_percent := 30; sell_percent := 15;
     description := "Quick profit lock" |}.

(** The record of the position in [peaked]: breakeven moved, trailing
    active, the stop loss at 150, no level sold. *)
Definition peakedPosition : Position :=
  {| tokenAddress := gem; entryPrice := 100; entryAmount := 1;
     remainingAmount := 1; entryTime := 0;
     currentStopLoss := 200 * (1 - 25 / 100);
     isBreakevenMoved := true; isTrailingActive := true;
     highestPrice := 200; executedTpLevels := []; totalSold := 0 |}.

End Sample.

(** ** Status and queue of the trading engine ([tradingEngine.ts]) *)

Module EngineStatus.

Record Status := {
  status_isTrading : bool;
  queueSize : nat;
  readyToTrade : bool
}.

Definition getStatus : M Status := fun b =>
  ({| status_isTrading := isTrading b;
      queueSize := length (tradingQueue b);
      readyToTrade :=
        negb (isTrading b)
        && Nat.ltb (length (tradingQueue b)) TradingEngine.MAX_QUEUE_SIZE |},
   b).

Definition clearQueue : M unit := fun b =>
  (tt, set_engine (isTrading b) [] b).

End EngineStatus.

(** ** Reports of the balance manager ([balanceManager.ts]) *)

Module BalanceReports.

Record BalanceStats := {
  currentBalance : Q;
  reservedAmount : Q;
  tradingBalance : Q;
  nextBuyAmount : Q;
  buyMode : string;
  balancePercentage : Q;
  estimatedTrades : Z
}.

Inductive Health := Healthy | Warning | Critical.

Record HealthDetails := {
  details_balance : Q;
  details_tradingBalance : Q;
  details_nextBuyAmount : Q;
  possibleTrades : Z
}.

Record HealthStatus := {
  status : Health;
  message : string;
  details : HealthDetails
}.

Definition clearCache (s : BalanceManager.State) : BalanceManager.State :=
  {| BalanceManager.balanceCache := None;
     BalanceManager.cacheTimestamp := 0 |}.

Section Reports.
Context (cfg : Config).

(** [getOptimalBuyAmount]; [None] when [getBalance] throws. *)
Definition getOptimalBuyAmount (now : nat) (fetched : option N)
    (s : BalanceManager.State) : option Q * BalanceManager.State :=
  match BalanceManager.getBalance cfg false now fetched s with
  | (Some balance, s') => (Some (BalanceManager.calculatedBuyAmount balance), s')
  | (None, s') => (None, s')
  end.

(** The number of trades that the trading balance pays for, as
    [getBalanceStats], [getHealthStatus] and [getFormattedBalanceInfo]
    compute it; [Math.floor] is [Qfloor]. The quotient is exact here; the
    quotient of two doubles can fall just below a whole number that the
    exact quotient reaches, so the properties state of this number what
    holds of both quotients. *)
Definition tradesFor (balance : BalanceManager.BalanceInfo) : Z :=
  if JS.gt (BalanceManager.calculatedBuyAmount balance) 0
  then Qfloor (BalanceManager.availableForTrading balance
               / BalanceManager.calculatedBuyAmount balance)
  else 0%Z.

Definition statsOf (balance : BalanceManager.BalanceInfo) : BalanceStats :=
  {| currentBalance := BalanceManager.solBalance balance;
     reservedAmount := BalanceManager.reservedAmount balance;
     tradingBalance := BalanceManager.availableForTrading balance;
     nextBuyAmount := BalanceManager.calculatedBuyAmount balance;
     buyMode := if JS.truthy (buy_mode (token_buy cfg))
                then buy_mode (token_buy cfg) else "fixed";
     balancePercentage :=
       JS.or_default (balance_percentage (token_buy cfg)) 0;
     estimatedTrades := tradesFor balance |}.

Definition getBalanceStats (now : nat) (fetched : option N)
    (s : BalanceManager.State) : option BalanceStats * BalanceManager.State :=
  match BalanceManager.getBalance cfg false now fetched s with
  | (Some balance, s') => (Some (statsOf balance), s')
  | (None, s') => (None, s')
  end.

Definition healthOf (balance : BalanceManager.BalanceInfo) : HealthStatus :=
  let criticalThreshold := BalanceManager.reservedAmount balance * 2 in
  let warningThreshold := BalanceManager.reservedAmount balance * 5 in
  let possibleTrades := tradesFor balance in
  let details :=
    {| details_balance := BalanceManager.solBalance balance;
       details_tradingBalance := BalanceManager.availableForTrading balance;
       details_nextBuyAmount := BalanceManager.calculatedBuyAmount balance;
       possibleTrades := possibleTrades |} in
  if JS.le (BalanceManager.solBalance balance) criticalThreshold then
    {| status := Critical;
       message := "Balance critically low - trading will stop soon";
       details := details |}
  else if JS.le (BalanceManager.solBalance balance) warningThreshold
          || Z.ltb possibleTrades 3 then
    {| status := Warning;
       message := "Balance getting low or limited trades remaining";
       details := details |}
  else
    {| status := Healthy;
       message := "Balance healthy for continued trading";
       details := details |}.

Definition getHealthStatus (now : nat) (fetched : option N)
    (s : BalanceManager.State) : option HealthStatus * BalanceManager.State :=
  match BalanceManager.getBalance cfg false now fetched s with
  | (Some balance, s') => (Some (healthOf balance), s')
  | (None, s') => (None, s')
  end.

End Reports.

End BalanceReports.

(** ** The checks before a purchase ([tradingEngine.ts],
       [enhancedSniperooHandler.ts]) *)

Module TradeChecks.

Record TradeDecision := {
  shouldTrade : bool;
  reason : string;
  tokenAddress : option string;
  buyAmount : option Q
}.

(** What [buyToken] asked the execution service to buy. *)
Record BuyOrder := {
  order_tokenAddress : string;
  inputAmount : Q
}.

Section Checks.
Context (cfg : Config).
(** The text JavaScript puts for a number inside a template string, and
    the text of [toFixed(4)]. *)
Context (show toFixed4 : Q -> string).
(** Whether [trim()] leaves nothing of a string. *)
Context (blank : string -> bool).

(** [!tokenAddress?.trim() || tokenAddress.length < 32] *)
Definition invalidAddress (tokenAddress : string) : bool :=
  blank tokenAddress || Nat.ltb (String.length tokenAddress) 32.

Definition declined (reason : string) : TradeDecision :=
  {| shouldTrade := false; reason := reason; tokenAddress := None;
     buyAmount := None |}.

(** [quickTradeCheck]: [now] and [fetched] are the clock and the chain
    for the balance read of [canAffordTrade], [now'] and [fetched'] for
    the one of [getOptimalBuyAmount], and [errorMessage] is the message of
    the error that the latter throws. *)
Definition quickTradeCheck (tokenAddress : string)
    (now : nat) (fetched : option N) (now' : nat) (fetched' : option N)
    (errorMessage : string) (s : BalanceManager.State)
    : TradeDecision * BalanceManager.State :=
  if invalidAddress tokenAddress then (declined "Invalid token address", s)
  else
    let (affordCheck, s1) :=
      BalanceManager.canAffordTrade cfg show now fetched s in
    if negb (BalanceManager.canTrade affordCheck) then
      (declined
         (match BalanceManager.reason affordCheck with
          | Some reason =>
              if JS.truthy reason then reason else "Insufficient balance"
          | None => "Insufficient balance"
          end), s1)
    else
      match BalanceReports.getOptimalBuyAmount cfg now' fetched' s1 with
      | (None, s2) => (declined ("Pre-check failed: " +:+ errorMessage), s2)
      | (Some buyAmount, s2) =>
          if JS.le buyAmount 0 then
            (declined "Buy amount is zero or negative", s2)
          else
            let minAmount :=
              JS.or_default (min_sol_amount (token_buy cfg)) 0.01 in
            if JS.lt buyAmount minAmount then
              (declined ("Buy amount (" +:+ toFixed4 buyAmount
                           +:+ " SOL) below minimum (" +:+ show minAmount
                           +:+ " SOL)"), s2)
            else
              ({| shouldTrade := true; reason := "All checks passed";
                  tokenAddress := Some tokenAddress;
                  buyAmount := Some buyAmount |}, s2)
      end.

(** [buyToken]: [optimal] is what the handler's [getOptimalBuyAmount]
    gives if it is asked, [answer] how the service answers the purchase
    request if one is made ([None] when the request throws, otherwise
    whether the status is 200 or 201). The result comes with the request
    that was made, if any. *)
Definition buyToken (tokenAddress : string) (inputAmountOverride : option Q)
    (optimal : Q) (answer : option bool) : bool * option BuyOrder :=
  if invalidAddress tokenAddress then (false, None)
  else
    let buyAmount :=
      match inputAmountOverride with
      | Some amount => JS.or_default amount optimal
      | None => optimal
      end in
    if JS.le buyAmount 0.001 then (false, None)
    else
      (match answer with Some ok => ok | None => false end,
       Some {| order_tokenAddress := tokenAddress; inputAmount := buyAmount |}).

(** The [try] block of [executeTrade] after [quickTradeCheck]: [optimal]
    and [answer] are as for [buyToken], [currentPrice] is what
    [getTokenPrice] settled with ([None] when it gave null or was
    rejected), and [typeError] is the message of the error thrown by
    [buyAmount!.toFixed(4)] on a decision without amount. *)
Definition purchase (tokenAddress : string) (decision : TradeDecision)
    (optimal : Q) (answer : option bool) (currentPrice : option Q)
    (typeError : string) : TradingEngine.Pipeline * option BuyOrder :=
  if negb (shouldTrade decision) then
    (TradingEngine.Declined (reason decision), None)
  else
    match buyAmount decision with
    | None => (TradingEngine.Threw typeError, None)
    | Some buyAmount =>
        let (purchased, order) :=
          buyToken tokenAddress (Some buyAmount) optimal answer in
        if negb purchased then (TradingEngine.PurchaseFailed buyAmount, order)
        else
          let price := JS.or_default (default 0 currentPrice) 0 in
          (TradingEngine.Purchased buyAmount price, order)
    end.

End Checks.

End TradeChecks.

(** ** The emergency sell script ([emergencySell.ts]) *)

Module EmergencySell.

(** The messages that the script hands to [telegramManager.notifyError];
    they are returned with the result of the function that sends them. *)
Inductive Notice :=
| Completed (successful total failed : nat)
| Incomplete (attempts successful failed : nat).

Definition nothingSold : Sniperoo.EmergencySellResult :=
  {| Sniperoo.total := 0; Sniperoo.successful := 0; Sniperoo.failed := 0;
     Sniperoo.details := [] |}.

Section Script.
Context (svc : Sniperoo.Service).

Definition sweep : M (Sniperoo.EmergencySellResult * list Notice) :=
  let* result := Sniperoo.emergencySellAll svc in
  ret (result,
       [Completed (Sniperoo.successful result) (Sniperoo.total result)
                  (Sniperoo.failed result)]).

(** [emergencySellAll] of the script. In this model neither
    [getWalletHoldings] nor the sweep of the handler throws, so the
    [catch] block is not reached. *)
Definition emergencySellAll
    : M (Sniperoo.EmergencySellResult * list Notice) :=
  let* tracked := (fun b => (size (positions b), b)) in
  if Nat.eqb tracked 0 then
    let* walletPositions := Sniperoo.getWalletHoldings svc in
    match walletPositions with
    | None | Some [] => ret (nothingSold, [])
    | Some _ => sweep
    end
  else sweep.

(** What follows the loop of [emergencySellWithRetry]. *)
Definition afterRetries (attempts : nat)
    (lastResult : option Sniperoo.EmergencySellResult)
    : Sniperoo.EmergencySellResult * list Notice :=
  match lastResult with
  | Some lastResult =>
      (lastResult,
       if Nat.ltb 0 (Sniperoo.failed lastResult)
       then [Incomplete attempts (Sniperoo.successful lastResult)
                        (Sniperoo.failed lastResult)]
       else [])
  | None => (nothingSold, [])
  end.

(** The loop of [emergencySellWithRetry] with [left] attempts to go out
    of [attempts]. *)
Fixpoint retryLoop (attempts left : nat)
    (lastResult : option Sniperoo.EmergencySellResult)
    : M (Sniperoo.EmergencySellResult * list Notice) :=
  match left with
  | O => ret (afterRetries attempts lastResult)
  | S left' =>
      let* attempt := emergencySellAll in
      if Nat.eqb (Sniperoo.failed (fst attempt)) 0 then ret attempt
      else
        let* rest := retryLoop attempts left' (Some (fst attempt)) in
        ret (fst rest, snd attempt ++ snd rest)
  end.

Definition emergencySellWithRetry (maxRetries : nat)
    : M (Sniperoo.EmergencySellResult * list Notice) :=
  retryLoop (maxRetries + 1) (maxRetries + 1) None.

End Script.

End EmergencySell.

(** ** The price source of the feed ([priceFeedHandler.ts]) *)

Module DexScreener.

(** A trading pair of the answer: [liquidityUsd] is [liquidity?.usd], and
    [priceUsd] is the number that the text of [priceUsd] stands for, [None]
    when the field is missing, empty or not a finite number. *)
Record Pair := {
  liquidityUsd : option Q;
  priceUsd : option Q
}.

Inductive Response :=
| RequestFailed
| NoData
| NoPairs
| Pairs (pairs : list Pair).

(** [pair?.liquidity?.usd || 0] *)
Definition liquidity (pair : Pair) : Q :=
  JS.or_default (default 0 (liquidityUsd pair)) 0.

(** [pairs.reduce(..., pairs[0])] *)
Definition bestPair (first : Pair) (pairs : list Pair) : Pair :=
  fold_left (fun best current =>
               if JS.gt (liquidity current) (liquidity best)
               then current else best)
            pairs first.

Definition getPriceFromDexScreener (response : Response) : PriceFeed.Fetched :=
  match response with
  | RequestFailed | NoData | NoPairs | Pairs [] => PriceFeed.FetchedNull
  | Pairs (first :: rest) =>
      match priceUsd (bestPair first (first :: rest)) with
      | Some price => PriceFeed.FetchedPrice price
      | None => PriceFeed.FetchedNull
      end
  end.

End DexScreener.

(** ** Maintenance of the failure tracking ([priceFeedHandler.ts]) *)

Module FailureTracking.

(** [clearFailureTracking(tokenAddress?)] *)
Definition clearFailureTracking (tokenAddress : option string)
    (s : PriceFeed.State) : PriceFeed.State :=
  {| PriceFeed.priceCache := PriceFeed.priceCache s;
     PriceFeed.failureCount :=
       match tokenAddress with
       | Some tokenAddress =>
           if JS.truthy tokenAddress
           then delete tokenAddress (PriceFeed.failureCount s)
           else ∅
       | None => ∅
       end;
     PriceFeed.warnings := PriceFeed.warnings s |}.

End FailureTracking.

(** ** Price monitoring ([positionManager.ts], [index.ts]) *)

Module PriceMonitor.

Section Monitor.
Context (cfg : Config) (svc : Sniperoo.Service).

(** [fetchTokenPrice] of the position manager: the price of the feed
    with the checks made on it; [None] when it throws. *)
Definition fetchTokenPrice (tokenAddress : string) (now : nat)
    (fetched : PriceFeed.Fetched) (feed : PriceFeed.State)
    : option Q * PriceFeed.State :=
  let (price, feed') :=
    PriceFeed.getTokenPrice tokenAddress now fetched feed in
  match price with
  | None => (None, feed')
  | Some price =>
      if JS.le price 0 then (None, feed')
      else if JS.gt price 1e10 then (None, feed')
      else (Some price, feed')
  end.

(** The body of the loop of [startPriceMonitoring] for one token. *)
Definition monitorToken (tokenAddress : string) (now : nat)
    (fetched : PriceFeed.Fetched) (st : PriceFeed.State * Bot)
    : PriceFeed.State * Bot :=
  match fetchTokenPrice tokenAddress now fetched (fst st) with
  | (Some currentPrice, feed') =>
      (feed',
       snd (PositionManager.updatePosition cfg svc tokenAddress currentPrice
              (snd st)))
  | (None, feed') => (feed', snd st)
  end.

(** The body of the loop of [updatePositionsWithRealPrices] for one
    token. *)
Definition updateWithRealPrice (tokenAddress : string) (now : nat)
    (fetched : PriceFeed.Fetched) (st : PriceFeed.State * Bot)
    : PriceFeed.State * Bot :=
  match PriceFeed.getTokenPrice tokenAddress now fetched (fst st) with
  | (Some currentPrice, feed') =>
      if Qeq_bool currentPrice 0 then (feed', snd st)
      else
        (feed',
         snd (PositionManager.updatePosition cfg svc tokenAddress
                currentPrice (snd st)))
  | (None, feed') => (feed', snd st)
  end.

End Monitor.

End PriceMonitor.

(** ** The health monitor ([healthCheck.ts]) *)

Module HealthMonitor.

Inductive Level := Healthy | Warning | Critical.

Record Components := {
  sniperoo : bool;
  balance : Level;
  priceFeed : bool;
  positions : nat
}.

Record Metrics := {
  balanceSOL : Q;
  nextBuyAmount : Q;
  estimatedTrades : Z;
  activePositions : nat
}.

(** The metrics that [checkBalanceHealth] returns. *)
Record BalanceMetrics := {
  checked_balanceSOL : Q;
  checked_nextBuyAmount : Q;
  checked_estimatedTrades : Z
}.

Record SystemHealth := {
  overall : Level;
  components : Components;
  metrics : Metrics;
  timestamp : nat
}.

(** [checkBalanceHealth]: [stats] is what [getBalanceStats] gave, [None]
    when it threw. *)
Definition checkBalanceHealth (stats : option BalanceReports.BalanceStats)
    : Level * BalanceMetrics :=
  match stats with
  | Some balanceStats =>
      (if JS.lt (BalanceReports.currentBalance balanceStats) 0.01
       then Warning else Healthy,
       {| checked_balanceSOL := BalanceReports.currentBalance balanceStats;
          checked_nextBuyAmount := BalanceReports.nextBuyAmount balanceStats;
          checked_estimatedTrades :=
            BalanceReports.estimatedTrades balanceStats |})
  | None =>
      (Warning,
       {| checked_balanceSOL := 0; checked_nextBuyAmount := 0;
          checked_estimatedTrades := 0 |})
  end.

Definition calculateOverallHealth (sniperooOk : bool) (balanceStatus : Level)
    (priceFeedOk : bool) (estimatedTrades : Z) : Level :=
  if negb sniperooOk then Critical
  else if negb priceFeedOk
          || match balanceStatus with Warning => true | _ => false end
  then Warning
  else Healthy.

(** [quickCheck]: [sniperooOk] and [priceFeedOk] are what the two
    connectivity checks gave, [positionCount] the size of the map of
    positions; each of the four checks catches its own errors. *)
Definition quickCheck (sniperooOk : bool)
    (stats : option BalanceReports.BalanceStats) (priceFeedOk : bool)
    (positionCount : nat) (now : nat) : SystemHealth :=
  let balance := checkBalanceHealth stats in
  {| overall :=
       calculateOverallHealth sniperooOk (fst balance) priceFeedOk
                              (checked_estimatedTrades (snd balance));
     components :=
       {| sniperoo := sniperooOk; balance := fst balance;
          priceFeed := priceFeedOk; positions := positionCount |};
     metrics :=
       {| balanceSOL := checked_balanceSOL (snd balance);
          nextBuyAmount := checked_nextBuyAmount (snd balance);
          estimatedTrades := checked_estimatedTrades (snd balance);
          activePositions := positionCount |};
     timestamp := now |}.

Definition isReadyForTrading (lastHealth : option SystemHealth) : bool :=
  match lastHealth with
  | None => false
  | Some lastHealth =>
      match overall lastHealth with Critical => false | _ => true end
      && sniperoo (components lastHealth)
      && Z.ltb 0 (estimatedTrades (metrics lastHealth))
  end.

(** The issues that [sendCriticalAlerts] lists; [None] when it sends
    nothing. *)
Definition criticalIssues (health : SystemHealth) : option (list string) :=
  match overall health with
  | Critical =>
      Some ((if negb (sniperoo (components health))
             then ["Sniperoo API down"] else [])
            ++ (match balance (components health) with
                | Critical => ["Balance critical"]
                | _ => []
                end)
            ++ (if negb (priceFeed (components health))
                then ["DexScreener down"] else []))
  | _ => None
  end.

End HealthMonitor.

(** ** More sample runs *)

Module Scenario.

(** A stand-in for the blank test: only the empty string is blank. *)
Definition blankIfEmpty (s : string) : bool := negb (JS.truthy s).

(** A wallet of 1.2 SOL. *)
Definition funded : N := 1200000000%N.

End Scenario.

(** * Vocabulary of the properties *)

(** [b'] differs from [b] only by requests made and events sent. *)
Definition onlyTalked (b b' : Bot) : Prop :=
  isTrading b' = isTrading b /\ tradingQueue b' = tradingQueue b /\
  positions b' = positions b /\ (requests b <= requests b')%nat /\
  exists events, trace b' = trace b ++ events.

(** The record of [tok] once the price of the tick has been seen. *)
Definition priceSeen (tok : string) (p : Position) (price : Q) (b : Bot) : Bot :=
  snd (when (JS.gt price (highestPrice p))
            (PositionManager.storePosition tok (with_highestPrice p price)) b).

(** The percentage sold by level [j] of the ladder. *)
Definition soldLevel (levels : list TakeProfitLevel) (j : nat) : Q :=
  from_option sell_percent 0 (levels !! j).

(** The record after the levels [new] were sold, in that order. *)
Definition applyLevels (levels : list TakeProfitLevel) (p : Position)
    (new : list nat) : Position :=
  fold_left (fun q j => with_levelExecuted q j (soldLevel levels j)) new p.

(** Level [j] was sold between [b] and [b']: it was not executed in [p],
    its threshold was reached, its sell order is among [events], and at
    some state [c] of that stretch [executeSell] returned true for the
    percentage and the description of the level, the service having
    answered the order with success. *)
Definition soldBy (svc : Sniperoo.Service) (tok : string) (price profit : Q)
    (levels : list TakeProfitLevel) (p : Position) (b b' : Bot)
    (events : list Event) (j : nat) : Prop :=
  (j ∉ executedTpLevels p)
  /\ exists level,
       levels !! j = Some level /\ (profit_percent level <= profit)
       /\ (exists positionId,
             SellPosted positionId (sell_percent level)
                        (description level) ∈ events)
       /\ (exists c,
             ((requests b <= requests c)%nat
              /\ (S (requests c) < requests b')%nat)
             /\ fst (PositionManager.executeSell svc tok (sell_percent level)
                       price (description level) c) = true
             /\ Sniperoo.sellOkAt svc (S (requests c)) = true).

(** What one pass over the ladder from index [i] did to the process: the
    levels [new] were sold in that order, the events [events] were sent. *)
Definition ladderPass (svc : Sniperoo.Service) (tok : string)
    (price profit : Q)
    (levels : list TakeProfitLevel) (i : nat) (p : Position) (b b' : Bot)
    (new : list nat) (events : list Event) : Prop :=
  isTrading b' = isTrading b
  /\ tradingQueue b' = tradingQueue b
  /\ (requests b <= requests b')%nat
  /\ trace b' = trace b ++ events
  /\ Forall (fun j =>
       (i <= j)%nat /\ soldBy svc tok price profit levels p b b' events j)
       new
  /\ NoDup new
  /\ ((new = [] /\ positions b' = positions b)
      \/ (new <> [] /\ totalSold (applyLevels levels p new) < 99.9
          /\ positions b' = <[tok := applyLevels levels p new]> (positions b))
      \/ (new <> [] /\ 99.9 <= totalSold (applyLevels levels p new)
          /\ positions b' = delete tok (positions b)))
  /\ (forall m, (0 < m < length new)%nat ->
                totalSold (applyLevels levels p (take m new)) < 99.9).

(** The record after the highest price was updated with the price of the
    tick. *)
Definition seenPrice (p : Position) (price : Q) : Position :=
  if JS.gt price (highestPrice p) then with_highestPrice p price else p.

(** The record after [checkBreakevenMove] at the profit [profit]. *)
Definition breakevenMoved (cfg : Config) (profit : Q) (p : Position)
    : Position :=
  let breakevenConfig := breakeven (risk_management (advanced_trading cfg)) in
  if isBreakevenMoved p then p
  else if negb (breakeven_enabled breakevenConfig) then p
  else if JS.ge profit (trigger_profit_percent breakevenConfig) then
    with_isBreakevenMoved
      (with_currentStopLoss p
         (entryPrice p
          * (1 + breakeven_offset_percent breakevenConfig / 100)))
      true
  else p.

(** The record after [checkTrailingStopActivation] at the profit
    [profit]. *)
Definition trailingActivated (cfg : Config) (profit : Q) (p : Position)
    : Position :=
  let trailingConfig :=
    trailing_stop (risk_management (advanced_trading cfg)) in
  if isTrailingActive p then p
  else if negb (trailing_enabled trailingConfig) then p
  else if JS.ge profit (activation_profit_percent trailingConfig) then
    with_isTrailingActive p true
  else p.

(** The record after [updateTrailingStop]. *)
Definition trailingUpdated (cfg : Config) (p : Position) : Position :=
  let trailingConfig :=
    trailing_stop (risk_management (advanced_trading cfg)) in
  if negb (isTrailingActive p) then p
  else
    let trailingStopPrice :=
      highestPrice p * (1 - trailing_distance_percent trailingConfig / 100) in
    if JS.gt trailingStopPrice (currentStopLoss p)
    then with_currentStopLoss p trailingStopPrice
    else p.

(** The record when the take-profit ladder is reached on a tick. *)
Definition beforeLadder (cfg : Config) (p : Position) (price : Q) : Position :=
  let profit := PositionManager.profitPercentOf p price in
  trailingUpdated cfg
    (trailingActivated cfg profit
       (breakevenMoved cfg profit (seenPrice p price))).

(** [b] with the record [p] under [tok] and the events [events] sent. *)
Definition told (b : Bot) (tok : string) (p : Position)
    (events : list Event) : Bot :=
  {| isTrading := isTrading b; tradingQueue := tradingQueue b;
     positions := <[tok := p]> (positions b); requests := requests b;
     trace := trace b ++ events |}.

(** What a tick that was not stopped out did: the levels [new] were sold. *)
Definition tickWentOn (cfg : Config) (svc : Sniperoo.Service) (tok : string)
    (price : Q) (p : Position) (b b' : Bot) (events : list Event)
    (new : list nat) : Prop :=
  let profit := PositionManager.profitPercentOf p price in
  let ladder := levels (take_profit_grid (advanced_trading cfg)) in
  let q := beforeLadder cfg p price in
  Forall (soldBy svc tok price profit ladder q b b' events) new
  /\ NoDup new
  /\ ((new = [] /\ positions b' !! tok = Some q)
      \/ (new <> [] /\ totalSold (applyLevels ladder q new) < 99.9
          /\ positions b' !! tok = Some (applyLevels ladder q new))
      \/ (new <> [] /\ 99.9 <= totalSold (applyLevels ladder q new)
          /\ positions b' !! tok = None))
  /\ (grid_enabled (take_profit_grid (advanced_trading cfg)) = true ->
      forall k level,
        ladder !! k = Some level ->
        k ∉ executedTpLevels q ->
        profit_percent level <= profit ->
        k ∈ new
        \/ ErrorAlert (TakeProfitFailed (k + 1) tok price
                         (profit_percent level)) ∈ events
        \/ positions b' !! tok = None).

(** What a tick did, whichever way it went. *)
Definition tickDone (cfg : Config) (svc : Sniperoo.Service) (tok : string)
    (price : Q) (p : Position) (b b' : Bot) : Prop :=
  isTrading b' = isTrading b
  /\ tradingQueue b' = tradingQueue b
  /\ (requests b <= requests b')%nat
  /\ (forall other, other <> tok ->
        positions b' !! other = positions b !! other)
  /\ exists events,
       trace b' = trace b ++ events
       /\ ((price <= currentStopLoss p /\ positions b' !! tok = None
            /\ exists n, ((requests b <= n)%nat /\ (n < requests b')%nat)
                         /\ Sniperoo.sellOkAt svc n = true)
           \/ exists new, tickWentOn cfg svc tok price p b b' events new).

(** The states of the process: it starts without positions, positions are
    registered by [addPosition] and evolve by price ticks; any other step
    (the trading engine, the emergency stop) leaves the map alone. *)
Inductive reachable (cfg : Config) (svc : Sniperoo.Service) : Bot -> Prop :=
| reach_start b :
    positions b = ∅ -> reachable cfg svc b
| reach_add b tok price amount now :
    reachable cfg svc b ->
    reachable cfg svc
      (snd (PositionManager.addPosition cfg tok price amount now b))
| reach_tick b tok price :
    reachable cfg svc b ->
    reachable cfg svc (snd (PositionManager.updatePosition cfg svc tok price b))
| reach_other b b' :
    reachable cfg svc b -> positions b' = positions b ->
    reachable cfg svc b'.

(** The stop loss a position starts with. *)
Definition initialStopLoss (cfg : Config) (p : Position) : Q :=
  entryPrice p
  * (1 - initial_stop_loss_percent (risk_management (advanced_trading cfg))
         / 100).

(** The factor that takes the highest price to the trailing stop. *)
Definition trailingFactor (cfg : Config) : Q :=
  1 - trailing_distance_percent
        (trailing_stop (risk_management (advanced_trading cfg))) / 100.

(** As long as the breakeven move has not happened, the stop loss is the
    initial one or was set by the trailing stop from an earlier high. *)
Definition stopLossInv (cfg : Config) (p : Position) : Prop :=
  isBreakevenMoved p = false ->
  currentStopLoss p = initialStopLoss cfg p
  \/ (isTrailingActive p = true
      /\ currentStopLoss p <= highestPrice p * trailingFactor cfg).

(** The clamp of the specification: [x] brought into [[lo, hi]]. *)
Definition spec_clamp (x lo hi : Q) : Q := Qmax lo (Qmin x hi).

(** Whether [getBalance] asks the chain rather than answer from its cache. *)
Definition mustFetch (forceRefresh : bool) (now : nat)
    (s : BalanceManager.State) : bool :=
  match BalanceManager.balanceCache s with
  | Some _ =>
      negb (negb forceRefresh
            && Nat.ltb (now - BalanceManager.cacheTimestamp s)
                       BalanceManager.CACHE_DURATION)
  | None => true
  end.

(** The cache holds a record that [balanceOf] computed. *)
Definition cacheSound (cfg : Config) (s : BalanceManager.State) : Prop :=
  forall cached, BalanceManager.balanceCache s = Some cached ->
                 exists lamports, cached = BalanceManager.balanceOf cfg lamports.

(** A fetch that [getTokenPrice] counts as a failure. *)
Definition isFailure (fetched : PriceFeed.Fetched) : bool :=
  match fetched with
  | PriceFeed.FetchedPrice price => negb (JS.gt price 0 && JS.lt price 1e10)
  | PriceFeed.FetchedNull => true
  | PriceFeed.FetchThrew => true
  end.

(** The reason [getTokenPrice] gives to [trackFailure] for it. *)
Definition failureReason (fetched : PriceFeed.Fetched) : string :=
  match fetched with
  | PriceFeed.FetchedPrice _ => "suspicious_value"
  | PriceFeed.FetchedNull => "no_data"
  | PriceFeed.FetchThrew => "error"
  end.


(** ** The life of a position *)

(** The price at which the breakeven move puts the stop loss. *)
Definition breakevenStop (cfg : Config) (p : Position) : Q :=
  entryPrice p
  * (1 + breakeven_offset_percent
           (breakeven (risk_management (advanced_trading cfg))) / 100).

(** The ladder sells a share that is not negative at each level. *)
Definition sharesNonNegative (cfg : Config) : Prop :=
  Forall (fun level => 0 <= sell_percent level)
         (levels (take_profit_grid (advanced_trading cfg))).

(** ** The process as a whole *)

(** The entry points through which the state of the process changes. *)
Inductive Action :=
| PriceTick (tokenAddress : string) (currentPrice : Q)
| TradeRequested (tokenAddress : string)
| TradeFinished (tokenAddress : string) (outcome : TradingEngine.Pipeline)
                (now : nat)
| EmergencyStop
| QueueCleared.

Definition act (cfg : Config) (svc : Sniperoo.Service) (a : Action)
    (b : Bot) : Bot :=
  match a with
  | PriceTick tokenAddress currentPrice =>
      snd (PositionManager.updatePosition cfg svc tokenAddress currentPrice b)
  | TradeRequested tokenAddress =>
      snd (TradingEngine.executeTrade_enter tokenAddress b)
  | TradeFinished tokenAddress outcome now =>
      snd (TradingEngine.executeTrade_complete cfg tokenAddress outcome now b)
  | EmergencyStop => snd (TradingEngine.emergencyStop svc b)
  | QueueCleared => snd (EngineStatus.clearQueue b)
  end.

Definition acts (cfg : Config) (svc : Sniperoo.Service) (l : list Action)
    (b : Bot) : Bot :=
  fold_left (fun b a => act cfg svc a b) l b.

(** A sell order that the execution service accepts as well formed. *)
Definition validOrder (e : Event) : Prop :=
  match e with
  | SellPosted positionId percentage _ =>
      positionId <> 0%nat /\ 0 < percentage /\ percentage <= 100
  | _ => True
  end.

(** Between [b] and [b'] only events that satisfy [P] were sent. *)
Definition sends (P : Event -> Prop) (b b' : Bot) : Prop :=
  exists events, trace b' = trace b ++ events /\ Forall P events.

(** A computation that sends only events that satisfy [P]. *)
Definition quiet {A} (P : Event -> Prop) (m : M A) : Prop :=
  forall b, sends P b (snd (m b)).

(** The events that report what happened to a position. *)
Definition isReport (e : Event) : bool :=
  match e with
  | TokenSold _ _ _ _ _ | BreakevenMoved _ _ _ | TrailingActivated _ _ _ =>
      true
  | _ => false
  end.

(** The event is not the alert of a failed take-profit sell. *)
Definition noTakeProfitFailure (e : Event) : Prop :=
  match e with
  | ErrorAlert (TakeProfitFailed _ _ _ _) => False
  | _ => True
  end.

(** The ladder sells a share in (0, 100] at each level. *)
Definition sharesValid (cfg : Config) : Prop :=
  Forall (fun level => 0 < sell_percent level /\ sell_percent level <= 100)
         (levels (take_profit_grid (advanced_trading cfg))).

(** Successive completions of trades, each starting the next queued one:
    [current] is the token whose trade is running, the result lists the
    tokens whose trades were started, in that order. *)
Fixpoint drain (cfg : Config) (current : string)
    (outcomes : list (TradingEngine.Pipeline * nat)) (b : Bot)
    : list string * Bot :=
  match outcomes with
  | [] => ([], b)
  | (outcome, now) :: rest =>
      let r := TradingEngine.executeTrade_complete cfg current outcome now b in
      match snd (fst r) with
      | None => ([], snd r)
      | Some next =>
          let d := drain cfg next rest (snd r) in
          (next :: fst d, snd d)
      end
  end.

(** The queue holds at most [MAX_QUEUE_SIZE] tokens, and fewer when no
    trade is running. *)
Definition queueInv (b : Bot) : Prop :=
  (length (tradingQueue b) <= TradingEngine.MAX_QUEUE_SIZE)%nat
  /\ (isTrading b = false ->
      (length (tradingQueue b) < TradingEngine.MAX_QUEUE_SIZE)%nat).

(** The record that [addPosition] registers. *)
Definition freshPosition (cfg : Config) (tokenAddress : string)
    (entryPrice entryAmount : Q) (now : nat) : Position :=
  {| tokenAddress := tokenAddress; entryPrice := entryPrice;
     entryAmount := entryAmount; remainingAmount := entryAmount;
     entryTime := now;
     currentStopLoss :=
       entryPrice
       * (1 - initial_stop_loss_percent
                (risk_management (advanced_trading cfg)) / 100);
     isBreakevenMoved := false; isTrailingActive := false;
     highestPrice := entryPrice; executedTpLevels := []; totalSold := 0 |}.

(** ** Balance and price feed *)

(** The amounts of the buy configuration are not negative. *)
Definition amountsNonNegative (cfg : Config) : Prop :=
  0 <= min_sol_amount (token_buy cfg) /\ 0 <= sol_amount (token_buy cfg)
  /\ 0 <= reserve_sol (token_buy cfg).

(** The notices that report a sweep. *)
Definition isSweep (n : EmergencySell.Notice) : bool :=
  match n with EmergencySell.Completed _ _ _ => true | _ => false end.

(** The price cache holds only prices that passed the check of
    [getTokenPrice]. *)
Definition pricesValid (s : PriceFeed.State) : Prop :=
  forall tok info,
    PriceFeed.priceCache s !! tok = Some info ->
    0 < PriceFeed.price info /\ PriceFeed.price info < 1e10.

(** Whether [getTokenPrice] asks the price source rather than answer
    from its cache. *)
Definition mustAsk (tok : string) (now : nat) (s : PriceFeed.State) : bool :=
  match PriceFeed.priceCache s !! tok with
  | Some cached =>
      negb (Nat.ltb (now - PriceFeed.timestamp cached)
                    PriceFeed.CACHE_DURATION)
  | None => true
  end.

(** ** The take-profit pass, level by level *)

(** The state of a pass of [checkTakeProfitGrid] over the record [p], begun
    in [b], once the loop has gone through the levels of index 0 to
    [k - 1]: the state in which the level of index [k] is looked at. *)
Definition passReached (svc : Sniperoo.Service) (tok : string)
    (price profit : Q) (ladder : list TakeProfitLevel) (p : Position)
    (b : Bot) (k : nat) : Bot :=
  snd (PositionManager.takeProfitLoop svc tok price profit 0
         (take k ladder) p b).

(** What a pass does with a level: it passes over it, or it tries to sell
    it and the sale goes through, or it tries and the sale fails. *)
Inductive Outcome := Skipped | Sold | Refused.

(** What the pass does with the level of index [k]: it passes over it when
    the position was closed earlier in the pass, when the level is already
    executed and when the profit is below its threshold; otherwise it
    calls [executeSell], in the state that the pass has reached, and the
    result of that call decides. *)
Definition outcomeAt (svc : Sniperoo.Service) (tok : string)
    (price profit : Q) (ladder : list TakeProfitLevel) (p : Position)
    (b : Bot) (k : nat) : Outcome :=
  let reached := passReached svc tok price profit ladder p b k in
  match ladder !! k, positions reached !! tok with
  | Some level, Some q =>
      if bool_decide (k ∈ executedTpLevels q) then Skipped
      else if JS.lt profit (profit_percent level) then Skipped
      else if fst (PositionManager.executeSell svc tok (sell_percent level)
                     price (description level) reached)
           then Sold else Refused
  | _, _ => Skipped
  end.








(** ** Trades in flight *)


(** ** The emergency sell script *)

(** The state of the process after [k] sweeps of the script in a row. *)
Definition afterSweeps (svc : Sniperoo.Service) (k : nat) (b : Bot) : Bot :=
  Nat.iter k (fun c => snd (EmergencySell.emergencySellAll svc c)) b.

(** The result and the notices of the sweep that follows [k] others. *)
Definition sweepAt (svc : Sniperoo.Service) (b : Bot) (k : nat)
    : Sniperoo.EmergencySellResult * list EmergencySell.Notice :=
  fst (EmergencySell.emergencySellAll svc (afterSweeps svc k b)).

(** * Properties *)

(** ** Comparisons *)

Lemma JS_le_true x y : JS.le x y = true <-> x <= y.
Proof. unfold JS.le. apply Qle_bool_iff. Qed.

Lemma JS_le_false x y : JS.le x y = false <-> y < x.
Proof.
  unfold JS.le. split; intros H.
  - apply Qnot_le_lt. intros Hle. apply Qle_bool_iff in Hle. congruence.
  - destruct (Qle_bool x y) eqn:E; [|reflexivity].
    apply Qle_bool_iff in E. lra.
Qed.

Lemma JS_ge_true x y : JS.ge x y = true <-> y <= x.
Proof. apply JS_le_true. Qed.

Lemma JS_ge_false x y : JS.ge x y = false <-> x < y.
Proof. apply JS_le_false. Qed.

Lemma JS_gt_true x y : JS.gt x y = true <-> y < x.
Proof.
  unfold JS.gt. rewrite negb_true_iff. apply (JS_le_false x y).
Qed.

Lemma JS_gt_false x y : JS.gt x y = false <-> x <= y.
Proof.
  unfold JS.gt. rewrite negb_false_iff. apply (JS_le_true x y).
Qed.

Lemma JS_lt_true x y : JS.lt x y = true <-> x < y.
Proof. apply (JS_gt_true y x). Qed.

Lemma JS_lt_false x y : JS.lt x y = false <-> y <= x.
Proof. apply (JS_gt_false y x). Qed.

Lemma Math_max_Qmax x y : JS.Math_max x y == Qmax x y.
Proof.
  unfold JS.Math_max. destruct (Qle_bool x y) eqn:E.
  - apply Qle_bool_iff in E. symmetry. apply Q.max_r. exact E.
  - apply (JS_le_false x y) in E. symmetry. apply Q.max_l. lra.
Qed.

Lemma Math_min_Qmin x y : JS.Math_min x y == Qmin x y.
Proof.
  unfold JS.Math_min. destruct (Qle_bool x y) eqn:E.
  - apply Qle_bool_iff in E. symmetry. apply Q.min_l. exact E.
  - apply (JS_le_false x y) in E. symmetry. apply Q.min_r. lra.
Qed.

(** ** State passing *)

Lemma bind_eq {A B} (m : M A) (k : A -> M B) (b : Bot) :
  bind m k b = k (fst (m b)) (snd (m b)).
Proof. unfold bind. destruct (m b); reflexivity. Qed.

(** ** What a step leaves alone *)

Lemma onlyTalked_refl b : onlyTalked b b.
Proof.
  repeat split; try reflexivity. exists []. symmetry. apply app_nil_r.
Qed.

Lemma onlyTalked_trans b1 b2 b3 :
  onlyTalked b1 b2 -> onlyTalked b2 b3 -> onlyTalked b1 b3.
Proof.
  intros (T1 & Q1 & P1 & R1 & e1 & E1) (T2 & Q2 & P2 & R2 & e2 & E2).
  repeat split; try congruence; try lia.
  exists (e1 ++ e2). rewrite E2, E1. symmetry. apply app_assoc.
Qed.

Lemma emit_onlyTalked e b : onlyTalked b (snd (emit e b)).
Proof. repeat split; simpl; try lia. eexists; reflexivity. Qed.

Section ServiceFacts.
Context (svc : Sniperoo.Service).

Lemma request_onlyTalked {A} (answer : nat -> A) b :
  onlyTalked b (snd (Sniperoo.request answer b)).
Proof. repeat split; simpl; try lia. exists []. symmetry. apply app_nil_r. Qed.

Lemma getWalletHoldings_onlyTalked b :
  onlyTalked b (snd (Sniperoo.getWalletHoldings svc b)).
Proof.
  unfold Sniperoo.getWalletHoldings, bind.
  destruct (Sniperoo.request _ b) as [response b1] eqn:E.
  assert (H : onlyTalked b b1).
  { replace b1 with (snd (Sniperoo.request (Sniperoo.holdingsAt svc) b))
      by (rewrite E; reflexivity).
    apply request_onlyTalked. }
  destruct response; exact H.
Qed.

Lemma sellToken_onlyTalked order b :
  onlyTalked b (snd (Sniperoo.sellToken svc order b)).
Proof.
  unfold Sniperoo.sellToken.
  destruct (_ || _ || _); [apply onlyTalked_refl|].
  unfold bind. simpl.
  destruct (Sniperoo.sellOkAt svc (requests b));
    (repeat split; simpl; try lia; eexists; reflexivity).
Qed.

Lemma sellEach_onlyTalked l b :
  onlyTalked b (snd (Sniperoo.sellEach svc l b)).
Proof.
  revert b. induction l as [|pos rest IH]; intros b; simpl.
  - apply onlyTalked_refl.
  - unfold bind at 1.
    destruct (Sniperoo.sellToken svc _ b) as [r b1] eqn:E1.
    assert (H1 : onlyTalked b b1).
    { replace b1 with (snd (Sniperoo.sellToken svc
        {| Sniperoo.order_positionId := Sniperoo.positionId pos;
           Sniperoo.percentage := 100;
           Sniperoo.reason := "Emergency sell" |} b))
        by (rewrite E1; reflexivity).
      apply sellToken_onlyTalked. }
    unfold bind.
    destruct (Sniperoo.sellEach svc rest b1) as [ds b2] eqn:E2.
    simpl. apply (onlyTalked_trans _ _ _ H1).
    specialize (IH b1). rewrite E2 in IH. exact IH.
Qed.

Lemma emergencySellAll_onlyTalked b :
  onlyTalked b (snd (Sniperoo.emergencySellAll svc b)).
Proof.
  unfold Sniperoo.emergencySellAll. unfold bind at 1.
  pose proof (getWalletHoldings_onlyTalked b) as H.
  destruct (Sniperoo.getWalletHoldings svc b) as [holdings b1].
  simpl in H.
  destruct holdings as [[|pos rest]|]; try exact H.
  unfold bind.
  pose proof (sellEach_onlyTalked (pos :: rest) b1) as H2.
  destruct (Sniperoo.sellEach svc (pos :: rest) b1) as [ds b2].
  simpl in *. exact (onlyTalked_trans _ _ _ H H2).
Qed.

End ServiceFacts.

Section SellFacts.
Context (svc : Sniperoo.Service).

Lemma executeSell_onlyTalked tok pct price reason b :
  onlyTalked b (snd (PositionManager.executeSell svc tok pct price reason b)).
Proof.
  unfold PositionManager.executeSell. unfold bind at 1.
  pose proof (getWalletHoldings_onlyTalked svc b) as H.
  destruct (Sniperoo.getWalletHoldings svc b) as [holdings b1].
  simpl in H.
  destruct holdings as [[|pos rest]|]; try exact H.
  destruct (List.find _ _) as [found|]; try exact H.
  unfold bind, ret.
  pose proof (sellToken_onlyTalked svc
    {| Sniperoo.order_positionId := Sniperoo.positionId found;
       Sniperoo.percentage := pct; Sniperoo.reason := reason |} b1) as H2.
  destruct (Sniperoo.sellToken svc _ b1) as [r b2].
  simpl in *. exact (onlyTalked_trans _ _ _ H H2).
Qed.

(** A sell that succeeded made two requests, the second answered with
    success, and posted one order for the percentage asked. *)
Lemma executeSell_true tok pct price reason b b' :
  PositionManager.executeSell svc tok pct price reason b = (true, b') ->
  exists positionId,
    b' = {| isTrading := isTrading b; tradingQueue := tradingQueue b;
            positions := positions b; requests := S (S (requests b));
            trace := trace b ++ [SellPosted positionId pct reason] |}
    /\ Sniperoo.sellOkAt svc (S (requests b)) = true.
Proof.
  unfold PositionManager.executeSell, Sniperoo.getWalletHoldings,
    Sniperoo.sellToken, bind, Sniperoo.request, emit, ret.
  simpl.
  destruct (Sniperoo.holdingsAt svc (requests b)) as [| |data];
    simpl; try discriminate.
  destruct (map _ _) as [|pos rest]; simpl; try discriminate.
  destruct (if _ : bool then _ else _) as [found|]; simpl; try discriminate.
  destruct (_ || _ || _); simpl; try discriminate.
  destruct (Sniperoo.sellOkAt svc (S (requests b))) eqn:Ok;
    simpl; try discriminate.
  intros H. injection H as <-.
  exists (Sniperoo.positionId found). split; reflexivity.
Qed.

(** The sell path does not look at the map of positions. *)
Lemma executeSell_set_positions f tok pct price reason b :
  PositionManager.executeSell svc tok pct price reason (set_positions f b)
  = (fst (PositionManager.executeSell svc tok pct price reason b),
     set_positions f
       (snd (PositionManager.executeSell svc tok pct price reason b))).
Proof.
  unfold PositionManager.executeSell, Sniperoo.getWalletHoldings,
    Sniperoo.sellToken, bind, Sniperoo.request, emit, ret.
  simpl.
  destruct (Sniperoo.holdingsAt svc (requests b)) as [| |data];
    simpl; try reflexivity.
  destruct (map _ _) as [|pos rest]; simpl; try reflexivity.
  destruct (if _ : bool then _ else _) as [found|]; simpl; try reflexivity.
  destruct (_ || _ || _); simpl; try reflexivity.
  destruct (Sniperoo.sellOkAt svc (S (requests b))); reflexivity.
Qed.

End SellFacts.

(** ** Registration of a position *)

(** C10. [addPosition] for a token that is already tracked puts a fresh
    record in place of the old one, without any notification: the remaining
    amount is the new entry amount, the stop loss is computed from the new
    entry price and the initial stop-loss percent, both flags are false, no
    level is marked executed and nothing counts as sold; nothing of the old
    record is kept, and the other positions are untouched. *)
Theorem addPosition_replaces_existing
    cfg tok (price amount : Q) (now : nat) (b : Bot) (old : Position) :
  positions b !! tok = Some old ->
  let b' := snd (PositionManager.addPosition cfg tok price amount now b) in
  positions b' !! tok
  = Some {| tokenAddress := tok; entryPrice := price; entryAmount := amount;
            remainingAmount := amount; entryTime := now;
            currentStopLoss :=
              price * (1 - initial_stop_loss_percent
                             (risk_management (advanced_trading cfg)) / 100);
            isBreakevenMoved := false; isTrailingActive := false;
            highestPrice := price; executedTpLevels := []; totalSold := 0 |}
  /\ (forall other, other <> tok ->
        positions b' !! other = positions b !! other)
  /\ trace b' = trace b
  /\ requests b' = requests b.
Proof.
  intros _ b'. subst b'. simpl. split; [|split; [|split]].
  - apply lookup_insert_eq.
  - intros other Hne. apply lookup_insert_ne. congruence.
  - reflexivity.
  - reflexivity.
Qed.

(** ** Emergency stop *)

Lemma sellToken_posts svc order b :
  Sniperoo.order_positionId order <> 0%nat ->
  0 < Sniperoo.percentage order <= 100 ->
  trace (snd (Sniperoo.sellToken svc order b))
  = trace b ++ [SellPosted (Sniperoo.order_positionId order)
                           (Sniperoo.percentage order)
                           (Sniperoo.reason order)]
  /\ requests (snd (Sniperoo.sellToken svc order b)) = S (requests b)
  /\ Sniperoo.success (fst (Sniperoo.sellToken svc order b))
     = Sniperoo.sellOkAt svc (requests b).
Proof.
  intros Hid [Hlo Hhi]. unfold Sniperoo.sellToken.
  destruct (Nat.eqb_spec (Sniperoo.order_positionId order) 0) as [E|_];
    [tauto|].
  apply (JS_le_false _ 0) in Hlo. apply (JS_gt_false _ 100) in Hhi.
  rewrite Hlo, Hhi. simpl.
  rewrite !bind_eq. simpl.
  destruct (Sniperoo.sellOkAt svc (requests b)); simpl; auto.
Qed.

Lemma sellEach_trace svc l b :
  Forall (fun pos => Sniperoo.positionId pos <> 0%nat) l ->
  trace (snd (Sniperoo.sellEach svc l b))
  = trace b ++ map (fun pos => SellPosted (Sniperoo.positionId pos) 100
                                          "Emergency sell") l.
Proof.
  revert b. induction l as [|pos rest IH]; intros b Hvalid; simpl.
  - symmetry. apply app_nil_r.
  - inversion Hvalid as [|? ? Hpos Hrest]; subst.
    rewrite !bind_eq. simpl. rewrite IH by exact Hrest.
    match goal with
    | |- context [Sniperoo.sellToken svc ?o b] =>
        destruct (sellToken_posts svc o b) as (Ht & _ & _);
          [exact Hpos | simpl; lra | rewrite Ht]
    end.
    simpl. rewrite <- app_assoc. reflexivity.
Qed.

Lemma holdings_valid (data : list Sniperoo.ApiPosition) :
  Forall (fun pos => Sniperoo.positionId pos <> 0%nat)
    (map (fun pos =>
            {| Sniperoo.tokenAddress := Sniperoo.api_tokenAddress pos;
               Sniperoo.balance := Sniperoo.initialTokenAmountUi pos;
               Sniperoo.value := Sniperoo.currentValue pos;
               Sniperoo.positionId := Sniperoo.id pos |})
         (filter (fun pos => Sniperoo.id pos <> 0%nat /\
                             Sniperoo.api_tokenAddress pos <> EmptyString)
                 data)).
Proof.
  apply Forall_map. apply Forall_forall. intros pos Hin.
  apply list_elem_of_filter in Hin. simpl. tauto.
Qed.

(** C9. [emergencyStop] empties the queue, clears the in-flight flag and
    posts a sell of 100% for every holding the execution service reports,
    and it leaves the map of the position manager as it was: every tracked
    position is still there with all its fields, so that the next price
    tick reads the same record. *)
Theorem emergencyStop_keeps_positions svc (b : Bot) :
  let b' := snd (TradingEngine.emergencyStop svc b) in
  isTrading b' = false
  /\ tradingQueue b' = []
  /\ positions b' = positions b
  /\ (forall tok, fst (PositionManager.getPosition tok b')
                  = positions b !! tok)
  /\ (forall data,
        Sniperoo.holdingsAt svc (requests b) = Sniperoo.HoldingsOk data ->
        trace b'
        = trace b
          ++ map (fun pos => SellPosted (Sniperoo.id pos) 100 "Emergency sell")
                 (filter (fun pos => Sniperoo.id pos <> 0%nat /\
                                     Sniperoo.api_tokenAddress pos
                                     <> EmptyString) data)
          ++ [ErrorAlert EmergencyStopExecuted]).
Proof.
  intros b'. subst b'. unfold TradingEngine.emergencyStop.
  rewrite !bind_eq. simpl.
  set (b0 := set_engine false [] b).
  pose proof (emergencySellAll_onlyTalked svc b0) as (T & Qe & P & _ & _).
  assert (Htrace : forall data,
    Sniperoo.holdingsAt svc (requests b) = Sniperoo.HoldingsOk data ->
    trace (snd (Sniperoo.emergencySellAll svc b0))
    = trace b
      ++ map (fun pos => SellPosted (Sniperoo.id pos) 100 "Emergency sell")
             (filter (fun pos => Sniperoo.id pos <> 0%nat /\
                                 Sniperoo.api_tokenAddress pos
                                 <> EmptyString) data)).
  { intros data Hdata.
    unfold Sniperoo.emergencySellAll, Sniperoo.getWalletHoldings.
    rewrite !bind_eq. unfold Sniperoo.request at 1 2. simpl.
    rewrite Hdata. simpl.
    pose proof (holdings_valid data) as Hvalid.
    destruct (map _ (filter _ data)) as [|pos rest] eqn:Hmap.
    - simpl. apply (f_equal (map (fun pos : Sniperoo.WalletPosition =>
        Sniperoo.positionId pos))) in Hmap. rewrite map_map in Hmap.
      simpl in Hmap. apply map_eq_nil in Hmap. rewrite Hmap.
      simpl. symmetry. apply app_nil_r.
    - rewrite bind_eq. unfold ret. cbn [snd].
      rewrite (sellEach_trace svc _ _ Hvalid).
      cbn [trace]. rewrite <- Hmap, map_map. reflexivity. }
  repeat split; try assumption.
  - intros tok. simpl. rewrite P. reflexivity.
  - intros data Hdata. rewrite (Htrace data Hdata), <- app_assoc.
    reflexivity.
Qed.

(** The hypothesis of [addPosition_replaces_existing] holds after the first
    level of the sample position was sold, and buying the token again at
    200 forgets the sale. *)
Lemma addPosition_replaces_existing_witness :
  (exists old, positions Sample.firstLevelSold !! Sample.gem = Some old
               /\ executedTpLevels old = [0%nat])
  /\ exists new,
       positions (snd (PositionManager.addPosition config Sample.gem 200 2 9
                         Sample.firstLevelSold)) !! Sample.gem = Some new
       /\ executedTpLevels new = [] /\ totalSold new = 0
       /\ remainingAmount new = 2.
Proof.
  destruct (positions Sample.firstLevelSold !! Sample.gem) as [old|] eqn:E;
    [|vm_compute in E; discriminate].
  split.
  - exists old. split; [reflexivity|].
    vm_compute in E. injection E as <-. reflexivity.
  - destruct (addPosition_replaces_existing config Sample.gem 200 2 9
                Sample.firstLevelSold old E) as (H & _).
    eexists. split; [exact H|]. repeat split.
Defined.

(** The hypothesis on the holdings in [emergencyStop_keeps_positions]
    holds for the sample service: after an emergency stop on the sample
    process, whose first level is sold, the one holding was sold at 100%
    and the position is still tracked with its level marked. *)
Lemma emergencyStop_keeps_positions_witness :
  let b' := snd (TradingEngine.emergencyStop Sample.accepting
                   Sample.firstLevelSold) in
  Sniperoo.holdingsAt Sample.accepting (requests Sample.firstLevelSold)
  = Sample.holdings
  /\ positions b' !! Sample.gem = positions Sample.firstLevelSold !! Sample.gem
  /\ trace b'
     = trace Sample.firstLevelSold
       ++ [SellPosted 7 100 "Emergency sell";
           ErrorAlert EmergencyStopExecuted].
Proof.
  intros b'.
  destruct (emergencyStop_keeps_positions Sample.accepting
              Sample.firstLevelSold) as (_ & _ & Hpos & _ & Htrace).
  split; [reflexivity|]. split.
  - fold b' in Hpos. rewrite Hpos. reflexivity.
  - apply (Htrace _ eq_refl).
Defined.

(** ** The stop-loss check *)

Lemma priceSeen_lookup tok p price b :
  positions b !! tok = Some p ->
  exists p', positions (priceSeen tok p price b) !! tok = Some p'
    /\ (p' = p \/ p' = with_highestPrice p price)
    /\ highestPrice p <= highestPrice p'.
Proof.
  intros Hp. unfold priceSeen, when.
  destruct (JS.gt price (highestPrice p)) eqn:E; cbn.
  - exists (with_highestPrice p price). rewrite lookup_insert_eq.
    apply JS_gt_true in E. repeat split; auto. simpl. lra.
  - exists p. repeat split; auto. lra.
Qed.

Lemma priceSeen_set_positions tok p price b :
  exists f, priceSeen tok p price b = set_positions f b
            /\ delete tok (f (positions b)) = delete tok (positions b).
Proof.
  unfold priceSeen, when.
  destruct (JS.gt price (highestPrice p)); cbn.
  - eexists. split; [reflexivity|]. cbn. apply delete_insert_eq.
  - exists (fun m => m). split; [|reflexivity]. destruct b; reflexivity.
Qed.

Lemma updatePosition_unfold cfg svc tok price b p :
  positions b !! tok = Some p ->
  PositionManager.updatePosition cfg svc tok price b
  = (let* closed :=
       PositionManager.checkStopLoss svc tok price
         (PositionManager.profitPercentOf p price) in
     if closed then ret tt
     else PositionManager.afterStopLoss cfg svc tok price
            (PositionManager.profitPercentOf p price))
      (priceSeen tok p price b).
Proof.
  intros Hp. unfold PositionManager.updatePosition.
  rewrite bind_eq. unfold PositionManager.getPosition at 1. cbn [fst snd].
  rewrite Hp. rewrite bind_eq. reflexivity.
Qed.

Lemma checkStopLoss_eq svc tok price profit b p :
  positions b !! tok = Some p ->
  PositionManager.checkStopLoss svc tok price profit b
  = if JS.le price (currentStopLoss p) then
      let sold :=
        PositionManager.executeSell svc tok (100 - totalSold p) price
                                    "Stop Loss" b in
      if fst sold then
        (true,
         snd (PositionManager.removePosition tok
                (snd (emit (TokenSold
                              (if isTrailingActive p
                               then "Trailing Stop Loss" else "Stop Loss")
                              profit
                              (remainingAmount p
                               * (price / entryPrice p - 1))
                              tok price)
                           (snd sold)))))
      else (false, snd sold)
    else (false, b).
Proof.
  intros Hp. unfold PositionManager.checkStopLoss.
  rewrite bind_eq. unfold PositionManager.getPosition. cbn [fst snd].
  rewrite Hp. destruct (JS.le price (currentStopLoss p)); [|reflexivity].
  rewrite bind_eq. cbv zeta.
  destruct (PositionManager.executeSell svc tok _ price "Stop Loss" b)
    as [[|] b2]; reflexivity.
Qed.

(** C1, as the code has it. On a tick whose price is at or below the stop
    loss of the position, the sell of the whole remainder is attempted
    first. If it succeeds, the tick ends there: the position is removed and
    the only things sent are that sell order and its notification, so no
    breakeven move, no trailing activation or update and no take-profit
    level happens. If it fails, the four later steps run in that tick. *)
Theorem stopLoss_short_circuits_when_sold
    cfg svc tok (price : Q) (b : Bot) (p : Position) :
  positions b !! tok = Some p ->
  price <= currentStopLoss p ->
  let percentage := 100 - totalSold p in
  let profit := PositionManager.profitPercentOf p price in
  let sold :=
    PositionManager.executeSell svc tok percentage price "Stop Loss"
                                (priceSeen tok p price b) in
  let b' := snd (PositionManager.updatePosition cfg svc tok price b) in
  (fst sold = true ->
   positions b' = delete tok (positions b)
   /\ exists positionId,
        trace b'
        = trace b
          ++ [SellPosted positionId percentage "Stop Loss";
              TokenSold (if isTrailingActive p
                         then "Trailing Stop Loss" else "Stop Loss")
                        profit
                        (remainingAmount p * (price / entryPrice p - 1))
                        tok price])
  /\ (fst sold = false ->
      b' = snd (PositionManager.afterStopLoss cfg svc tok price profit
                  (snd sold))).
Proof.
  intros Hp Hle percentage profit sold b'.
  subst b'. rewrite (updatePosition_unfold cfg svc tok price b p Hp).
  rewrite bind_eq.
  destruct (priceSeen_lookup tok p price b Hp) as (p' & Hp' & Hcase & _).
  rewrite (checkStopLoss_eq svc tok price
             (PositionManager.profitPercentOf p price) _ p' Hp').
  assert (Hsame : currentStopLoss p' = currentStopLoss p
                  /\ totalSold p' = totalSold p
                  /\ remainingAmount p' = remainingAmount p
                  /\ entryPrice p' = entryPrice p
                  /\ isTrailingActive p' = isTrailingActive p).
  { destruct Hcase as [-> | ->]; repeat split. }
  destruct Hsame as (Hsl & Hts & Hra & Hep & Hta).
  rewrite Hsl, Hts, Hra, Hep, Hta.
  apply JS_le_true in Hle. rewrite Hle.
  cbv zeta. fold percentage. fold sold.
  split.
  - intros Hok. rewrite Hok. cbn [fst snd]. unfold ret. cbn [snd].
    destruct sold as [ok b2] eqn:Hsold. cbn [fst snd] in *. subst ok.
    apply executeSell_true in Hsold. destruct Hsold as (positionId & -> & _).
    destruct (priceSeen_set_positions tok p price b) as (f & -> & Hdel).
    cbn. split; [exact Hdel|].
    exists positionId. rewrite <- app_assoc. reflexivity.
  - intros Hfail. rewrite Hfail. cbn [fst snd]. reflexivity.
Qed.

Lemma peaked_lookup :
  positions Sample.peaked !! Sample.gem = Some Sample.peakedPosition.
Proof. vm_compute. reflexivity. Qed.

(** The hypotheses of [stopLoss_short_circuits_when_sold] hold when the
    sample position, whose stop loss trails at 150, sees the price 140 and
    the service executes the sell: the position is gone after the tick. *)
Lemma stopLoss_short_circuits_when_sold_witness :
  positions Sample.peaked !! Sample.gem = Some Sample.peakedPosition
  /\ 140 <= currentStopLoss Sample.peakedPosition
  /\ positions (snd (PositionManager.updatePosition config Sample.accepting
                       Sample.gem 140 Sample.peaked)) !! Sample.gem = None.
Proof.
  assert (Hle : 140 <= currentStopLoss Sample.peakedPosition)
    by (vm_compute; discriminate).
  split; [exact peaked_lookup|]. split; [exact Hle|].
  destruct (stopLoss_short_circuits_when_sold config Sample.accepting
              Sample.gem 140 Sample.peaked Sample.peakedPosition
              peaked_lookup Hle) as [Hsold _].
  destruct (Hsold eq_refl) as [Hgone _].
  rewrite Hgone. apply lookup_delete_eq.
Defined.

(** C1 as stated fails when the stop-loss sell is refused. The price 140
    is below the stop loss 150 of the sample position, the service refuses
    the stop-loss sell and executes the next one: the first take-profit
    level is sold in that same tick and the position stays open. *)
Lemma stopLoss_refused_then_level_sold :
  let b' := snd (PositionManager.updatePosition config Sample.recovering
                   Sample.gem 140 Sample.peaked) in
  positions Sample.peaked !! Sample.gem = Some Sample.peakedPosition
  /\ 140 <= currentStopLoss Sample.peakedPosition
  /\ executedTpLevels Sample.peakedPosition = []
  /\ (exists p', positions b' !! Sample.gem = Some p'
                 /\ executedTpLevels p' = [0%nat] /\ totalSold p' == 15)
  /\ exists pnl pnl_sol,
       drop (length (trace Sample.peaked)) (trace b')
       = [SellPosted 7 (100 - 0) "Stop Loss";
          SellPosted 7 15 "Quick profit lock";
          TokenSold "Take Profit Level 1 (Quick profit lock)" pnl pnl_sol
                    Sample.gem 140].
Proof.
  intros b'. split; [exact peaked_lookup|].
  split; [vm_compute; discriminate|]. split; [reflexivity|]. split.
  - destruct (positions b' !! Sample.gem) as [p'|] eqn:E;
      [|vm_compute in E; discriminate].
    exists p'. split; [reflexivity|].
    vm_compute in E. injection E as <-. split; reflexivity.
  - eexists. eexists. vm_compute. reflexivity.
Qed.

(** ** The take-profit ladder *)

Lemma applyLevels_executed levels new : forall p,
  executedTpLevels (applyLevels levels p new) = executedTpLevels p ++ new.
Proof.
  induction new as [|j new IH]; intros p; simpl.
  - symmetry. apply app_nil_r.
  - rewrite IH. simpl. rewrite <- app_assoc. reflexivity.
Qed.

Lemma applyLevels_frame levels new : forall p,
  let p' := applyLevels levels p new in
  tokenAddress p' = tokenAddress p /\ entryPrice p' = entryPrice p
  /\ entryAmount p' = entryAmount p /\ entryTime p' = entryTime p
  /\ currentStopLoss p' = currentStopLoss p
  /\ isBreakevenMoved p' = isBreakevenMoved p
  /\ isTrailingActive p' = isTrailingActive p
  /\ highestPrice p' = highestPrice p.
Proof.
  induction new as [|j new IH]; intros p; simpl; [repeat split|].
  specialize (IH (with_levelExecuted p j (soldLevel levels j))).
  simpl in IH. exact IH.
Qed.

Lemma applyLevels_remaining levels new : forall p,
  new <> [] ->
  remainingAmount (applyLevels levels p new)
  = entryAmount p * (1 - totalSold (applyLevels levels p new) / 100).
Proof.
  induction new as [|j new IH]; intros p Hne; [congruence|].
  destruct new as [|j' new'].
  - reflexivity.
  - change (applyLevels levels p (j :: j' :: new'))
      with (applyLevels levels (with_levelExecuted p j (soldLevel levels j))
                        (j' :: new')).
    rewrite IH by discriminate. reflexivity.
Qed.

Lemma takeProfitLoop_step svc tok price profit i level rest p b :
  PositionManager.takeProfitLoop svc tok price profit i (level :: rest) p b
  = if bool_decide (i ∈ executedTpLevels p) then
      PositionManager.takeProfitLoop svc tok price profit (S i) rest p b
    else if JS.lt profit (profit_percent level) then
      PositionManager.takeProfitLoop svc tok price profit (S i) rest p b
    else
      let sold :=
        PositionManager.executeSell svc tok (sell_percent level) price
                                    (description level) b in
      if fst sold then
        let p' := with_levelExecuted p i (sell_percent level) in
        let b1 :=
          snd (emit (TokenSold
                       ("Take Profit Level " +:+ pretty (i + 1)%nat +:+ " ("
                          +:+ description level +:+ ")")
                       profit
                       (entryAmount p * (sell_percent level / 100)
                        * (price / entryPrice p - 1))
                       tok price)
                 (set_positions (insert tok p') (snd sold))) in
        if JS.ge (totalSold p') 99.9
        then (tt, set_positions (delete tok) b1)
        else PositionManager.takeProfitLoop svc tok price profit
               (S i) rest p' b1
      else
        PositionManager.takeProfitLoop svc tok price profit (S i) rest p
          (snd (emit (ErrorAlert (TakeProfitFailed (i + 1) tok price
                                    (profit_percent level)))
                     (snd sold))).
Proof.
  cbn [PositionManager.takeProfitLoop].
  destruct (bool_decide _); [reflexivity|].
  destruct (JS.lt _ _); [reflexivity|].
  rewrite bind_eq. cbv zeta.
  destruct (PositionManager.executeSell svc tok _ price _ b) as [[|] b2];
    cbn [fst snd].
  - rewrite !bind_eq. cbn [fst snd].
    destruct (JS.ge _ _); reflexivity.
  - rewrite bind_eq. reflexivity.
Qed.

Lemma ladderPass_shift svc tok price profit levels i p b b' new events :
  ladderPass svc tok price profit levels (S i) p b b' new events ->
  ladderPass svc tok price profit levels i p b b' new events.
Proof.
  intros (T & Qe & R & Tr & Hall & Hnd & Hpos & Hpre).
  repeat split; try assumption.
  eapply Forall_impl; [exact Hall|]. cbn. intros j (Hj & rest).
  split; [lia|exact rest].
Qed.

Lemma takeProfitLoop_pass svc tok price profit levels :
  forall rest i p b,
    (forall k level, rest !! k = Some level ->
                     levels !! (i + k)%nat = Some level) ->
    exists new events,
      let b' := snd (PositionManager.takeProfitLoop svc tok price profit
                       i rest p b) in
      ladderPass svc tok price profit levels i p b b' new events
      /\ (forall k level,
            rest !! k = Some level ->
            (i + k)%nat ∉ executedTpLevels p ->
            profit_percent level <= profit ->
            (i + k)%nat ∈ new
            \/ ErrorAlert (TakeProfitFailed (i + k + 1) tok price
                             (profit_percent level)) ∈ events
            \/ positions b' !! tok = None).
Proof.
  induction rest as [|level rest IH]; intros i p b Hsuffix.
  - exists [], []. cbn. split.
    + repeat split; try lia.
      * symmetry; apply app_nil_r.
      * constructor.
      * apply NoDup_nil_2.
      * left. auto.
      * intros m Hm. cbn in Hm. lia.
    + intros k level Hk. rewrite lookup_nil in Hk. discriminate.
  - assert (Hsuffix' : forall k l, rest !! k = Some l ->
                                   levels !! (S i + k)%nat = Some l).
    { intros k l Hk. replace (S i + k)%nat with (i + S k)%nat by lia.
      apply Hsuffix. exact Hk. }
    assert (Hlevel : levels !! i = Some level).
    { replace i with (i + 0)%nat by lia. apply Hsuffix. reflexivity. }
    rewrite takeProfitLoop_step.
    destruct (bool_decide (i ∈ executedTpLevels p)) eqn:Hdone.
    { (* already executed *)
      destruct (IH (S i) p b Hsuffix') as (new & events & Hpass & Hatt).
      exists new, events. split; [apply ladderPass_shift; exact Hpass|].
      intros [|k] l Hk Hnot Hreach.
      - apply bool_decide_eq_true in Hdone.
        replace (i + 0)%nat with i in Hnot by lia. tauto.
      - replace (i + S k)%nat with (S i + k)%nat in * by lia.
        apply (Hatt k l Hk Hnot Hreach). }
    apply bool_decide_eq_false in Hdone.
    destruct (JS.lt profit (profit_percent level)) eqn:Hprofit.
    { (* not reached *)
      destruct (IH (S i) p b Hsuffix') as (new & events & Hpass & Hatt).
      exists new, events. split; [apply ladderPass_shift; exact Hpass|].
      intros [|k] l Hk Hnot Hreach.
      - apply JS_lt_true in Hprofit. cbn in Hk. injection Hk as <-. lra.
      - replace (i + S k)%nat with (S i + k)%nat in * by lia.
        apply (Hatt k l Hk Hnot Hreach). }
    apply JS_lt_false in Hprofit. cbv zeta.
    destruct (PositionManager.executeSell svc tok (sell_percent level) price
                (description level) b) as [ok b2] eqn:Hsell.
    cbn [fst snd]. destruct ok.
    + (* the sell succeeded *)
      assert (Hsold : fst (PositionManager.executeSell svc tok
                             (sell_percent level) price (description level)
                             b) = true)
        by (rewrite Hsell; reflexivity).
      apply executeSell_true in Hsell.
      destruct Hsell as (positionId & -> & Hok).
      set (p1 := with_levelExecuted p i (sell_percent level)).
      assert (Hp1 : applyLevels levels p [i] = p1).
      { unfold applyLevels, soldLevel. cbn. rewrite Hlevel. reflexivity. }
      destruct (JS.ge (totalSold p1) 99.9) eqn:Hfull.
      * (* fully sold: the position is removed *)
        apply JS_ge_true in Hfull.
        eexists [i], _. cbn [snd]. split.
        -- repeat split; try (cbn; lia).
           ++ cbn. rewrite <- app_assoc. reflexivity.
           ++ constructor; [|constructor].
              split; [lia|]. split; [exact Hdone|].
              exists level. split; [exact Hlevel|]. split; [exact Hprofit|].
              split.
              ** exists positionId. apply list_elem_of_here.
              ** exists b. split; [cbn; lia|]. split; assumption.
           ++ apply NoDup_singleton.
           ++ right. right. split; [discriminate|]. rewrite Hp1.
              split; [exact Hfull|]. cbn. apply delete_insert_eq.
        -- intros k l _ _ _. right. right. cbn. apply lookup_delete_eq.
      * (* the loop goes on with the mutated record *)
        apply JS_ge_false in Hfull.
        match goal with
        | |- context [PositionManager.takeProfitLoop _ _ _ _ _ _ p1 ?s] =>
            set (b1 := s)
        end.
        destruct (IH (S i) p1 b1 Hsuffix') as (new & events & Hpass & Hatt).
        cbv zeta in Hpass, Hatt.
        set (b' := snd (PositionManager.takeProfitLoop svc tok price profit
                          (S i) rest p1 b1)) in *.
        destruct Hpass as (T & Qe & R & Tr & Hall & Hnd & Hpos & Hpre).
        assert (Hin : i ∉ new).
        { intros Hin. rewrite Forall_forall in Hall.
          destruct (Hall i Hin) as (Hlt & _). lia. }
        eexists (i :: new), (_ :: _ :: events). cbv zeta. split.
        -- split; [exact T|]. split; [exact Qe|].
           split; [subst b1; cbn in R; lia|].
           split; [rewrite Tr; subst b1; cbn; rewrite <- !app_assoc;
                   reflexivity|].
           split; [|split; [|split]].
           ++ constructor.
              ** split; [lia|]. split; [exact Hdone|].
                 exists level. split; [exact Hlevel|].
                 split; [exact Hprofit|]. split.
                 --- exists positionId. apply list_elem_of_here.
                 --- exists b. split; [subst b1; cbn in R; lia|].
                     split; assumption.
              ** eapply Forall_impl; [exact Hall|]. unfold soldBy. cbn.
                 intros j (Hj & Hnotin & l & Hl & Hreach & Hposted & Hn).
                 split; [lia|]. split.
                 { intros Hc. apply Hnotin. subst p1. cbn.
                   apply elem_of_app. left. exact Hc. }
                 exists l. split; [exact Hl|]. split; [exact Hreach|].
                 split.
                 --- destruct Hposted as (pid & Hpid). exists pid.
                     do 2 apply list_elem_of_further. exact Hpid.
                 --- destruct Hn as (c & Hc & Hsoldc & Hokc). exists c.
                     split; [subst b1; cbn in Hc; lia|]. split; assumption.
           ++ apply NoDup_cons. split; assumption.
           ++ change (applyLevels levels p (i :: new))
                with (applyLevels levels
                        (with_levelExecuted p i (soldLevel levels i)) new).
              replace (with_levelExecuted p i (soldLevel levels i))
                with p1 by (symmetry; exact Hp1).
              right. destruct Hpos as [(-> & Hpos) | [Hpos | Hpos]].
              ** left. split; [discriminate|]. split; [exact Hfull|].
                 exact Hpos.
              ** left. destruct Hpos as (_ & Hlt & Hpos).
                 split; [discriminate|]. split; [exact Hlt|].
                 rewrite Hpos. subst b1. cbn. apply insert_insert_eq.
              ** right. destruct Hpos as (_ & Hge & Hpos).
                 split; [discriminate|]. split; [exact Hge|].
                 rewrite Hpos. subst b1. cbn. apply delete_insert_eq.
           ++ intros [|m] Hm; [lia|]. cbn in Hm.
              change (take (S m) (i :: new)) with (i :: take m new).
              change (applyLevels levels p (i :: take m new))
                with (applyLevels levels
                        (with_levelExecuted p i (soldLevel levels i))
                        (take m new)).
              replace (with_levelExecuted p i (soldLevel levels i))
                with p1 by (symmetry; exact Hp1).
              destruct m as [|m']; [exact Hfull|].
              apply Hpre. lia.
        -- intros [|k] l Hk Hnot Hreach.
           ++ left. replace (i + 0)%nat with i by lia.
              apply list_elem_of_here.
           ++ replace (i + S k)%nat with (S i + k)%nat in * by lia.
              assert (Hnot1 : (S i + k)%nat ∉ executedTpLevels p1).
              { subst p1. cbn. intros Hc. apply elem_of_app in Hc.
                destruct Hc as [Hc|Hc]; [tauto|].
                apply list_elem_of_singleton in Hc. lia. }
              destruct (Hatt k l Hk Hnot1 Hreach) as [H|[H|H]].
              ** left. apply list_elem_of_further. exact H.
              ** right. left. do 2 apply list_elem_of_further. exact H.
              ** right. right. exact H.
    + (* the sell failed *)
      pose proof (executeSell_onlyTalked svc tok (sell_percent level) price
                    (description level) b) as Htalk.
      rewrite Hsell in Htalk. cbn [snd] in Htalk.
      destruct Htalk as (T2 & Q2 & P2 & R2 & events2 & Tr2).
      match goal with
      | |- context [PositionManager.takeProfitLoop _ _ _ _ _ _ p ?s] =>
          set (b1 := s)
      end.
      destruct (IH (S i) p b1 Hsuffix') as (new & events & Hpass & Hatt).
      cbv zeta in Hpass, Hatt.
      set (b' := snd (PositionManager.takeProfitLoop svc tok price profit
                        (S i) rest p b1)) in *.
      destruct Hpass as (T & Qe & R & Tr & Hall & Hnd & Hpos & Hpre).
      exists new, (events2 ++ ErrorAlert (TakeProfitFailed (i + 1) tok price
                                           (profit_percent level)) :: events).
      cbv zeta. split.
      * split; [rewrite T; exact T2|]. split; [rewrite Qe; exact Q2|].
        split; [subst b1; cbn in R; lia|].
        split; [rewrite Tr; subst b1; cbn; rewrite Tr2, <- !app_assoc;
                reflexivity|].
        split; [|split; [|split]].
        -- eapply Forall_impl; [exact Hall|]. unfold soldBy. cbn.
           intros j (Hj & Hnotin & l & Hl & Hreach & Hposted & Hn).
           split; [lia|]. split; [exact Hnotin|].
           exists l. split; [exact Hl|]. split; [exact Hreach|]. split.
           ++ destruct Hposted as (pid & Hpid). exists pid.
              apply elem_of_app. right. apply list_elem_of_further.
              exact Hpid.
           ++ destruct Hn as (c & Hc & Hsoldc & Hokc). exists c.
              split; [subst b1; cbn in Hc; lia|]. split; assumption.
        -- exact Hnd.
        -- subst b1. cbn in Hpos. rewrite P2 in Hpos. exact Hpos.
        -- exact Hpre.
      * intros [|k] l Hk Hnot Hreach.
        -- right. left. cbn in Hk. injection Hk as <-.
           replace (i + 0 + 1)%nat with (i + 1)%nat by lia.
           apply elem_of_app. right. apply list_elem_of_here.
        -- replace (i + S k)%nat with (S i + k)%nat in * by lia.
           destruct (Hatt k l Hk Hnot Hreach) as [H|[H|H]].
           ++ left. exact H.
           ++ right. left. apply elem_of_app. right.
              apply list_elem_of_further. exact H.
           ++ right. right. exact H.
Qed.

(** ** The steps on the stop loss *)

Lemma told_same b tok p :
  positions b !! tok = Some p -> b = told b tok p [].
Proof.
  intros Hp. unfold told. rewrite insert_id by exact Hp.
  rewrite app_nil_r. destruct b; reflexivity.
Qed.

Lemma told_told b tok p events p' events' :
  told (told b tok p events) tok p' events' = told b tok p' (events ++ events').
Proof.
  unfold told. cbn. rewrite insert_insert_eq, <- app_assoc. reflexivity.
Qed.

Lemma told_lookup b tok p events : positions (told b tok p events) !! tok = Some p.
Proof. cbn. apply lookup_insert_eq. Qed.

Lemma priceSeen_told tok p price b :
  positions b !! tok = Some p ->
  priceSeen tok p price b = told b tok (seenPrice p price) [].
Proof.
  intros Hp. unfold priceSeen, seenPrice, when.
  destruct (JS.gt price (highestPrice p)).
  - cbn. unfold told, set_positions. rewrite app_nil_r. reflexivity.
  - cbn. apply told_same. exact Hp.
Qed.

Lemma checkBreakevenMove_told cfg tok price profit b p :
  positions b !! tok = Some p ->
  exists events,
    snd (PositionManager.checkBreakevenMove cfg tok price profit b)
    = told b tok (breakevenMoved cfg profit p) events.
Proof.
  intros Hp. unfold PositionManager.checkBreakevenMove, breakevenMoved.
  rewrite bind_eq. unfold PositionManager.getPosition. cbn [fst snd].
  rewrite Hp. cbv zeta.
  destruct (isBreakevenMoved p);
    [exists []; apply told_same; exact Hp|].
  destruct (negb _); [exists []; apply told_same; exact Hp|].
  destruct (JS.ge _ _); [|exists []; apply told_same; exact Hp].
  rewrite bind_eq. eexists. reflexivity.
Qed.

Lemma checkTrailingStopActivation_told cfg tok price profit b p :
  positions b !! tok = Some p ->
  exists events,
    snd (PositionManager.checkTrailingStopActivation cfg tok price profit b)
    = told b tok (trailingActivated cfg profit p) events.
Proof.
  intros Hp.
  unfold PositionManager.checkTrailingStopActivation, trailingActivated.
  rewrite bind_eq. unfold PositionManager.getPosition. cbn [fst snd].
  rewrite Hp. cbv zeta.
  destruct (isTrailingActive p);
    [exists []; apply told_same; exact Hp|].
  destruct (negb _); [exists []; apply told_same; exact Hp|].
  destruct (JS.ge _ _); [|exists []; apply told_same; exact Hp].
  rewrite bind_eq. eexists. reflexivity.
Qed.

Lemma updateTrailingStop_told cfg tok price profit b p :
  positions b !! tok = Some p ->
  snd (PositionManager.updateTrailingStop cfg tok price profit b)
  = told b tok (trailingUpdated cfg p) [].
Proof.
  intros Hp. unfold PositionManager.updateTrailingStop, trailingUpdated.
  rewrite bind_eq. unfold PositionManager.getPosition. cbn [fst snd].
  rewrite Hp. cbv zeta.
  destruct (negb _); [apply told_same; exact Hp|].
  destruct (JS.gt _ _); [|apply told_same; exact Hp].
  cbn. unfold told. rewrite app_nil_r. reflexivity.
Qed.

(** The steps between the stop-loss check and the ladder leave the
    process with the record [q] computed by the three functions above. *)
Lemma afterStopLoss_told cfg svc tok price profit b p :
  positions b !! tok = Some p ->
  exists events,
    let q := trailingUpdated cfg
               (trailingActivated cfg profit (breakevenMoved cfg profit p)) in
    snd (PositionManager.afterStopLoss cfg svc tok price profit b)
    = snd (PositionManager.checkTakeProfitGrid cfg svc tok price profit
             (told b tok q events)).
Proof.
  intros Hp. unfold PositionManager.afterStopLoss.
  rewrite !bind_eq.
  destruct (checkBreakevenMove_told cfg tok price profit b p Hp)
    as (e1 & ->).
  destruct (checkTrailingStopActivation_told cfg tok price profit
              _ _ (told_lookup b tok (breakevenMoved cfg profit p) e1))
    as (e2 & ->).
  rewrite told_told.
  rewrite (updateTrailingStop_told cfg tok price profit _ _
             (told_lookup b tok _ (e1 ++ e2))).
  rewrite told_told. eexists. reflexivity.
Qed.

(** ** One tick *)

Lemma soldBy_weaken svc tok price profit ladder q b c c' events events' j :
  soldBy svc tok price profit ladder q c c' events j ->
  (requests b <= requests c)%nat ->
  (forall e, e ∈ events -> e ∈ events') ->
  soldBy svc tok price profit ladder q b c' events' j.
Proof.
  intros (Hnot & level & Hl & Hreach & (pid & Hpid)
          & (d & Hd & Hsold & Hok)) Hle Hsub.
  split; [exact Hnot|]. exists level. split; [exact Hl|].
  split; [exact Hreach|]. split.
  - exists pid. apply Hsub. exact Hpid.
  - exists d. split; [lia|]. split; assumption.
Qed.

(** The steps after the stop-loss check, summed up. *)
Lemma afterStopLoss_pass cfg svc tok price profit c p1 :
  positions c !! tok = Some p1 ->
  let ladder := levels (take_profit_grid (advanced_trading cfg)) in
  let q := trailingUpdated cfg
             (trailingActivated cfg profit (breakevenMoved cfg profit p1)) in
  let c' := snd (PositionManager.afterStopLoss cfg svc tok price profit c) in
  isTrading c' = isTrading c
  /\ tradingQueue c' = tradingQueue c
  /\ (requests c <= requests c')%nat
  /\ (forall other, other <> tok ->
        positions c' !! other = positions c !! other)
  /\ exists events new,
       trace c' = trace c ++ events
       /\ Forall (soldBy svc tok price profit ladder q c c' events) new
       /\ NoDup new
       /\ ((new = [] /\ positions c' !! tok = Some q)
           \/ (new <> [] /\ totalSold (applyLevels ladder q new) < 99.9
               /\ positions c' !! tok = Some (applyLevels ladder q new))
           \/ (new <> [] /\ 99.9 <= totalSold (applyLevels ladder q new)
               /\ positions c' !! tok = None))
       /\ (grid_enabled (take_profit_grid (advanced_trading cfg)) = true ->
           forall k level,
             ladder !! k = Some level ->
             k ∉ executedTpLevels q ->
             profit_percent level <= profit ->
             k ∈ new
             \/ ErrorAlert (TakeProfitFailed (k + 1) tok price
                              (profit_percent level)) ∈ events
             \/ positions c' !! tok = None).
Proof.
  intros Hp1 ladder q c'.
  destruct (afterStopLoss_told cfg svc tok price profit c p1 Hp1)
    as (e & Heq).
  cbv zeta in Heq. fold q in Heq. subst c'. rewrite Heq. clear Heq.
  set (c1 := told c tok q e).
  unfold PositionManager.checkTakeProfitGrid. rewrite bind_eq.
  unfold PositionManager.getPosition. cbn [fst snd].
  replace (positions c1 !! tok) with (Some q)
    by (symmetry; apply told_lookup).
  cbv zeta. fold ladder.
  destruct (grid_enabled (take_profit_grid (advanced_trading cfg))) eqn:Hgrid;
    cbn [negb].
  - (* the ladder is scanned *)
    destruct (takeProfitLoop_pass svc tok price profit ladder ladder 0 q c1)
      as (new & events & Hpass & Hatt).
    { intros k level Hk. exact Hk. }
    cbv zeta in Hpass, Hatt.
    set (c' := snd (PositionManager.takeProfitLoop svc tok price profit 0
                      ladder q c1)) in *.
    destruct Hpass as (T & Qe & R & Tr & Hall & Hnd & Hpos & _).
    split; [exact T|]. split; [exact Qe|]. split; [exact R|].
    assert (Hother : forall other, other <> tok ->
              positions c' !! other = positions c !! other).
    { intros other Hne.
      destruct Hpos as [(_ & ->) | [(_ & _ & ->) | (_ & _ & ->)]]; cbn.
      - apply lookup_insert_ne. congruence.
      - rewrite lookup_insert_ne by congruence.
        apply lookup_insert_ne. congruence.
      - rewrite lookup_delete_ne by congruence.
        apply lookup_insert_ne. congruence. }
    split; [exact Hother|].
    exists (e ++ events), new.
    split; [rewrite Tr; cbn; symmetry; apply app_assoc|].
    split.
    { eapply Forall_impl; [exact Hall|]. cbn. intros j (_ & Hj).
      apply (soldBy_weaken _ _ _ _ _ _ c c1 c' events); [exact Hj|cbn; lia|].
      intros ev Hev. apply elem_of_app. right. exact Hev. }
    split; [exact Hnd|]. split.
    { destruct Hpos as [(Hn & ->) | [(Hn & Hlt & ->) | (Hn & Hge & ->)]].
      - left. split; [exact Hn|]. apply told_lookup.
      - right. left. split; [exact Hn|]. split; [exact Hlt|].
        apply lookup_insert_eq.
      - right. right. split; [exact Hn|]. split; [exact Hge|].
        apply lookup_delete_eq. }
    intros _ k level Hk Hnot Hreach.
    destruct (Hatt k level Hk Hnot Hreach) as [H|[H|H]].
    + left. exact H.
    + right. left. apply elem_of_app. right. exact H.
    + right. right. exact H.
  - (* the ladder is switched off *)
    cbn. split; [reflexivity|]. split; [reflexivity|]. split; [lia|].
    split; [intros other Hne; apply lookup_insert_ne; congruence|].
    exists e, []. split; [reflexivity|]. split; [constructor|].
    split; [apply NoDup_nil_2|]. split.
    + left. split; [reflexivity|]. apply lookup_insert_eq.
    + discriminate.
Qed.

Lemma seenPrice_frame p price :
  currentStopLoss (seenPrice p price) = currentStopLoss p
  /\ totalSold (seenPrice p price) = totalSold p
  /\ executedTpLevels (seenPrice p price) = executedTpLevels p
  /\ isBreakevenMoved (seenPrice p price) = isBreakevenMoved p
  /\ isTrailingActive (seenPrice p price) = isTrailingActive p
  /\ entryPrice (seenPrice p price) = entryPrice p
  /\ entryAmount (seenPrice p price) = entryAmount p
  /\ remainingAmount (seenPrice p price) = remainingAmount p.
Proof. unfold seenPrice. destruct (JS.gt _ _); repeat split. Qed.

Lemma updatePosition_tickDone cfg svc tok price b p :
  positions b !! tok = Some p ->
  tickDone cfg svc tok price p b
    (snd (PositionManager.updatePosition cfg svc tok price b)).
Proof.
  intros Hp. rewrite (updatePosition_unfold cfg svc tok price b p Hp).
  rewrite (priceSeen_told tok p price b Hp).
  set (b0 := told b tok (seenPrice p price) []).
  assert (Hb0 : positions b0 !! tok = Some (seenPrice p price))
    by apply told_lookup.
  rewrite bind_eq.
  rewrite (checkStopLoss_eq svc tok price _ b0 _ Hb0).
  destruct (seenPrice_frame p price) as (Hsl & _).
  rewrite Hsl.
  (* the tick goes on from a process [c] that only talked since [b0] *)
  assert (Hgoes : forall c,
            onlyTalked b0 c ->
            tickDone cfg svc tok price p b
              (snd (PositionManager.afterStopLoss cfg svc tok price
                      (PositionManager.profitPercentOf p price) c))).
  { intros c (T & Qe & P & R & e0 & Tr).
    assert (R0 : (requests b <= requests c)%nat) by exact R.
    assert (Hc : positions c !! tok = Some (seenPrice p price))
      by (rewrite P; exact Hb0).
    pose proof (afterStopLoss_pass cfg svc tok price
                  (PositionManager.profitPercentOf p price) c _ Hc) as H.
    cbv zeta in H.
    set (c' := snd (PositionManager.afterStopLoss cfg svc tok price
                      (PositionManager.profitPercentOf p price) c)) in *.
    destruct H as (T' & Qe' & R' & Hother & events & new & Tr' & Hall
                   & Hnd & Hpos & Hatt).
    split; [rewrite T', T; reflexivity|].
    split; [rewrite Qe', Qe; reflexivity|].
    split; [lia|].
    split.
    { intros other Hne. rewrite (Hother other Hne), P. cbn.
      apply lookup_insert_ne. congruence. }
    exists (e0 ++ events). split.
    { rewrite Tr', Tr. cbn. rewrite app_nil_r. symmetry. apply app_assoc. }
    right. exists new. unfold tickWentOn, beforeLadder. cbv zeta.
    split.
    { eapply Forall_impl; [exact Hall|]. cbn. intros j Hj.
      apply (soldBy_weaken _ _ _ _ _ _ b c c' events); [exact Hj|exact R0|].
      intros ev Hev. apply elem_of_app. right. exact Hev. }
    split; [exact Hnd|]. split; [exact Hpos|].
    intros Hgrid k level Hk Hnot Hreach.
    destruct (Hatt Hgrid k level Hk Hnot Hreach) as [H|[H|H]].
    - left. exact H.
    - right. left. apply elem_of_app. right. exact H.
    - right. right. exact H. }
  destruct (JS.le price (currentStopLoss p)) eqn:Hle.
  - cbv zeta.
    destruct (PositionManager.executeSell svc tok
                (100 - totalSold (seenPrice p price)) price "Stop Loss" b0)
      as [ok b2] eqn:Hsell.
    cbn [fst snd]. destruct ok.
    + (* sold: the position is removed and the tick ends *)
      apply executeSell_true in Hsell. destruct Hsell as (pid & -> & Hok).
      clear Hgoes Hb0. subst b0. unfold tickDone.
      cbn. split; [reflexivity|]. split; [reflexivity|]. split; [lia|].
      split.
      { intros other Hne. rewrite lookup_delete_ne by congruence.
        apply lookup_insert_ne. congruence. }
      eexists. split.
      { rewrite app_nil_r, <- app_assoc. reflexivity. }
      left. split; [apply JS_le_true; exact Hle|].
      split; [apply lookup_delete_eq|].
      exists (S (requests b)). split; [lia|exact Hok].
    + (* refused: the tick goes on *)
      apply Hgoes.
      pose proof (executeSell_onlyTalked svc tok
                    (100 - totalSold (seenPrice p price)) price
                    "Stop Loss" b0) as H.
      rewrite Hsell in H. exact H.
  - cbn [fst snd]. apply Hgoes. apply onlyTalked_refl.
Qed.

(** ** Accounting of the take-profit sales *)


Lemma bought_lookup :
  positions Sample.bought !! Sample.gem = Some Sample.boughtPosition.
Proof. vm_compute. reflexivity. Qed.

(** The scenario of the specification: bought at 1.00 (here 100), the price
    reaches 30% of profit, the level at 30% sells 15%: the level is marked,
    15% counts as sold and 0.85 of the entry amount remains. *)
Example first_level_sold :
  exists p, positions Sample.firstLevelSold !! Sample.gem = Some p
            /\ executedTpLevels p = [0%nat]
            /\ totalSold p == 15
            /\ remainingAmount p == 0.85 * entryAmount p.
Proof.
  destruct (positions Sample.firstLevelSold !! Sample.gem) as [p|] eqn:E;
    [|vm_compute in E; discriminate].
  exists p. split; [reflexivity|].
  vm_compute in E. injection E as <-. repeat split.
Qed.

(** At a profit of 800% the five levels of the repository, which add up to
    100%, are sold in one pass and the position leaves the map. *)
Example all_levels_sold :
  positions (snd (PositionManager.updatePosition config Sample.accepting
                    Sample.gem 900 Sample.bought)) !! Sample.gem = None.
Proof. vm_compute. reflexivity. Qed.

(** ** Reachable states *)

Lemma updatePosition_untracked cfg svc tok price b :
  positions b !! tok = None ->
  PositionManager.updatePosition cfg svc tok price b = (tt, b).
Proof.
  intros Hnone. unfold PositionManager.updatePosition. rewrite bind_eq.
  unfold PositionManager.getPosition. cbn [fst snd]. rewrite Hnone.
  reflexivity.
Qed.

Lemma updatePosition_other cfg svc tok price b other :
  other <> tok ->
  positions (snd (PositionManager.updatePosition cfg svc tok price b)) !! other
  = positions b !! other.
Proof.
  intros Hne. destruct (positions b !! tok) as [p|] eqn:Hp.
  - destruct (updatePosition_tickDone cfg svc tok price b p Hp)
      as (_ & _ & _ & Hother & _).
    apply Hother. exact Hne.
  - rewrite updatePosition_untracked by exact Hp. reflexivity.
Qed.

Lemma breakevenMoved_frame cfg profit p :
  let p' := breakevenMoved cfg profit p in
  executedTpLevels p' = executedTpLevels p /\ totalSold p' = totalSold p
  /\ entryPrice p' = entryPrice p /\ entryAmount p' = entryAmount p
  /\ highestPrice p' = highestPrice p
  /\ isTrailingActive p' = isTrailingActive p.
Proof.
  unfold breakevenMoved. cbv zeta.
  destruct (isBreakevenMoved p); [repeat split|].
  destruct (negb _); [repeat split|].
  destruct (JS.ge _ _); repeat split.
Qed.

Lemma trailingActivated_frame cfg profit p :
  let p' := trailingActivated cfg profit p in
  executedTpLevels p' = executedTpLevels p /\ totalSold p' = totalSold p
  /\ entryPrice p' = entryPrice p /\ entryAmount p' = entryAmount p
  /\ highestPrice p' = highestPrice p
  /\ currentStopLoss p' = currentStopLoss p
  /\ isBreakevenMoved p' = isBreakevenMoved p.
Proof.
  unfold trailingActivated. cbv zeta.
  destruct (isTrailingActive p); [repeat split|].
  destruct (negb _); [repeat split|].
  destruct (JS.ge _ _); repeat split.
Qed.

Lemma trailingUpdated_frame cfg p :
  let p' := trailingUpdated cfg p in
  executedTpLevels p' = executedTpLevels p /\ totalSold p' = totalSold p
  /\ entryPrice p' = entryPrice p /\ entryAmount p' = entryAmount p
  /\ highestPrice p' = highestPrice p
  /\ isTrailingActive p' = isTrailingActive p
  /\ isBreakevenMoved p' = isBreakevenMoved p.
Proof.
  unfold trailingUpdated. cbv zeta.
  destruct (negb _); [repeat split|].
  destruct (JS.gt _ _); repeat split.
Qed.

Lemma beforeLadder_frame cfg p price :
  let q := beforeLadder cfg p price in
  executedTpLevels q = executedTpLevels p /\ totalSold q = totalSold p
  /\ entryPrice q = entryPrice p /\ entryAmount q = entryAmount p.
Proof.
  unfold beforeLadder. cbv zeta.
  set (profit := PositionManager.profitPercentOf p price).
  destruct (seenPrice_frame p price) as (_ & S2 & S3 & _ & _ & S6 & S7 & _).
  destruct (breakevenMoved_frame cfg profit (seenPrice p price))
    as (B1 & B2 & B3 & B4 & _).
  destruct (trailingActivated_frame cfg profit
              (breakevenMoved cfg profit (seenPrice p price)))
    as (A1 & A2 & A3 & A4 & _).
  destruct (trailingUpdated_frame cfg
              (trailingActivated cfg profit
                 (breakevenMoved cfg profit (seenPrice p price))))
    as (U1 & U2 & U3 & U4 & _).
  cbv zeta in *. repeat split; congruence.
Qed.

(** What a tick does to the executed levels of a position it keeps. *)
Lemma updatePosition_executed cfg svc tok price b p p' :
  positions b !! tok = Some p ->
  let b' := snd (PositionManager.updatePosition cfg svc tok price b) in
  positions b' !! tok = Some p' ->
  exists new events,
    trace b' = trace b ++ events
    /\ executedTpLevels p' = executedTpLevels p ++ new
    /\ NoDup new
    /\ Forall (soldBy svc tok price
                 (PositionManager.profitPercentOf p price)
                 (levels (take_profit_grid (advanced_trading cfg)))
                 p b b' events) new.
Proof.
  intros Hp b' Hp'.
  destruct (updatePosition_tickDone cfg svc tok price b p Hp)
    as (_ & _ & _ & _ & events & Tr & Hcase).
  fold b' in Tr, Hcase.
  destruct Hcase as [(_ & Hnone & _) | (new & Hall & Hnd & Hpos & _)];
    [congruence|].
  cbv zeta in Hall, Hpos.
  destruct (beforeLadder_frame cfg p price) as (Hex & _).
  cbv zeta in Hex.
  exists new, events. split; [exact Tr|]. split.
  - destruct Hpos as [(-> & Hq) | [(_ & _ & Hq) | (_ & _ & Hq)]];
      [| |congruence].
    + rewrite Hq in Hp'. injection Hp' as <-.
      rewrite Hex. symmetry. apply app_nil_r.
    + rewrite Hq in Hp'. injection Hp' as <-.
      rewrite applyLevels_executed, Hex. reflexivity.
  - split; [exact Hnd|].
    eapply Forall_impl; [exact Hall|]. cbn.
    intros j (Hnot & rest). split; [rewrite <- Hex; exact Hnot|exact rest].
Qed.

Lemma reachable_executed_NoDup cfg svc b :
  reachable cfg svc b ->
  forall tok p, positions b !! tok = Some p -> NoDup (executedTpLevels p).
Proof.
  induction 1 as [b Hempty | b tok0 price amount now _ IH
                 | b tok0 price _ IH | b b' _ IH Hsame];
    intros tok p Hp.
  - rewrite Hempty, lookup_empty in Hp. discriminate.
  - cbn in Hp. destruct (decide (tok0 = tok)) as [->|Hne].
    + rewrite lookup_insert_eq in Hp. injection Hp as <-. apply NoDup_nil_2.
    + rewrite lookup_insert_ne in Hp by exact Hne. eapply IH. exact Hp.
  - destruct (decide (tok = tok0)) as [->|Hne].
    + destruct (positions b !! tok0) as [p0|] eqn:Hp0.
      * destruct (updatePosition_executed cfg svc tok0 price b p0 p Hp0 Hp)
          as (new & events & _ & Hex & Hnd & Hall).
        rewrite Hex. apply NoDup_app. split; [eapply IH; exact Hp0|].
        split; [|exact Hnd].
        intros j Hin Hnew. rewrite Forall_forall in Hall.
        destruct (Hall j Hnew) as (Hnot & _). tauto.
      * rewrite updatePosition_untracked in Hp by exact Hp0.
        cbn in Hp. congruence.
    + rewrite updatePosition_other in Hp by exact Hne. eapply IH. exact Hp.
  - rewrite Hsame in Hp. eapply IH. exact Hp.
Qed.

(** ** The sample position after its first sale *)

Lemma firstLevelSold_lookup :
  positions Sample.firstLevelSold !! Sample.gem
  = Some Sample.firstLevelSoldPosition.
Proof. vm_compute. reflexivity. Qed.

Lemma firstLevelSold_reachable :
  reachable config Sample.accepting Sample.firstLevelSold.
Proof.
  apply reach_tick, reach_add, reach_start. reflexivity.
Qed.

(** The profit of the sample position goes from 30% down to 10% and back
    to 30%: the first level stays sold once. *)
Example first_level_not_sold_again :
  exists p, positions Sample.oscillated !! Sample.gem = Some p
            /\ executedTpLevels p = [0%nat] /\ totalSold p == 15.
Proof.
  destruct (positions Sample.oscillated !! Sample.gem) as [p|] eqn:E;
    [|vm_compute in E; discriminate].
  exists p. split; [reflexivity|].
  vm_compute in E. injection E as <-. split; reflexivity.
Qed.

(** ** The stop loss never goes down *)

Lemma trailingUpdated_raises cfg p :
  currentStopLoss p <= currentStopLoss (trailingUpdated cfg p).
Proof.
  unfold trailingUpdated. cbv zeta.
  destruct (negb _); [apply Qle_refl|].
  destruct (JS.gt _ _) eqn:E; [|apply Qle_refl].
  apply JS_gt_true in E. cbn. apply Qlt_le_weak. exact E.
Qed.

Lemma trailingUpdated_floor cfg p :
  isTrailingActive p = true ->
  highestPrice p * trailingFactor cfg
  <= currentStopLoss (trailingUpdated cfg p).
Proof.
  intros Hactive. unfold trailingUpdated, trailingFactor. cbv zeta.
  rewrite Hactive. cbn [negb].
  destruct (JS.gt _ _) eqn:E.
  - cbn. apply Qle_refl.
  - apply JS_gt_false in E. exact E.
Qed.

Lemma seenPrice_highest p price :
  highestPrice p <= highestPrice (seenPrice p price).
Proof.
  unfold seenPrice. destruct (JS.gt _ _) eqn:E; [|apply Qle_refl].
  apply JS_gt_true in E. cbn. apply Qlt_le_weak. exact E.
Qed.

Lemma beforeLadder_stopLossInv cfg p price :
  0 <= trailingFactor cfg ->
  stopLossInv cfg p -> stopLossInv cfg (beforeLadder cfg p price).
Proof.
  intros Hk Hinv. unfold beforeLadder. cbv zeta.
  set (profit := PositionManager.profitPercentOf p price).
  assert (H0 : stopLossInv cfg (seenPrice p price)).
  { pose proof (seenPrice_highest p price) as Hh.
    destruct (seenPrice_frame p price)
      as (S1 & _ & _ & S4 & S5 & S6 & _).
    unfold stopLossInv, initialStopLoss in *. rewrite S1, S4, S5, S6.
    intros Hbe. destruct (Hinv Hbe) as [Heq | (Hact & Hle)]; [left; exact Heq|].
    right. split; [exact Hact|].
    apply (Qle_trans _ _ _ Hle). apply Qmult_le_compat_r; assumption. }
  set (q0 := seenPrice p price) in *.
  assert (H1 : stopLossInv cfg (breakevenMoved cfg profit q0)).
  { unfold breakevenMoved. cbv zeta.
    destruct (isBreakevenMoved q0); [exact H0|].
    destruct (negb _); [exact H0|].
    destruct (JS.ge _ _); [|exact H0].
    unfold stopLossInv. cbn. discriminate. }
  set (q1 := breakevenMoved cfg profit q0) in *.
  assert (H2 : stopLossInv cfg (trailingActivated cfg profit q1)).
  { unfold trailingActivated. cbv zeta.
    destruct (isTrailingActive q1) eqn:Hact; [exact H1|].
    destruct (negb _); [exact H1|].
    destruct (JS.ge _ _); [|exact H1].
    unfold stopLossInv, initialStopLoss in *. cbn. intros Hbe.
    destruct (H1 Hbe) as [Heq | (Hact' & _)]; [left; exact Heq|congruence]. }
  set (q2 := trailingActivated cfg profit q1) in *.
  unfold trailingUpdated. cbv zeta.
  destruct (negb (isTrailingActive q2)) eqn:Hact; [exact H2|].
  destruct (JS.gt _ _); [|exact H2].
  unfold stopLossInv. cbn. intros _. right.
  apply negb_false_iff in Hact. split; [exact Hact|].
  unfold trailingFactor. apply Qle_refl.
Qed.

Lemma beforeLadder_not_lower cfg p price :
  0 <= trailingFactor cfg ->
  stopLossInv cfg p ->
  initialStopLoss cfg p < currentStopLoss p ->
  currentStopLoss p <= currentStopLoss (beforeLadder cfg p price).
Proof.
  intros Hk Hinv Habove. unfold beforeLadder. cbv zeta.
  set (profit := PositionManager.profitPercentOf p price).
  set (q0 := seenPrice p price).
  set (q1 := breakevenMoved cfg profit q0).
  set (q2 := trailingActivated cfg profit q1).
  destruct (seenPrice_frame p price) as (S1 & _ & _ & S4 & S5 & _).
  fold q0 in S1, S4, S5.
  destruct (trailingActivated_frame cfg profit q1)
    as (_ & _ & _ & _ & A5 & A6 & _).
  fold q2 in A5, A6. cbv zeta in A5, A6.
  destruct (isBreakevenMoved p) eqn:Hbe.
  - (* the breakeven move is behind: only the trailing stop may act *)
    assert (Hq1 : q1 = q0).
    { unfold q1, breakevenMoved. cbv zeta. rewrite S4. reflexivity. }
    apply (Qle_trans _ (currentStopLoss q2)); [|apply trailingUpdated_raises].
    rewrite A6, Hq1, S1. apply Qle_refl.
  - (* the stop loss was set by the trailing stop *)
    destruct (Hinv Hbe) as [Heq | (Hact & Hle)].
    { rewrite Heq in Habove. apply Qlt_irrefl in Habove. contradiction. }
    assert (Hact2 : isTrailingActive q2 = true).
    { unfold q2, trailingActivated. cbv zeta.
      destruct (breakevenMoved_frame cfg profit q0) as (_ & _ & _ & _ & _ & B6).
      fold q1 in B6. cbv zeta in B6.
      assert (Hq1 : isTrailingActive q1 = true) by congruence.
      rewrite Hq1. exact Hq1. }
    apply (Qle_trans _ (highestPrice q2 * trailingFactor cfg));
      [|apply trailingUpdated_floor; exact Hact2].
    apply (Qle_trans _ _ _ Hle). apply Qmult_le_compat_r; [|exact Hk].
    destruct (breakevenMoved_frame cfg profit q0) as (_ & _ & _ & _ & B5 & _).
    fold q1 in B5. cbv zeta in B5.
    rewrite A5, B5. apply seenPrice_highest.
Qed.

Lemma updatePosition_kept cfg svc tok price b p p' :
  positions b !! tok = Some p ->
  positions (snd (PositionManager.updatePosition cfg svc tok price b)) !! tok
  = Some p' ->
  exists new,
    p' = applyLevels (levels (take_profit_grid (advanced_trading cfg)))
                     (beforeLadder cfg p price) new.
Proof.
  intros Hp Hp'.
  destruct (updatePosition_tickDone cfg svc tok price b p Hp)
    as (_ & _ & _ & _ & events & _ & Hcase).
  destruct Hcase as [(_ & Hnone & _) | (new & _ & _ & Hpos & _)];
    [congruence|].
  cbv zeta in Hpos.
  destruct Hpos as [(-> & Hq) | [(_ & _ & Hq) | (_ & _ & Hq)]];
    [| |congruence].
  - exists []. rewrite Hq in Hp'. injection Hp' as <-. reflexivity.
  - exists new. rewrite Hq in Hp'. injection Hp' as <-. reflexivity.
Qed.

Lemma applyLevels_stopLossInv cfg ladder p new :
  stopLossInv cfg p -> stopLossInv cfg (applyLevels ladder p new).
Proof.
  destruct (applyLevels_frame ladder new p)
    as (_ & F2 & _ & _ & F5 & F6 & F7 & F8).
  cbv zeta in *. unfold stopLossInv, initialStopLoss.
  rewrite F2, F5, F6, F7, F8. tauto.
Qed.

Lemma reachable_stopLossInv cfg svc b :
  0 <= trailingFactor cfg ->
  reachable cfg svc b ->
  forall tok p, positions b !! tok = Some p -> stopLossInv cfg p.
Proof.
  intros Hk. induction 1 as [b Hempty | b tok0 price amount now _ IH
                            | b tok0 price _ IH | b b' _ IH Hsame];
    intros tok p Hp.
  - rewrite Hempty, lookup_empty in Hp. discriminate.
  - cbn in Hp. destruct (decide (tok0 = tok)) as [->|Hne].
    + rewrite lookup_insert_eq in Hp. injection Hp as <-.
      intros _. left. reflexivity.
    + rewrite lookup_insert_ne in Hp by exact Hne. eapply IH. exact Hp.
  - destruct (decide (tok = tok0)) as [->|Hne].
    + destruct (positions b !! tok0) as [p0|] eqn:Hp0.
      * destruct (updatePosition_kept cfg svc tok0 price b p0 p Hp0 Hp)
          as (new & ->).
        apply applyLevels_stopLossInv, beforeLadder_stopLossInv;
          [exact Hk|]. eapply IH. exact Hp0.
      * rewrite updatePosition_untracked in Hp by exact Hp0.
        cbn in Hp. congruence.
    + rewrite updatePosition_other in Hp by exact Hne. eapply IH. exact Hp.
  - rewrite Hsame in Hp. eapply IH. exact Hp.
Qed.

(** One tick does not lower a stop loss that is above the initial one. *)
Lemma updatePosition_stopLoss cfg svc tok price b p p' :
  0 <= trailingFactor cfg ->
  reachable cfg svc b ->
  positions b !! tok = Some p ->
  positions (snd (PositionManager.updatePosition cfg svc tok price b)) !! tok
  = Some p' ->
  initialStopLoss cfg p < currentStopLoss p ->
  currentStopLoss p <= currentStopLoss p'
  /\ initialStopLoss cfg p' = initialStopLoss cfg p.
Proof.
  intros Hk Hreach Hp Hp' Habove.
  destruct (updatePosition_kept cfg svc tok price b p p' Hp Hp')
    as (new & ->).
  destruct (applyLevels_frame
              (levels (take_profit_grid (advanced_trading cfg))) new
              (beforeLadder cfg p price))
    as (_ & F2 & _ & _ & F5 & _).
  destruct (beforeLadder_frame cfg p price) as (_ & _ & E3 & _).
  cbv zeta in *. unfold initialStopLoss. rewrite F2, F5, E3.
  split; [|reflexivity].
  apply beforeLadder_not_lower; [exact Hk| |exact Habove].
  apply (reachable_stopLossInv cfg svc b Hk Hreach tok p Hp).
Qed.

Lemma ticks_cons cfg svc tok price l b :
  snd (PositionManager.ticks cfg svc ((tok, price) :: l) b)
  = snd (PositionManager.ticks cfg svc l
           (snd (PositionManager.updatePosition cfg svc tok price b))).
Proof. cbn [PositionManager.ticks]. rewrite bind_eq. reflexivity. Qed.

Lemma ticks_untracked cfg svc tok l : forall b,
  positions b !! tok = None ->
  positions (snd (PositionManager.ticks cfg svc l b)) !! tok = None.
Proof.
  induction l as [|[t price] l IH]; intros b Hnone; [exact Hnone|].
  rewrite ticks_cons. apply IH.
  destruct (decide (tok = t)) as [->|Hne].
  - rewrite updatePosition_untracked by exact Hnone. exact Hnone.
  - rewrite updatePosition_other by exact Hne. exact Hnone.
Qed.

(** From one tick to a later one. When the trailing distance is at most
    100%, a stop loss that is above its initial value
    [entryPrice * (1 - initial_stop_loss_percent / 100)] is not lower after
    any run of price ticks, on this or on other tokens, than before it.
    What happens to it inside a tick is another matter, see
    [stopLoss_lowered]. *)
Theorem stopLoss_not_lowered_by_ticks
    cfg svc tok (l : list (string * Q)) (b : Bot) (p p' : Position) :
  trailing_distance_percent
    (trailing_stop (risk_management (advanced_trading cfg))) <= 100 ->
  reachable cfg svc b ->
  positions b !! tok = Some p ->
  positions (snd (PositionManager.ticks cfg svc l b)) !! tok = Some p' ->
  initialStopLoss cfg p < currentStopLoss p ->
  currentStopLoss p <= currentStopLoss p'.
Proof.
  intros Hdist. assert (Hk : 0 <= trailingFactor cfg).
  { unfold trailingFactor.
    assert (Hdiv : trailing_distance_percent
                     (trailing_stop (risk_management (advanced_trading cfg)))
                   / 100 <= 1).
    { apply Qle_shift_div_r; [reflexivity|]. lra. }
    lra. }
  clear Hdist. revert b p.
  induction l as [|[t price] l IH]; intros b p Hreach Hp Hp' Habove.
  - cbn in Hp'. rewrite Hp in Hp'. injection Hp' as <-. apply Qle_refl.
  - rewrite ticks_cons in Hp'.
    set (b1 := snd (PositionManager.updatePosition cfg svc t price b)) in *.
    assert (Hreach1 : reachable cfg svc b1) by (apply reach_tick; exact Hreach).
    destruct (decide (tok = t)) as [->|Hne].
    + destruct (positions b1 !! t) as [p1|] eqn:Hp1.
      * destruct (updatePosition_stopLoss cfg svc t price b p p1 Hk Hreach
                    Hp Hp1 Habove) as (Hle & Hinit).
        apply (Qle_trans _ _ _ Hle).
        apply (IH b1 p1 Hreach1 Hp1 Hp'). rewrite Hinit.
        apply (Qlt_le_trans _ _ _ Habove Hle).
      * rewrite (ticks_untracked cfg svc t l b1 Hp1) in Hp'. discriminate.
    + assert (Hp1 : positions b1 !! tok = Some p).
      { unfold b1. rewrite updatePosition_other by exact Hne. exact Hp. }
      apply (IH b1 p Hreach1 Hp1 Hp' Habove).
Qed.

Lemma peaked_reachable : reachable config Sample.recovering Sample.peaked.
Proof. apply reach_tick, reach_add, reach_start. reflexivity. Qed.

(** The hypotheses of [stopLoss_not_lowered_by_ticks] hold for the sample
    position at its peak, whose stop loss 150 is above the initial 40; two
    more ticks, at 180 and at 250, leave the stop loss at 150 or more. *)
Lemma stopLoss_not_lowered_by_ticks_witness :
  trailing_distance_percent
    (trailing_stop (risk_management (advanced_trading config))) <= 100
  /\ reachable config Sample.recovering Sample.peaked
  /\ positions Sample.peaked !! Sample.gem = Some Sample.peakedPosition
  /\ initialStopLoss config Sample.peakedPosition
     < currentStopLoss Sample.peakedPosition
  /\ forall p',
       positions (snd (PositionManager.ticks config Sample.recovering
                         [(Sample.gem, 180); (Sample.gem, 250)]
                         Sample.peaked)) !! Sample.gem = Some p' ->
       currentStopLoss Sample.peakedPosition <= currentStopLoss p'.
Proof.
  assert (Hdist : trailing_distance_percent
                    (trailing_stop (risk_management (advanced_trading config)))
                  <= 100) by (vm_compute; discriminate).
  assert (Habove : initialStopLoss config Sample.peakedPosition
                   < currentStopLoss Sample.peakedPosition)
    by (vm_compute; reflexivity).
  split; [exact Hdist|]. split; [exact peaked_reachable|].
  split; [exact peaked_lookup|]. split; [exact Habove|].
  intros p' Hp'.
  exact (stopLoss_not_lowered_by_ticks config Sample.recovering Sample.gem
           _ Sample.peaked Sample.peakedPosition p' Hdist peaked_reachable
           peaked_lookup Hp' Habove).
Defined.

(** C2. The breakeven move lowers a stop loss that the trailing stop had
    raised: [checkBreakevenMove] assigns
    [entryPrice * (1 + breakeven_offset_percent / 100)] without comparing
    it with the current stop loss, where [updateTrailingStop] assigns a
    new value only if it is higher. With trailing engaged before the
    breakeven move (activation at 10% with a distance of 5%, trigger at
    50% with an offset of 8%), a position bought at 100 has its stop loss
    at 114 after a tick at 120, above the initial 40; on the tick at 160
    the breakeven move takes it down to 108 and notifies that move, and
    the stop loss stays at 108 until the trailing update of that tick
    takes it to 152. *)
Lemma stopLoss_lowered :
  exists p moved after,
    positions (Sample.trailingAt120 Sample.lateBreakeven) !! Sample.gem
    = Some p
    /\ isBreakevenMoved p = false /\ isTrailingActive p = true
    /\ initialStopLoss Sample.lateBreakeven p == 40
    /\ currentStopLoss p == 114
    /\ (let c := snd (PositionManager.checkBreakevenMove Sample.lateBreakeven
                        Sample.gem 160 (PositionManager.profitPercentOf p 160)
                        (priceSeen Sample.gem p 160
                           (Sample.trailingAt120 Sample.lateBreakeven))) in
        positions c !! Sample.gem = Some moved
        /\ trace c
           = trace (Sample.trailingAt120 Sample.lateBreakeven)
             ++ [BreakevenMoved Sample.gem
                   (PositionManager.profitPercentOf p 160) 8])
    /\ currentStopLoss moved == 108
    /\ currentStopLoss moved < currentStopLoss p
    /\ positions
         (snd (PositionManager.updatePosition Sample.lateBreakeven
                 Sample.refusing Sample.gem 160
                 (Sample.trailingAt120 Sample.lateBreakeven)))
       !! Sample.gem = Some after
    /\ currentStopLoss after == 152.
Proof.
  destruct (positions (Sample.trailingAt120 Sample.lateBreakeven)
            !! Sample.gem) as [p|] eqn:E;
    [|vm_compute in E; discriminate].
  exists p.
  assert (Hp : p = {| tokenAddress := Sample.gem; entryPrice := 100;
                      entryAmount := 1; remainingAmount := 1;
                      entryTime := 0;
                      currentStopLoss := 120 * (1 - 5 / 100);
                      isBreakevenMoved := false; isTrailingActive := true;
                      highestPrice := 120; executedTpLevels := [];
                      totalSold := 0 |}).
  { vm_compute in E. injection E as <-. vm_compute. reflexivity. }
  subst p.
  exists {| tokenAddress := Sample.gem; entryPrice := 100;
            entryAmount := 1; remainingAmount := 1; entryTime := 0;
            currentStopLoss := 100 * (1 + 8 / 100);
            isBreakevenMoved := true; isTrailingActive := true;
            highestPrice := 160; executedTpLevels := []; totalSold := 0 |}.
  exists {| tokenAddress := Sample.gem; entryPrice := 100;
            entryAmount := 1; remainingAmount := 1; entryTime := 0;
            currentStopLoss := 160 * (1 - 5 / 100);
            isBreakevenMoved := true; isTrailingActive := true;
            highestPrice := 160; executedTpLevels := []; totalSold := 0 |}.
  split; [reflexivity|]. split; [reflexivity|]. split; [reflexivity|].
  split; [reflexivity|]. split; [reflexivity|].
  split; [split; vm_compute; reflexivity|].
  split; [reflexivity|]. split; [reflexivity|].
  split; [vm_compute; reflexivity|reflexivity].
Qed.

(** With a trailing distance above 100% the stop loss is lower after a
    whole tick: -120 after the tick at 120, above the initial -200, and
    -150 after the tick at 160. *)
Example wide_trailing_lowers_stop_loss :
  exists p after,
    positions (Sample.trailingAt120 Sample.wideTrailing) !! Sample.gem
    = Some p
    /\ initialStopLoss Sample.wideTrailing p == -200
    /\ currentStopLoss p == -120
    /\ positions
         (snd (PositionManager.updatePosition Sample.wideTrailing
                 Sample.refusing Sample.gem 160
                 (Sample.trailingAt120 Sample.wideTrailing)))
       !! Sample.gem = Some after
    /\ currentStopLoss after == -150.
Proof.
  destruct (positions (Sample.trailingAt120 Sample.wideTrailing)
            !! Sample.gem) as [p|] eqn:E;
    [|vm_compute in E; discriminate].
  destruct (positions (snd (PositionManager.updatePosition _ _ _ _ _))
            !! Sample.gem) as [after|] eqn:Ea;
    [|vm_compute in Ea; discriminate].
  exists p, after. split; [reflexivity|].
  vm_compute in E. injection E as <-.
  vm_compute in Ea. injection Ea as <-.
  repeat split.
Qed.

(** ** Sizing of the next buy *)

Lemma spec_clamp_bounds x lo hi :
  lo <= hi -> lo <= spec_clamp x lo hi /\ spec_clamp x lo hi <= hi.
Proof.
  intros Hle. unfold spec_clamp. split.
  - apply Q.le_max_l.
  - apply Q.max_lub; [exact Hle|apply Q.le_min_r].
Qed.

Lemma Math_min_le_r x y : JS.Math_min x y <= y.
Proof. rewrite Math_min_Qmin. apply Q.le_min_r. Qed.

(** C6. A fetch of the balance yields the record computed by [balanceOf]:
    what is available for trading is [max(0, total - reserve)]; in fixed
    mode the buy amount is [min(fixedAmount, available)]; in percentage
    mode it is [available * pct / 100] clamped into [[minAmount,
    maxAmount]] and then cut to [available]. The reserve, the fixed
    amount and the two bounds are the configured values, with the defaults
    0.15, 0.1, 0.01 and 1 in place of a zero. *)
Theorem buy_amount_policy
    cfg (forceRefresh : bool) (now : nat) (lamports : N)
    (s : BalanceManager.State) :
  mustFetch forceRefresh now s = true ->
  let buy := token_buy cfg in
  let reserve := JS.or_default (reserve_sol buy) 0.15 in
  let fixedAmount := JS.or_default (sol_amount buy) 0.1 in
  let minAmount := JS.or_default (min_sol_amount buy) 0.01 in
  let maxAmount := JS.or_default (max_sol_amount buy) 1.0 in
  exists balance,
    fst (BalanceManager.getBalance cfg forceRefresh now (Some lamports) s)
    = Some balance
    /\ BalanceManager.balanceCache
         (snd (BalanceManager.getBalance cfg forceRefresh now
                 (Some lamports) s))
       = Some balance
    /\ BalanceManager.solBalance balance
       = inject_Z (Z.of_N lamports) / BalanceManager.LAMPORTS_PER_SOL
    /\ BalanceManager.reservedAmount balance = reserve
    /\ BalanceManager.availableForTrading balance
       == Qmax 0 (BalanceManager.solBalance balance - reserve)
    /\ (buy_mode buy <> "percentage" ->
        BalanceManager.calculatedBuyAmount balance
        == Qmin fixedAmount (BalanceManager.availableForTrading balance))
    /\ (buy_mode buy = "percentage" ->
        BalanceManager.calculatedBuyAmount balance
        == Qmin (spec_clamp
                   (BalanceManager.availableForTrading balance
                    * balance_percentage buy / 100)
                   minAmount maxAmount)
                (BalanceManager.availableForTrading balance))
    /\ BalanceManager.calculatedBuyAmount balance
       <= BalanceManager.availableForTrading balance.
Proof.
  intros Hfetch. cbv zeta. exists (BalanceManager.balanceOf cfg lamports).
  assert (Hget : BalanceManager.getBalance cfg forceRefresh now
                   (Some lamports) s
                 = (Some (BalanceManager.balanceOf cfg lamports),
                    {| BalanceManager.balanceCache :=
                         Some (BalanceManager.balanceOf cfg lamports);
                       BalanceManager.cacheTimestamp := now |})).
  { unfold BalanceManager.getBalance, mustFetch in *.
    destruct (BalanceManager.balanceCache s); [|reflexivity].
    apply negb_true_iff in Hfetch. rewrite Hfetch. reflexivity. }
  rewrite Hget. cbn [fst snd BalanceManager.balanceCache].
  split; [reflexivity|]. split; [reflexivity|].
  unfold BalanceManager.balanceOf, BalanceManager.calculateBuyAmount.
  destruct (String.eqb_spec (buy_mode (token_buy cfg)) "percentage")
    as [Hmode|Hmode]; cbn.
  - split; [reflexivity|]. split; [reflexivity|].
    split; [apply Math_max_Qmax|]. split; [tauto|]. split.
    + intros _. unfold spec_clamp.
      rewrite Math_min_Qmin, Math_max_Qmax, Math_min_Qmin. reflexivity.
    + apply Math_min_le_r.
  - split; [reflexivity|]. split; [reflexivity|].
    split; [apply Math_max_Qmax|]. split.
    + intros _. apply Math_min_Qmin.
    + split; [tauto|]. apply Math_min_le_r.
Qed.

(** The hypothesis of [buy_amount_policy] holds for the first call of the
    process; with 1.2 SOL in the wallet the repository's settings (8% of
    the balance, between 0.005 and 0.5 SOL, 0.2 SOL kept back) give a buy
    of 0.08 SOL. *)
Lemma buy_amount_policy_witness :
  let s := {| BalanceManager.balanceCache := None;
              BalanceManager.cacheTimestamp := 0 |} in
  mustFetch false 1000 s = true
  /\ exists balance,
       fst (BalanceManager.getBalance config false 1000
              (Some 1200000000%N) s) = Some balance
       /\ BalanceManager.availableForTrading balance == 1
       /\ BalanceManager.calculatedBuyAmount balance == 0.08.
Proof.
  intros s. split; [reflexivity|].
  destruct (buy_amount_policy config false 1000 1200000000%N s eq_refl)
    as (balance & Hget & _ & Hsol & Hres & Havail & _ & Hpct & _).
  exists balance. split; [exact Hget|].
  assert (H1 : BalanceManager.availableForTrading balance == 1).
  { rewrite Havail, Hsol. vm_compute. reflexivity. }
  split; [exact H1|].
  rewrite (Hpct eq_refl). unfold spec_clamp. rewrite H1.
  vm_compute. reflexivity.
Defined.

(** ** Affordability *)

Lemma getBalance_sound cfg forceRefresh now fetched s balance :
  cacheSound cfg s ->
  fst (BalanceManager.getBalance cfg forceRefresh now fetched s)
  = Some balance ->
  exists lamports, balance = BalanceManager.balanceOf cfg lamports.
Proof.
  intros Hsound. unfold BalanceManager.getBalance.
  destruct (BalanceManager.balanceCache s) as [cached|] eqn:Hc.
  - destruct (_ && _).
    + cbn. intros H. injection H as <-. apply Hsound. exact Hc.
    + destruct fetched as [l|]; cbn; [|discriminate].
      intros H. injection H as <-. exists l. reflexivity.
  - destruct fetched as [l|]; cbn; [|discriminate].
    intros H. injection H as <-. exists l. reflexivity.
Qed.

Lemma balanceOf_buy_le_available cfg lamports :
  BalanceManager.calculatedBuyAmount (BalanceManager.balanceOf cfg lamports)
  <= BalanceManager.availableForTrading
       (BalanceManager.balanceOf cfg lamports).
Proof.
  unfold BalanceManager.balanceOf, BalanceManager.calculateBuyAmount.
  destruct (String.eqb _ _); cbn; apply Math_min_le_r.
Qed.

(** C7. When the balance could be obtained, [canAffordTrade] refuses with
    the first of three reasons that applies: the balance is below the
    reserve; the buy amount is zero or less, which is the case whenever
    nothing is available for trading; the buy amount is below the minimum.
    The three texts differ from one another whatever the numbers in them.
    In every other case it accepts. *)
Theorem canAffordTrade_verdict
    cfg (show : Q -> string) (now : nat) (fetched : option N)
    (s : BalanceManager.State) (balance : BalanceManager.BalanceInfo) :
  cacheSound cfg s ->
  fst (BalanceManager.getBalance cfg false now fetched s) = Some balance ->
  let verdict :=
    fst (BalanceManager.canAffordTrade cfg show now fetched s) in
  let total := BalanceManager.solBalance balance in
  let reserve := BalanceManager.reservedAmount balance in
  let amount := BalanceManager.calculatedBuyAmount balance in
  let minAmount := JS.or_default (min_sol_amount (token_buy cfg)) 0.01 in
  let belowReserve :=
    "Insufficient balance (need " +:+ show reserve +:+ " SOL reserve)" in
  let nothingLeft := "Insufficient balance after reserve" in
  let belowMinimum :=
    "Amount below minimum (" +:+ show minAmount +:+ " SOL)" in
  (total < reserve ->
   BalanceManager.canTrade verdict = false
   /\ BalanceManager.reason verdict = Some belowReserve)
  /\ (reserve <= total -> amount <= 0 ->
      BalanceManager.canTrade verdict = false
      /\ BalanceManager.reason verdict = Some nothingLeft)
  /\ (reserve <= total -> 0 < amount -> amount < minAmount ->
      BalanceManager.canTrade verdict = false
      /\ BalanceManager.reason verdict = Some belowMinimum)
  /\ (reserve <= total -> 0 < amount -> minAmount <= amount ->
      BalanceManager.canTrade verdict = true
      /\ BalanceManager.reason verdict = None)
  /\ (BalanceManager.availableForTrading balance == 0 ->
      BalanceManager.canTrade verdict = false)
  /\ belowReserve <> nothingLeft
  /\ belowReserve <> belowMinimum
  /\ nothingLeft <> belowMinimum.
Proof.
  intros Hsound Hget. cbv zeta.
  unfold BalanceManager.canAffordTrade.
  destruct (BalanceManager.getBalance cfg false now fetched s)
    as [got s'] eqn:Hg.
  cbn [fst] in Hget. subst got. cbn [fst].
  unfold BalanceManager.affordable.
  assert (Hzero : BalanceManager.availableForTrading balance == 0 ->
                  BalanceManager.calculatedBuyAmount balance <= 0).
  { intros H0. destruct (getBalance_sound cfg false now fetched s balance
                           Hsound) as (l & ->).
    - rewrite Hg. reflexivity.
    - rewrite <- H0. apply balanceOf_buy_le_available. }
  destruct (JS.lt (BalanceManager.solBalance balance)
                  (BalanceManager.reservedAmount balance)) eqn:H1.
  { apply JS_lt_true in H1. cbn.
    repeat split; try (intros; lra); try discriminate. }
  apply JS_lt_false in H1.
  destruct (JS.le (BalanceManager.calculatedBuyAmount balance) 0) eqn:H2.
  { apply JS_le_true in H2. cbn.
    repeat split; try (intros; lra); try discriminate. }
  apply JS_le_false in H2. cbv zeta.
  destruct (JS.lt (BalanceManager.calculatedBuyAmount balance)
                  (JS.or_default (min_sol_amount (token_buy cfg)) 0.01))
    eqn:H3.
  { apply JS_lt_true in H3. cbn.
    repeat split; try (intros; lra); try discriminate. }
  apply JS_lt_false in H3. cbn.
  repeat split; try (intros; lra); try discriminate.
Qed.

Lemma noBalanceYet_sound cfg : cacheSound cfg Sample.noBalanceYet.
Proof. intros cached H. discriminate. Qed.

(** The hypotheses of [canAffordTrade_verdict] hold before the first fetch.
    With 0.1 SOL in the wallet, below the reserve of 0.2 SOL, the trade is
    refused for that reason; with exactly 0.2 SOL nothing is available and
    the trade is refused. *)
Lemma canAffordTrade_verdict_witness :
  cacheSound config Sample.noBalanceYet
  /\ fst (BalanceManager.getBalance config false 1000 (Some 100000000%N)
            Sample.noBalanceYet)
     = Some (BalanceManager.balanceOf config 100000000%N)
  /\ BalanceManager.reason
       (fst (BalanceManager.canAffordTrade config Sample.noDigits 1000
               (Some 100000000%N) Sample.noBalanceYet))
     = Some "Insufficient balance (need # SOL reserve)"
  /\ BalanceManager.canTrade
       (fst (BalanceManager.canAffordTrade config Sample.noDigits 1000
               (Some 200000000%N) Sample.noBalanceYet))
     = false.
Proof.
  split; [apply noBalanceYet_sound|]. split; [reflexivity|]. split.
  - destruct (canAffordTrade_verdict config Sample.noDigits 1000
                (Some 100000000%N) Sample.noBalanceYet
                (BalanceManager.balanceOf config 100000000%N)
                (noBalanceYet_sound config) eq_refl) as (Hlow & _).
    destruct Hlow as (_ & Hreason); [vm_compute; reflexivity|].
    exact Hreason.
  - destruct (canAffordTrade_verdict config Sample.noDigits 1000
                (Some 200000000%N) Sample.noBalanceYet
                (BalanceManager.balanceOf config 200000000%N)
                (noBalanceYet_sound config) eq_refl)
      as (_ & _ & _ & _ & Hzero & _).
    apply Hzero. vm_compute. reflexivity.
Defined.

(** The four outcomes with the settings of the repository: 0.1 SOL is below
    the reserve, 0.2 SOL leaves nothing, 0.203 SOL leaves 0.003 SOL which
    is below the minimum of 0.005 SOL, 1.2 SOL is enough. *)
Example canAffordTrade_outcomes :
  let verdict lamports :=
    fst (BalanceManager.canAffordTrade config Sample.noDigits 1000
           (Some lamports) Sample.noBalanceYet) in
  BalanceManager.reason (verdict 100000000%N)
  = Some "Insufficient balance (need # SOL reserve)"
  /\ BalanceManager.reason (verdict 200000000%N)
     = Some "Insufficient balance after reserve"
  /\ BalanceManager.reason (verdict 203000000%N)
     = Some "Amount below minimum (# SOL)"
  /\ BalanceManager.canTrade (verdict 1200000000%N) = true.
Proof. cbv zeta. repeat split; vm_compute; reflexivity. Qed.

(** ** Alerts on repeated failures *)

Lemma fetchTokenPrice_failure tok now fetched s :
  isFailure fetched = true ->
  PriceFeed.fetchTokenPrice tok now fetched s
  = (None, PriceFeed.trackFailure tok (failureReason fetched) s).
Proof.
  destruct fetched as [price| |]; cbn; try reflexivity.
  intros H. apply negb_true_iff in H. rewrite H. reflexivity.
Qed.

Lemma fetches_failures tok now answers : forall s c,
  Forall (fun fetched => isFailure fetched = true) answers ->
  default 0%nat (PriceFeed.failureCount s !! tok) = c ->
  exists reason,
    PriceFeed.warnings (PriceFeed.fetches tok now answers s)
    = PriceFeed.warnings s
      ++ (if decide (c < 3 <= c + length answers)%nat
          then [ {| PriceFeed.warned_token := tok;
                    PriceFeed.warned_failures := 3;
                    PriceFeed.warned_reason := reason |} ]
          else []).
Proof.
  induction answers as [|fetched rest IH]; intros s c Hall Hc.
  - exists "". cbn. rewrite decide_False by lia. symmetry. apply app_nil_r.
  - inversion Hall as [|? ? Hfail Hrest]; subst.
    cbn [PriceFeed.fetches]. rewrite (fetchTokenPrice_failure _ _ _ _ Hfail).
    cbn [snd].
    set (s1 := PriceFeed.trackFailure tok (failureReason fetched) s).
    destruct (IH s1 (default 0%nat (PriceFeed.failureCount s !! tok) + 1)%nat
                Hrest) as (reason & Hw).
    { subst s1. cbn. rewrite lookup_insert_eq. reflexivity. }
    rewrite Hw. subst s1. cbn [PriceFeed.warnings PriceFeed.trackFailure].
    set (c := default 0%nat (PriceFeed.failureCount s !! tok)).
    cbn [length].
    destruct (Nat.eqb_spec (c + 1) PriceFeed.MAX_FAILURES_BEFORE_WARNING)
      as [E|E]; unfold PriceFeed.MAX_FAILURES_BEFORE_WARNING in E.
    + exists (failureReason fetched).
      rewrite decide_False by lia. rewrite decide_True by lia.
      rewrite app_nil_r, E. reflexivity.
    + exists reason.
      destruct (decide (c + 1 < 3 <= c + 1 + length rest)%nat).
      * rewrite decide_True by lia. reflexivity.
      * rewrite decide_False by lia. reflexivity.
Qed.


(** * Further properties *)

(** ** The life of a position over price ticks *)

Lemma seenPrice_max p price :
  let h := highestPrice (seenPrice p price) in
  highestPrice p <= h /\ price <= h /\ (h = highestPrice p \/ h = price).
Proof.
  unfold seenPrice. destruct (JS.gt price (highestPrice p)) eqn:Hgt; cbn.
  - apply JS_gt_true in Hgt. repeat split; [lra|lra|right; reflexivity].
  - apply JS_gt_false in Hgt. repeat split; [lra|lra|left; reflexivity].
Qed.

Lemma beforeLadder_kept cfg p price :
  let q := beforeLadder cfg p price in
  tokenAddress q = tokenAddress p /\ entryTime q = entryTime p
  /\ remainingAmount q = remainingAmount p
  /\ highestPrice q = highestPrice (seenPrice p price)
  /\ (isBreakevenMoved p = true -> isBreakevenMoved q = true)
  /\ (isTrailingActive p = true -> isTrailingActive q = true).
Proof.
  cbv zeta.
  unfold beforeLadder, trailingUpdated, trailingActivated, breakevenMoved,
    seenPrice.
  repeat match goal with
         | |- context [if ?c then _ else _] => destruct c eqn:?; cbn
         end;
    repeat split; intros; congruence.
Qed.

(** A position that survives a tick is the record before the ladder with
    some levels sold; if any was sold, the sold share stayed below 99.9. *)
Lemma updatePosition_kept_sold cfg svc tok price b p p' :
  positions b !! tok = Some p ->
  positions (snd (PositionManager.updatePosition cfg svc tok price b)) !! tok
  = Some p' ->
  exists new,
    p' = applyLevels (levels (take_profit_grid (advanced_trading cfg)))
                     (beforeLadder cfg p price) new
    /\ (new <> [] -> totalSold p' < 99.9).
Proof.
  intros Hp Hp'.
  destruct (updatePosition_tickDone cfg svc tok price b p Hp)
    as (_ & _ & _ & _ & events & _ & Hcase).
  destruct Hcase as [(_ & Hnone & _) | (new & _ & _ & Hpos & _)];
    [congruence|].
  cbv zeta in Hpos.
  destruct Hpos as [(-> & Hq) | [(_ & Hlt & Hq) | (_ & _ & Hq)]];
    [| |congruence].
  - exists []. rewrite Hq in Hp'. injection Hp' as <-.
    split; [reflexivity|congruence].
  - exists new. rewrite Hq in Hp'. injection Hp' as <-.
    split; [reflexivity|intros _; exact Hlt].
Qed.

(** What holds between the records of a position before and after each
    tick holds over a run of ticks, on this and on other tokens. *)
Lemma ticks_kept cfg svc (R : Position -> Position -> Prop) :
  (forall p, R p p) ->
  (forall p q r, R p q -> R q r -> R p r) ->
  (forall tok price b p p',
     positions b !! tok = Some p ->
     positions (snd (PositionManager.updatePosition cfg svc tok price b))
       !! tok = Some p' ->
     R p p') ->
  forall l b tok p p',
    positions b !! tok = Some p ->
    positions (snd (PositionManager.ticks cfg svc l b)) !! tok = Some p' ->
    R p p'.
Proof.
  intros Hrefl Htrans Hstep.
  induction l as [|[t price] l IH]; intros b tok p p' Hp Hp'.
  - cbn in Hp'. rewrite Hp in Hp'. injection Hp' as <-. apply Hrefl.
  - rewrite ticks_cons in Hp'.
    set (b1 := snd (PositionManager.updatePosition cfg svc t price b)) in *.
    destruct (decide (tok = t)) as [->|Hne].
    + destruct (positions b1 !! t) as [p1|] eqn:Hp1.
      * apply (Htrans _ p1); [apply (Hstep t price b); assumption|].
        apply (IH b1 t); assumption.
      * rewrite (ticks_untracked cfg svc t l b1 Hp1) in Hp'. discriminate.
    + apply (IH b1 tok); [|exact Hp'].
      unfold b1. rewrite updatePosition_other by exact Hne. exact Hp.
Qed.

(** What [addPosition] establishes and every tick keeps holds of every
    tracked position of a reachable state. *)
Lemma reachable_tracked cfg svc (I : string -> Position -> Prop) :
  (forall b tok price amount now p,
     positions (snd (PositionManager.addPosition cfg tok price amount now b))
       !! tok = Some p -> I tok p) ->
  (forall b tok price p p',
     reachable cfg svc b ->
     positions b !! tok = Some p -> I tok p ->
     positions (snd (PositionManager.updatePosition cfg svc tok price b))
       !! tok = Some p' -> I tok p') ->
  forall b, reachable cfg svc b ->
  forall tok p, positions b !! tok = Some p -> I tok p.
Proof.
  intros Hadd Hstep. induction 1 as [b Hempty | b tok0 price amount now _ IH
                                    | b tok0 price Hb IH | b b' _ IH Hsame];
    intros tok p Hp.
  - rewrite Hempty, lookup_empty in Hp. discriminate.
  - destruct (decide (tok0 = tok)) as [->|Hne].
    + eapply Hadd. exact Hp.
    + cbn in Hp. rewrite lookup_insert_ne in Hp by exact Hne.
      eapply IH. exact Hp.
  - destruct (decide (tok = tok0)) as [->|Hne].
    + destruct (positions b !! tok0) as [p0|] eqn:Hp0.
      * eapply Hstep; [exact Hb|exact Hp0| |exact Hp]. eapply IH. exact Hp0.
      * rewrite updatePosition_untracked in Hp by exact Hp0.
        cbn in Hp. congruence.
    + rewrite updatePosition_other in Hp by exact Hne. eapply IH. exact Hp.
  - rewrite Hsame in Hp. eapply IH. exact Hp.
Qed.

Lemma addPosition_lookup cfg tok price amount now b :
  positions (snd (PositionManager.addPosition cfg tok price amount now b))
    !! tok
  = Some {| tokenAddress := tok; entryPrice := price; entryAmount := amount;
            remainingAmount := amount; entryTime := now;
            currentStopLoss :=
              price * (1 - initial_stop_loss_percent
                             (risk_management (advanced_trading cfg)) / 100);
            isBreakevenMoved := false; isTrailingActive := false;
            highestPrice := price; executedTpLevels := []; totalSold := 0 |}.
Proof. cbn. apply lookup_insert_eq. Qed.

(** X1. The entry data of a position (token, entry price, entry amount,
    entry time) are the same after any run of price ticks that the position
    survives. *)
Theorem ticks_keep_entry_data
    cfg svc (l : list (string * Q)) (b : Bot) tok (p p' : Position) :
  positions b !! tok = Some p ->
  positions (snd (PositionManager.ticks cfg svc l b)) !! tok = Some p' ->
  tokenAddress p' = tokenAddress p /\ entryPrice p' = entryPrice p
  /\ entryAmount p' = entryAmount p /\ entryTime p' = entryTime p.
Proof.
  apply (ticks_kept cfg svc (fun p p' =>
           tokenAddress p' = tokenAddress p /\ entryPrice p' = entryPrice p
           /\ entryAmount p' = entryAmount p /\ entryTime p' = entryTime p)).
  - intros q. repeat split.
  - intros q1 q2 q3 (A1 & A2 & A3 & A4) (B1 & B2 & B3 & B4).
    repeat split; congruence.
  - clear. intros tok price b p p' Hp Hp'.
    destruct (updatePosition_kept_sold cfg svc tok price b p p' Hp Hp')
      as (new & -> & _).
    destruct (applyLevels_frame
                (levels (take_profit_grid (advanced_trading cfg))) new
                (beforeLadder cfg p price))
      as (F1 & F2 & F3 & F4 & _).
    destruct (beforeLadder_frame cfg p price) as (_ & _ & E3 & E4).
    destruct (beforeLadder_kept cfg p price) as (K1 & K2 & _).
    cbv zeta in *. repeat split; congruence.
Qed.

Lemma ticks_keep_entry_data_witness :
  positions Sample.bought !! Sample.gem = Some Sample.boughtPosition
  /\ exists p',
       positions (snd (PositionManager.ticks config Sample.accepting
                         [(Sample.gem, 130); (Sample.gem, 110)]
                         Sample.bought)) !! Sample.gem = Some p'
       /\ entryPrice p' = 100 /\ entryAmount p' = 1.
Proof.
  split; [exact bought_lookup|].
  eexists. split; [vm_compute; reflexivity|].
  pose proof (ticks_keep_entry_data config Sample.accepting
                [(Sample.gem, 130); (Sample.gem, 110)] Sample.bought
                Sample.gem Sample.boughtPosition _ bought_lookup
                ltac:(vm_compute; reflexivity)) as (_ & H2 & H3 & _).
  split; [exact H2|exact H3].
Defined.

(** X2. Over any run of price ticks that a position survives, its highest
    price does not go down, is at least every price observed for its token
    in the run, and is the former highest price or one of those prices. *)
Theorem ticks_highest_price
    cfg svc tok (l : list (string * Q)) :
  forall (b : Bot) (p p' : Position),
    positions b !! tok = Some p ->
    positions (snd (PositionManager.ticks cfg svc l b)) !! tok = Some p' ->
    highestPrice p <= highestPrice p'
    /\ (forall price, (tok, price) ∈ l -> price <= highestPrice p')
    /\ (highestPrice p' = highestPrice p
        \/ exists price, (tok, price) ∈ l /\ highestPrice p' = price).
Proof.
  induction l as [|[t pr] l IH]; intros b p p' Hp Hp'.
  - cbn in Hp'. rewrite Hp in Hp'. injection Hp' as <-.
    split; [apply Qle_refl|]. split; [|left; reflexivity].
    intros price Hin. inversion Hin.
  - rewrite ticks_cons in Hp'.
    set (b1 := snd (PositionManager.updatePosition cfg svc t pr b)) in *.
    destruct (decide (tok = t)) as [<-|Hne].
    + destruct (positions b1 !! tok) as [p1|] eqn:Hp1.
      * destruct (IH b1 p1 p' Hp1 Hp') as (I1 & I2 & I3).
        destruct (updatePosition_kept_sold cfg svc tok pr b p p1 Hp Hp1)
          as (new & Heq & _).
        assert (Hh : highestPrice p1 = highestPrice (seenPrice p pr)).
        { rewrite Heq.
          destruct (applyLevels_frame
                      (levels (take_profit_grid (advanced_trading cfg))) new
                      (beforeLadder cfg p pr)) as (_ & _ & _ & _ & _ & _ & _ & F8).
          destruct (beforeLadder_kept cfg p pr) as (_ & _ & _ & K4 & _).
          cbv zeta in *. congruence. }
        destruct (seenPrice_max p pr) as (M1 & M2 & M3). cbv zeta in *.
        rewrite <- Hh in M1, M2, M3.
        split; [lra|]. split.
        -- intros price Hin. apply elem_of_cons in Hin as [Heq'|Hin].
           ++ injection Heq' as ->. lra.
           ++ apply I2. exact Hin.
        -- destruct I3 as [I3|(price & Hin & I3)].
           ++ destruct M3 as [M3|M3].
              ** left. congruence.
              ** right. exists pr. split; [apply list_elem_of_here|congruence].
           ++ right. exists price.
              split; [apply list_elem_of_further; exact Hin|exact I3].
      * rewrite (ticks_untracked cfg svc tok l b1 Hp1) in Hp'. discriminate.
    + assert (Hp1 : positions b1 !! tok = Some p).
      { unfold b1. rewrite updatePosition_other by exact Hne. exact Hp. }
      destruct (IH b1 p p' Hp1 Hp') as (I1 & I2 & I3).
      split; [exact I1|]. split.
      * intros price Hin. apply elem_of_cons in Hin as [Heq'|Hin].
        -- injection Heq' as Ht _. congruence.
        -- apply I2. exact Hin.
      * destruct I3 as [I3|(price & Hin & I3)]; [left; exact I3|].
        right. exists price.
        split; [apply list_elem_of_further; exact Hin|exact I3].
Qed.

Lemma ticks_highest_price_witness :
  positions Sample.bought !! Sample.gem = Some Sample.boughtPosition
  /\ exists p',
       positions (snd (PositionManager.ticks config Sample.refusing
                         [(Sample.gem, 120); (Sample.gem, 110)]
                         Sample.bought)) !! Sample.gem = Some p'
       /\ 120 <= highestPrice p'.
Proof.
  split; [exact bought_lookup|].
  eexists. split; [vm_compute; reflexivity|].
  pose proof (ticks_highest_price config Sample.refusing Sample.gem
                [(Sample.gem, 120); (Sample.gem, 110)] Sample.bought
                Sample.boughtPosition _ bought_lookup
                ltac:(vm_compute; reflexivity)) as (_ & H2 & _).
  apply H2. apply list_elem_of_here.
Defined.

(** X3. The breakeven flag and the trailing flag of a position are never
    taken back: once set they are set after any run of price ticks that the
    position survives. *)
Theorem ticks_flags_stay_set
    cfg svc (l : list (string * Q)) (b : Bot) tok (p p' : Position) :
  positions b !! tok = Some p ->
  positions (snd (PositionManager.ticks cfg svc l b)) !! tok = Some p' ->
  (isBreakevenMoved p = true -> isBreakevenMoved p' = true)
  /\ (isTrailingActive p = true -> isTrailingActive p' = true).
Proof.
  apply (ticks_kept cfg svc (fun p p' =>
           (isBreakevenMoved p = true -> isBreakevenMoved p' = true)
           /\ (isTrailingActive p = true -> isTrailingActive p' = true))).
  - intros q. split; intros H; exact H.
  - intros q1 q2 q3 (A1 & A2) (B1 & B2). split; auto.
  - clear. intros tok price b p p' Hp Hp'.
    destruct (updatePosition_kept_sold cfg svc tok price b p p' Hp Hp')
      as (new & -> & _).
    destruct (applyLevels_frame
                (levels (take_profit_grid (advanced_trading cfg))) new
                (beforeLadder cfg p price))
      as (_ & _ & _ & _ & _ & F6 & F7 & _).
    destruct (beforeLadder_kept cfg p price) as (_ & _ & _ & _ & K5 & K6).
    cbv zeta in *. rewrite F6, F7. split; assumption.
Qed.

Lemma ticks_flags_stay_set_witness :
  positions Sample.peaked !! Sample.gem = Some Sample.peakedPosition
  /\ isTrailingActive Sample.peakedPosition = true
  /\ exists p',
       positions (snd (PositionManager.ticks config Sample.recovering
                         [(Sample.gem, 160); (Sample.gem, 155)]
                         Sample.peaked)) !! Sample.gem = Some p'
       /\ isTrailingActive p' = true.
Proof.
  split; [exact peaked_lookup|]. split; [reflexivity|].
  eexists. split; [vm_compute; reflexivity|].
  pose proof (ticks_flags_stay_set config Sample.recovering
                [(Sample.gem, 160); (Sample.gem, 155)] Sample.peaked
                Sample.gem Sample.peakedPosition _ peaked_lookup
                ltac:(vm_compute; reflexivity)) as (_ & H2).
  apply H2. reflexivity.
Defined.

Lemma applyLevels_totalSold_ge ladder new :
  Forall (fun level => 0 <= sell_percent level) ladder ->
  forall p, totalSold p <= totalSold (applyLevels ladder p new).
Proof.
  intros Hladder. induction new as [|j new IH]; intros p; [apply Qle_refl|].
  cbn. eapply Qle_trans; [|apply IH]. cbn.
  assert (Hj : 0 <= soldLevel ladder j).
  { unfold soldLevel. destruct (ladder !! j) as [level|] eqn:Hl; cbn.
    - rewrite Forall_forall in Hladder. apply Hladder.
      eapply list_elem_of_lookup_2. exact Hl.
    - apply Qle_refl. }
  lra.
Qed.

(** X4. In every reachable state the sold share of a tracked position is
    below 99.9 and the remaining amount is the entry amount less the sold
    share; when no level of the ladder sells a negative share, the sold
    share is not negative, so that the percentage of a stop-loss sell,
    [100 - totalSold], lies in (0, 100]. *)
Theorem reachable_sold_share
    cfg svc (b : Bot) tok (p : Position) :
  reachable cfg svc b ->
  positions b !! tok = Some p ->
  totalSold p < 99.9
  /\ remainingAmount p == entryAmount p * (1 - totalSold p / 100)
  /\ (sharesNonNegative cfg ->
      0 <= totalSold p /\ 0 < 100 - totalSold p /\ 100 - totalSold p <= 100).
Proof.
  intros Hreach Hp.
  assert (Hinv : totalSold p < 99.9
                 /\ remainingAmount p == entryAmount p * (1 - totalSold p / 100)
                 /\ (sharesNonNegative cfg -> 0 <= totalSold p)).
  { revert b Hreach tok p Hp.
    apply (reachable_tracked cfg svc (fun _ p =>
             totalSold p < 99.9
             /\ remainingAmount p
                == entryAmount p * (1 - totalSold p / 100)
             /\ (sharesNonNegative cfg -> 0 <= totalSold p))).
    - intros b tok price amount now p Hp.
      rewrite addPosition_lookup in Hp. injection Hp as <-. cbn.
      split; [reflexivity|]. split; [field|]. intros _. apply Qle_refl.
    - intros b tok price p p' _ Hp (I1 & I2 & I3) Hp'.
      destruct (updatePosition_kept_sold cfg svc tok price b p p' Hp Hp')
        as (new & Heq & Hlt).
      destruct (beforeLadder_frame cfg p price) as (_ & E2 & _ & E4).
      destruct (beforeLadder_kept cfg p price) as (_ & _ & K3 & _).
      cbv zeta in *.
      split; [|split].
      + destruct new as [|j new]; [|apply Hlt; discriminate].
        rewrite Heq. cbn. rewrite E2. exact I1.
      + destruct new as [|j new].
        * rewrite Heq. cbn. rewrite E2, E4, K3. exact I2.
        * rewrite Heq at 1.
          rewrite applyLevels_remaining by discriminate.
          destruct (applyLevels_frame
                      (levels (take_profit_grid (advanced_trading cfg)))
                      (j :: new) (beforeLadder cfg p price))
            as (_ & _ & F3 & _).
          cbv zeta in F3. rewrite <- Heq in *. rewrite F3. reflexivity.
      + intros Hnn. rewrite Heq.
        eapply Qle_trans;
          [|apply applyLevels_totalSold_ge; exact Hnn].
        rewrite E2. apply I3. exact Hnn. }
  destruct Hinv as (I1 & I2 & I3).
  split; [exact I1|]. split; [exact I2|].
  intros Hnn. specialize (I3 Hnn). repeat split; lra.
Qed.

Lemma config_sharesNonNegative : sharesNonNegative config.
Proof. unfold sharesNonNegative. cbn. repeat constructor; discriminate. Qed.

Lemma reachable_sold_share_witness :
  reachable config Sample.accepting Sample.firstLevelSold
  /\ positions Sample.firstLevelSold !! Sample.gem
     = Some Sample.firstLevelSoldPosition
  /\ sharesNonNegative config
  /\ remainingAmount Sample.firstLevelSoldPosition
     == entryAmount Sample.firstLevelSoldPosition
        * (1 - totalSold Sample.firstLevelSoldPosition / 100)
  /\ 0 < 100 - totalSold Sample.firstLevelSoldPosition.
Proof.
  split; [exact firstLevelSold_reachable|].
  split; [exact firstLevelSold_lookup|].
  split; [exact config_sharesNonNegative|].
  destruct (reachable_sold_share config Sample.accepting Sample.firstLevelSold
              Sample.gem Sample.firstLevelSoldPosition
              firstLevelSold_reachable firstLevelSold_lookup)
    as (_ & H2 & H3).
  split; [exact H2|]. apply (H3 config_sharesNonNegative).
Defined.

(** X5. When no level of the ladder sells a negative share, the sold share
    of a position does not decrease over a run of price ticks that the
    position survives, and the levels recorded as executed stay recorded,
    in the same order. *)
Theorem ticks_sold_share_grows
    cfg svc (l : list (string * Q)) (b : Bot) tok (p p' : Position) :
  sharesNonNegative cfg ->
  positions b !! tok = Some p ->
  positions (snd (PositionManager.ticks cfg svc l b)) !! tok = Some p' ->
  totalSold p <= totalSold p'
  /\ exists new, executedTpLevels p' = executedTpLevels p ++ new.
Proof.
  intros Hnn.
  apply (ticks_kept cfg svc (fun p p' =>
           totalSold p <= totalSold p'
           /\ exists new, executedTpLevels p' = executedTpLevels p ++ new)).
  - intros q. split; [apply Qle_refl|]. exists []. symmetry. apply app_nil_r.
  - intros q1 q2 q3 (A1 & n1 & A2) (B1 & n2 & B2). split; [lra|].
    exists (n1 ++ n2). rewrite B2, A2. symmetry. apply app_assoc.
  - intros tok0 price b0 q q' Hq Hq'.
    destruct (updatePosition_kept_sold cfg svc tok0 price b0 q q' Hq Hq')
      as (new & -> & _).
    destruct (beforeLadder_frame cfg q price) as (E1 & E2 & _).
    cbv zeta in *. split.
    + rewrite <- E2. apply applyLevels_totalSold_ge. exact Hnn.
    + exists new. rewrite applyLevels_executed, E1. reflexivity.
Qed.

Lemma ticks_sold_share_grows_witness :
  sharesNonNegative config
  /\ positions Sample.bought !! Sample.gem = Some Sample.boughtPosition
  /\ exists p',
       positions (snd (PositionManager.ticks config Sample.accepting
                         [(Sample.gem, 130); (Sample.gem, 110)]
                         Sample.bought)) !! Sample.gem = Some p'
       /\ totalSold Sample.boughtPosition <= totalSold p'.
Proof.
  split; [exact config_sharesNonNegative|].
  split; [exact bought_lookup|].
  eexists. split; [vm_compute; reflexivity|].
  apply (ticks_sold_share_grows config Sample.accepting
           [(Sample.gem, 130); (Sample.gem, 110)] Sample.bought
           Sample.gem Sample.boughtPosition _ config_sharesNonNegative
           bought_lookup ltac:(vm_compute; reflexivity)).
Defined.

Lemma beforeLadder_breakeven cfg p price :
  (isBreakevenMoved p = true -> breakevenStop cfg p <= currentStopLoss p) ->
  let q := beforeLadder cfg p price in
  isBreakevenMoved q = true -> breakevenStop cfg q <= currentStopLoss q.
Proof.
  intros Hinv. cbv zeta. unfold beforeLadder.
  set (profit := PositionManager.profitPercentOf p price).
  set (q0 := seenPrice p price).
  set (q1 := breakevenMoved cfg profit q0).
  set (q2 := trailingActivated cfg profit q1).
  intros Hq.
  destruct (seenPrice_frame p price) as (S1 & _ & _ & S4 & _ & S6 & _).
  fold q0 in S1, S4, S6.
  destruct (trailingActivated_frame cfg profit q1)
    as (_ & _ & A3 & _ & _ & A6 & A7).
  fold q2 in A3, A6, A7. cbv zeta in A3, A6, A7.
  destruct (trailingUpdated_frame cfg q2) as (_ & _ & U3 & _ & _ & _ & U7).
  cbv zeta in U3, U7. rewrite U7, A7 in Hq.
  unfold breakevenStop. rewrite U3, A3.
  eapply Qle_trans; [|apply trailingUpdated_raises]. rewrite A6.
  clear - Hinv Hq S1 S4 S6. unfold breakevenStop in Hinv.
  unfold q1, breakevenMoved in *.
  destruct (isBreakevenMoved q0) eqn:Hb0.
  - rewrite S1, S6. apply Hinv. congruence.
  - destruct (negb _); [congruence|].
    destruct (JS.ge _ _); [|congruence]. cbn. apply Qle_refl.
Qed.

(** X6. In every reachable state, a tracked position whose breakeven move
    has happened has its stop loss at or above the breakeven price,
    [entryPrice * (1 + breakeven_offset_percent / 100)]. *)
Theorem reachable_breakeven_floor
    cfg svc (b : Bot) tok (p : Position) :
  reachable cfg svc b ->
  positions b !! tok = Some p ->
  isBreakevenMoved p = true ->
  breakevenStop cfg p <= currentStopLoss p.
Proof.
  intros Hreach Hp. revert b Hreach tok p Hp.
  apply (reachable_tracked cfg svc (fun _ p =>
           isBreakevenMoved p = true ->
           breakevenStop cfg p <= currentStopLoss p)).
  - intros b tok price amount now p Hp.
    rewrite addPosition_lookup in Hp. injection Hp as <-. cbn. discriminate.
  - intros b tok price p p' _ Hp Hinv Hp'.
    destruct (updatePosition_kept_sold cfg svc tok price b p p' Hp Hp')
      as (new & -> & _).
    destruct (applyLevels_frame
                (levels (take_profit_grid (advanced_trading cfg))) new
                (beforeLadder cfg p price))
      as (_ & F2 & _ & _ & F5 & F6 & _).
    cbv zeta in *. unfold breakevenStop. rewrite F2, F5, F6.
    apply (beforeLadder_breakeven cfg p price Hinv).
Qed.

Lemma reachable_breakeven_floor_witness :
  reachable config Sample.accepting Sample.firstLevelSold
  /\ positions Sample.firstLevelSold !! Sample.gem
     = Some Sample.firstLevelSoldPosition
  /\ isBreakevenMoved Sample.firstLevelSoldPosition = true
  /\ breakevenStop config Sample.firstLevelSoldPosition
     <= currentStopLoss Sample.firstLevelSoldPosition.
Proof.
  split; [exact firstLevelSold_reachable|].
  split; [exact firstLevelSold_lookup|].
  split; [reflexivity|].
  apply (reachable_breakeven_floor config Sample.accepting
           Sample.firstLevelSold Sample.gem Sample.firstLevelSoldPosition
           firstLevelSold_reachable firstLevelSold_lookup).
  reflexivity.
Defined.

(** X7. In every reachable state, a tracked position whose trailing stop
    is active has its stop loss at or above the trailing price of its
    highest price, [highestPrice * (1 - trailing_distance_percent / 100)]. *)
Theorem reachable_trailing_floor
    cfg svc (b : Bot) tok (p : Position) :
  reachable cfg svc b ->
  positions b !! tok = Some p ->
  isTrailingActive p = true ->
  highestPrice p * trailingFactor cfg <= currentStopLoss p.
Proof.
  intros Hreach Hp. revert b Hreach tok p Hp.
  apply (reachable_tracked cfg svc (fun _ p =>
           isTrailingActive p = true ->
           highestPrice p * trailingFactor cfg <= currentStopLoss p)).
  - intros b tok price amount now p Hp.
    rewrite addPosition_lookup in Hp. injection Hp as <-. cbn. discriminate.
  - intros b tok price p p' _ Hp _ Hp'.
    destruct (updatePosition_kept_sold cfg svc tok price b p p' Hp Hp')
      as (new & -> & _).
    destruct (applyLevels_frame
                (levels (take_profit_grid (advanced_trading cfg))) new
                (beforeLadder cfg p price))
      as (_ & _ & _ & _ & F5 & _ & F7 & F8).
    cbv zeta in *. rewrite F5, F7, F8. unfold beforeLadder.
    set (q2 := trailingActivated cfg _ _).
    destruct (trailingUpdated_frame cfg q2) as (_ & _ & _ & _ & U5 & U6 & _).
    cbv zeta in U5, U6. rewrite U5, U6.
    apply trailingUpdated_floor.
Qed.

Lemma reachable_trailing_floor_witness :
  reachable config Sample.recovering Sample.peaked
  /\ positions Sample.peaked !! Sample.gem = Some Sample.peakedPosition
  /\ isTrailingActive Sample.peakedPosition = true
  /\ highestPrice Sample.peakedPosition * trailingFactor config
     <= currentStopLoss Sample.peakedPosition.
Proof.
  split; [exact peaked_reachable|].
  split; [exact peaked_lookup|].
  split; [reflexivity|].
  apply (reachable_trailing_floor config Sample.recovering Sample.peaked
           Sample.gem Sample.peakedPosition peaked_reachable peaked_lookup).
  reflexivity.
Defined.

(** X8. Price ticks never register a position and touch only the tokens
    they are about: a tick for an untracked token changes nothing (no
    request, no event), a token that is tracked after a run of ticks was
    tracked before it, and the record of a token that the run does not
    mention is the same after it. *)
Theorem ticks_touch_only_their_tokens
    cfg svc tok (l : list (string * Q)) (b : Bot) :
  (forall price,
     positions b !! tok = None ->
     PositionManager.updatePosition cfg svc tok price b = (tt, b))
  /\ (forall p',
        positions (snd (PositionManager.ticks cfg svc l b)) !! tok = Some p' ->
        exists p, positions b !! tok = Some p)
  /\ ((forall price, (tok, price) ∉ l) ->
      positions (snd (PositionManager.ticks cfg svc l b)) !! tok
      = positions b !! tok).
Proof.
  split; [|split].
  - intros price Hnone. apply updatePosition_untracked. exact Hnone.
  - intros p' Hp'. destruct (positions b !! tok) as [p|] eqn:Hp;
      [exists p; reflexivity|].
    rewrite (ticks_untracked cfg svc tok l b Hp) in Hp'. discriminate.
  - revert b. induction l as [|[t price] l IH]; intros b Hnot; [reflexivity|].
    rewrite ticks_cons. rewrite IH.
    + apply updatePosition_other. intros ->.
      apply (Hnot price). apply list_elem_of_here.
    + intros price' Hin. apply (Hnot price').
      apply list_elem_of_further. exact Hin.
Qed.

(** ** What the process sends to the execution service *)

Lemma sends_refl P b : sends P b b.
Proof. exists []. split; [symmetry; apply app_nil_r|constructor]. Qed.

Lemma sends_trans P b1 b2 b3 : sends P b1 b2 -> sends P b2 b3 -> sends P b1 b3.
Proof.
  intros (e1 & H1 & F1) (e2 & H2 & F2). exists (e1 ++ e2).
  split; [rewrite H2, H1; symmetry; apply app_assoc|].
  apply Forall_app; split; assumption.
Qed.

Lemma quiet_ret {A} P (a : A) : quiet P (ret a).
Proof. intros b. apply sends_refl. Qed.

Lemma quiet_bind {A B} P (m : M A) (k : A -> M B) :
  quiet P m -> (forall a, quiet P (k a)) -> quiet P (bind m k).
Proof.
  intros Hm Hk b. rewrite bind_eq.
  eapply sends_trans; [apply Hm|apply Hk].
Qed.

Lemma quiet_silent {A} P (m : M A) :
  (forall b, trace (snd (m b)) = trace b) -> quiet P m.
Proof.
  intros H b. exists []. split; [rewrite app_nil_r; apply H|constructor].
Qed.

Lemma quiet_emit P e : P e -> quiet P (emit e).
Proof.
  intros He b. exists [e]. split; [reflexivity|].
  constructor; [exact He|constructor].
Qed.

(** One step through a computation; [Hreport] says that [P] holds of the
    reports. *)
Ltac quiet_step Hreport :=
  lazymatch goal with
  | |- quiet _ (bind _ _) => apply quiet_bind; [|intros ?]
  | |- quiet _ (ret _) => apply quiet_ret
  | |- quiet _ (when ?c _) => unfold when; destruct c eqn:?
  | |- quiet _ (emit _) => apply quiet_emit; apply Hreport; reflexivity
  | |- quiet _ (PositionManager.storePosition _ _) =>
      apply quiet_silent; reflexivity
  | |- quiet _ (PositionManager.removePosition _) =>
      apply quiet_silent; reflexivity
  | |- quiet _ (PositionManager.getPosition _) =>
      apply quiet_silent; reflexivity
  | |- quiet _ (Sniperoo.request _) => apply quiet_silent; reflexivity
  | |- quiet _ (if ?c then _ else _) => destruct c eqn:?
  | |- quiet _ (match ?x with _ => _ end) => destruct x eqn:?
  end.

Section Quiet.
Variable P : Event -> Prop.
Hypothesis P_order :
  forall positionId percentage reason,
    positionId <> 0%nat -> 0 < percentage -> percentage <= 100 ->
    P (SellPosted positionId percentage reason).
Hypothesis P_report : forall e, isReport e = true -> P e.

Lemma getWalletHoldings_quiet svc : quiet P (Sniperoo.getWalletHoldings svc).
Proof using All. unfold Sniperoo.getWalletHoldings. repeat quiet_step P_report. Qed.

Lemma sellToken_quiet svc order : quiet P (Sniperoo.sellToken svc order).
Proof using All.
  unfold Sniperoo.sellToken.
  destruct (Nat.eqb (Sniperoo.order_positionId order) 0
            || JS.le (Sniperoo.percentage order) 0
            || JS.gt (Sniperoo.percentage order) 100) eqn:Hbad;
    [apply quiet_ret|].
  apply orb_false_elim in Hbad as (Hbad & Hgt).
  apply orb_false_elim in Hbad as (Hid & Hle).
  apply Nat.eqb_neq in Hid. apply JS_le_false in Hle. apply JS_gt_false in Hgt.
  apply quiet_bind; [apply quiet_emit; apply P_order; assumption|intros _].
  repeat quiet_step P_report.
Qed.

Lemma sellEach_quiet svc l : quiet P (Sniperoo.sellEach svc l).
Proof using All.
  induction l as [|pos l IH]; cbn [Sniperoo.sellEach]; [apply quiet_ret|].
  apply quiet_bind; [apply sellToken_quiet|intros ?].
  apply quiet_bind; [exact IH|intros ?]. apply quiet_ret.
Qed.

Lemma emergencySellAll_quiet svc : quiet P (Sniperoo.emergencySellAll svc).
Proof using All.
  unfold Sniperoo.emergencySellAll.
  apply quiet_bind; [apply getWalletHoldings_quiet|intros [[|pos l]|]];
    try apply quiet_ret.
  apply quiet_bind; [apply sellEach_quiet|intros ?]. apply quiet_ret.
Qed.

Lemma executeSell_quiet svc tok pct price reason :
  quiet P (PositionManager.executeSell svc tok pct price reason).
Proof using All.
  unfold PositionManager.executeSell.
  apply quiet_bind; [apply getWalletHoldings_quiet|intros [[|pos l]|]];
    try apply quiet_ret.
  destruct (List.find _ _); [|apply quiet_ret].
  apply quiet_bind; [apply sellToken_quiet|intros ?]. apply quiet_ret.
Qed.

Lemma checkStopLoss_quiet svc tok price profit :
  quiet P (PositionManager.checkStopLoss svc tok price profit).
Proof using All.
  unfold PositionManager.checkStopLoss. cbv zeta.
  apply quiet_bind; [quiet_step P_report|intros [p|]]; [|apply quiet_ret].
  destruct (JS.le _ _); [|apply quiet_ret].
  apply quiet_bind; [apply executeSell_quiet|intros [|]];
    repeat quiet_step P_report.
Qed.

Lemma stopSteps_quiet cfg tok price profit :
  quiet P (PositionManager.checkBreakevenMove cfg tok price profit)
  /\ quiet P (PositionManager.checkTrailingStopActivation cfg tok price profit)
  /\ quiet P (PositionManager.updateTrailingStop cfg tok price profit).
Proof using All.
  split; [|split].
  - unfold PositionManager.checkBreakevenMove. cbv zeta.
    repeat quiet_step P_report.
  - unfold PositionManager.checkTrailingStopActivation. cbv zeta.
    repeat quiet_step P_report.
  - unfold PositionManager.updateTrailingStop. cbv zeta.
    repeat quiet_step P_report.
Qed.

(** A tick is quiet when its pass over the ladder is. *)
Lemma updatePosition_quiet cfg svc tok price :
  (forall profit p,
     quiet P (PositionManager.takeProfitLoop svc tok price profit 0
                (levels (take_profit_grid (advanced_trading cfg))) p)) ->
  quiet P (PositionManager.updatePosition cfg svc tok price).
Proof using All.
  intros Hloop. unfold PositionManager.updatePosition. cbv zeta.
  apply quiet_bind; [quiet_step P_report|intros [p|]]; [|apply quiet_ret].
  apply quiet_bind; [repeat quiet_step P_report|intros _].
  apply quiet_bind; [apply checkStopLoss_quiet|intros [|]];
    [apply quiet_ret|].
  unfold PositionManager.afterStopLoss.
  destruct (stopSteps_quiet cfg tok price
              (PositionManager.profitPercentOf p price)) as (S1 & S2 & S3).
  apply quiet_bind; [exact S1|intros _].
  apply quiet_bind; [exact S2|intros _].
  apply quiet_bind; [exact S3|intros _].
  unfold PositionManager.checkTakeProfitGrid. cbv zeta.
  apply quiet_bind; [quiet_step P_report|intros [q|]]; [|apply quiet_ret].
  destruct (negb _); [apply quiet_ret|apply Hloop].
Qed.

End Quiet.

Lemma validOrder_report e : isReport e = true -> validOrder e.
Proof. destruct e; cbn; try discriminate; intros _; exact I. Qed.

Lemma validOrder_order positionId percentage reason :
  positionId <> 0%nat -> 0 < percentage -> percentage <= 100 ->
  validOrder (SellPosted positionId percentage reason).
Proof. cbn. auto. Qed.

Lemma takeProfitLoop_polite svc tok price profit :
  forall rest i p,
    quiet validOrder
      (PositionManager.takeProfitLoop svc tok price profit i rest p).
Proof.
  induction rest as [|level rest IH]; intros i p;
    cbn [PositionManager.takeProfitLoop]; [apply quiet_ret|].
  destruct (bool_decide _); [apply IH|].
  destruct (JS.lt _ _); [apply IH|].
  apply quiet_bind;
    [apply (executeSell_quiet validOrder validOrder_order validOrder_report)
    |intros [|]]; cbv zeta.
  - apply quiet_bind; [quiet_step validOrder_report|intros _].
    apply quiet_bind; [quiet_step validOrder_report|intros _].
    destruct (JS.ge _ _); [quiet_step validOrder_report|apply IH].
  - apply quiet_bind; [apply quiet_emit; exact I|intros _]. apply IH.
Qed.

Lemma updatePosition_polite cfg svc tok price :
  quiet validOrder (PositionManager.updatePosition cfg svc tok price).
Proof.
  apply (updatePosition_quiet validOrder validOrder_order validOrder_report).
  intros profit p. apply takeProfitLoop_polite.
Qed.

Lemma executeTrade_enter_frame tok b :
  let b' := snd (TradingEngine.executeTrade_enter tok b) in
  positions b' = positions b /\ requests b' = requests b
  /\ trace b' = trace b.
Proof.
  unfold TradingEngine.executeTrade_enter.
  destruct (isTrading b); [destruct (Nat.ltb _ _)|]; cbn; auto.
Qed.

Lemma processQueue_frame b :
  let b' := snd (TradingEngine.processQueue b) in
  positions b' = positions b /\ requests b' = requests b
  /\ trace b' = trace b.
Proof.
  unfold TradingEngine.processQueue.
  destruct (Nat.eqb _ _ || isTrading b); [cbn; auto|].
  destruct (tradingQueue b) as [|next rest]; [cbn; auto|].
  destruct (JS.truthy next); [|cbn; auto].
  pose proof (executeTrade_enter_frame next
                (set_engine (isTrading b) rest b)) as H.
  cbv zeta in H.
  destruct (TradingEngine.executeTrade_enter next _) as [e b'']. exact H.
Qed.

Lemma executeTrade_complete_polite cfg tok outcome now :
  quiet validOrder (TradingEngine.executeTrade_complete cfg tok outcome now).
Proof.
  unfold TradingEngine.executeTrade_complete.
  apply quiet_bind.
  - destruct outcome.
    + apply quiet_bind; [apply quiet_emit; exact I|intros _].
      apply quiet_ret.
    + apply quiet_ret.
    + apply quiet_ret.
    + apply quiet_bind; [|intros _; apply quiet_ret].
      unfold when. destruct (_ && _); [|apply quiet_ret].
      apply quiet_silent. reflexivity.
  - intros result. apply quiet_bind; [|intros ?; apply quiet_ret].
    unfold TradingEngine.executeTrade_finally.
    apply quiet_bind; [apply quiet_silent; reflexivity|intros _].
    apply quiet_silent. intros b. apply processQueue_frame.
Qed.

Lemma emergencyStop_polite svc :
  quiet validOrder (TradingEngine.emergencyStop svc).
Proof.
  unfold TradingEngine.emergencyStop.
  apply quiet_bind; [apply quiet_silent; reflexivity|intros _].
  apply quiet_bind;
    [apply (emergencySellAll_quiet validOrder validOrder_order
              validOrder_report)|intros _].
  apply quiet_emit. exact I.
Qed.

(** X9. Whatever the process does (price ticks, trades requested and
    finished, emergency stops, clearing of the queue), every sell order it
    posts to the execution service names a position id other than 0 and a
    percentage in (0, 100]. *)
Theorem only_valid_sell_orders_posted
    cfg svc (l : list Action) (b : Bot) :
  exists events,
    trace (acts cfg svc l b) = trace b ++ events
    /\ forall positionId percentage reason,
         SellPosted positionId percentage reason ∈ events ->
         positionId <> 0%nat /\ 0 < percentage /\ percentage <= 100.
Proof.
  assert (H : sends validOrder b (acts cfg svc l b)).
  { revert b. induction l as [|a l IH]; intros b; [apply sends_refl|].
    cbn [acts fold_left]. eapply sends_trans; [|apply IH].
    destruct a; cbn [act].
    - apply updatePosition_polite.
    - exists []. split; [|constructor]. rewrite app_nil_r.
      apply executeTrade_enter_frame.
    - apply executeTrade_complete_polite.
    - apply emergencyStop_polite.
    - exists []. split; [symmetry; apply app_nil_r|constructor]. }
  destruct H as (events & Htrace & Hall). exists events.
  split; [exact Htrace|]. intros positionId percentage reason Hin.
  rewrite Forall_forall in Hall. apply (Hall _ Hin).
Qed.

(** ** The queue of the trading engine *)

Lemma updatePosition_engine cfg svc tok price b :
  let b' := snd (PositionManager.updatePosition cfg svc tok price b) in
  isTrading b' = isTrading b /\ tradingQueue b' = tradingQueue b.
Proof.
  cbv zeta. destruct (positions b !! tok) as [p|] eqn:Hp.
  - destruct (updatePosition_tickDone cfg svc tok price b p Hp)
      as (H1 & H2 & _). split; assumption.
  - rewrite updatePosition_untracked by exact Hp. split; reflexivity.
Qed.

Lemma emergencyStop_engine svc b :
  let b' := snd (TradingEngine.emergencyStop svc b) in
  isTrading b' = false /\ tradingQueue b' = [].
Proof.
  cbv zeta. unfold TradingEngine.emergencyStop.
  rewrite bind_eq. cbn [fst snd]. rewrite bind_eq.
  set (b1 := set_engine false [] b).
  destruct (emergencySellAll_onlyTalked svc b1) as (H1 & H2 & _).
  destruct (emit_onlyTalked (ErrorAlert EmergencyStopExecuted)
              (snd (Sniperoo.emergencySellAll svc b1))) as (E1 & E2 & _).
  split; [rewrite E1, H1|rewrite E2, H2]; reflexivity.
Qed.

Lemma truthy_nonempty s : JS.truthy s = true <-> s <> EmptyString.
Proof. destruct s; cbn; split; congruence. Qed.

(** The state in which [executeTrade] ends, and the queued token whose
    trade its [finally] block started. *)
Lemma executeTrade_complete_end cfg tok outcome now b :
  let r := TradingEngine.executeTrade_complete cfg tok outcome now b in
  tradingQueue (snd r) = tl (tradingQueue b)
  /\ snd (fst r)
     = match tradingQueue b with
       | queued :: _ => if JS.truthy queued then Some queued else None
       | [] => None
       end
  /\ isTrading (snd r) = bool_decide (is_Some (snd (fst r)))
  /\ requests (snd r) = requests b
  /\ positions (snd r)
     = match outcome with
       | TradingEngine.Purchased buyAmount price =>
           if advanced_enabled (advanced_trading cfg) && JS.gt price 0
           then <[tok := freshPosition cfg tok price buyAmount now]>
                  (positions b)
           else positions b
       | _ => positions b
       end.
Proof.
  cbv zeta. unfold TradingEngine.executeTrade_complete.
  rewrite bind_eq.
  set (first := match outcome with
                | TradingEngine.Threw _ => _ | _ => _ end).
  assert (Hfirst : isTrading (snd (first b)) = isTrading b
                   /\ tradingQueue (snd (first b)) = tradingQueue b
                   /\ requests (snd (first b)) = requests b
                   /\ positions (snd (first b))
                      = match outcome with
                        | TradingEngine.Purchased buyAmount price =>
                            if advanced_enabled (advanced_trading cfg)
                               && JS.gt price 0
                            then <[tok := freshPosition cfg tok price
                                            buyAmount now]> (positions b)
                            else positions b
                        | _ => positions b
                        end).
  { subst first. destruct outcome as [msg|reason|amt|amt price];
      try (cbn; repeat split; reflexivity).
    rewrite bind_eq. unfold ret. cbn [snd]. unfold when.
    destruct (advanced_enabled (advanced_trading cfg) && JS.gt price 0);
      cbn; repeat split; reflexivity. }
  destruct Hfirst as (F1 & F2 & F3 & F4).
  set (b1 := snd (first b)) in *. rewrite bind_eq. unfold ret. cbn [fst snd].
  unfold TradingEngine.executeTrade_finally. rewrite bind_eq. cbn [fst snd].
  unfold TradingEngine.processQueue. cbn [isTrading tradingQueue set_engine].
  rewrite orb_false_r. rewrite F2.
  destruct (tradingQueue b) as [|queued rest]; cbn [length Nat.eqb tl].
  - cbn. repeat split; assumption.
  - unfold TradingEngine.executeTrade_enter. cbn [isTrading set_engine].
    destruct (JS.truthy queued); cbn; repeat split; assumption.
Qed.

(** X10. The queue of the trading engine never holds more than five
    tokens, and fewer than five whenever no trade is running, whatever the
    process does; so the readiness that [getStatus] reports is just that no
    trade is running, and a call of [executeTrade] made when it reports
    readiness starts its trade. *)
Theorem queue_stays_bounded
    cfg svc (l : list Action) (b : Bot) :
  queueInv b ->
  let b' := acts cfg svc l b in
  (length (tradingQueue b') <= 5)%nat
  /\ (isTrading b' = false -> (length (tradingQueue b') < 5)%nat)
  /\ EngineStatus.readyToTrade (fst (EngineStatus.getStatus b'))
     = negb (isTrading b')
  /\ (EngineStatus.readyToTrade (fst (EngineStatus.getStatus b')) = true ->
      forall tok,
        fst (TradingEngine.executeTrade_enter tok b') = TradingEngine.Started).
Proof.
  intros Hinv. cbv zeta.
  assert (H : queueInv (acts cfg svc l b)).
  { revert b Hinv. induction l as [|a l IH]; intros b Hinv; [exact Hinv|].
    cbn [acts fold_left]. apply IH. destruct Hinv as (Hle & Hidle).
    unfold queueInv, TradingEngine.MAX_QUEUE_SIZE in *.
    destruct a as [tok price|tok|tok outcome now| |]; cbn [act].
    - destruct (updatePosition_engine cfg svc tok price b) as (E1 & E2).
      cbv zeta in E1, E2. rewrite E1, E2. split; assumption.
    - unfold TradingEngine.executeTrade_enter,
        TradingEngine.MAX_QUEUE_SIZE.
      destruct (isTrading b) eqn:Ht; cbn [snd].
      + destruct (Nat.ltb_spec (length (tradingQueue b)) 5) as [Hlt|Hge];
          cbn [set_engine isTrading tradingQueue].
        * rewrite length_app. cbn. split; [lia|discriminate].
        * split; [exact Hle|congruence].
      + cbn. split; [exact Hle|discriminate].
    - destruct (executeTrade_complete_end cfg tok outcome now b)
        as (Hq & _). cbv zeta in Hq. rewrite Hq.
      destruct (tradingQueue b); cbn in *; split; intros; lia.
    - destruct (emergencyStop_engine svc b) as (_ & Hq).
      cbv zeta in Hq. rewrite Hq. cbn. split; intros; lia.
    - cbn. split; intros; lia. }
  destruct H as (Hle & Hidle).
  unfold TradingEngine.MAX_QUEUE_SIZE in *.
  split; [exact Hle|]. split; [exact Hidle|].
  assert (Hready : EngineStatus.readyToTrade
                     (fst (EngineStatus.getStatus (acts cfg svc l b)))
                   = negb (isTrading (acts cfg svc l b))).
  { cbn. destruct (isTrading (acts cfg svc l b)); [reflexivity|].
    specialize (Hidle eq_refl). cbn. apply Nat.leb_le. lia. }
  split; [exact Hready|].
  intros Htrue tok. rewrite Hready in Htrue.
  unfold TradingEngine.executeTrade_enter.
  destruct (isTrading (acts cfg svc l b)); [discriminate|reflexivity].
Qed.

Lemma queue_stays_bounded_witness :
  queueInv Sample.fresh
  /\ let b' := acts config Sample.accepting
                 [TradeRequested Sample.gem; TradeRequested Sample.other;
                  TradeFinished Sample.gem (TradingEngine.PurchaseFailed 1) 0]
                 Sample.fresh in
     (length (tradingQueue b') <= 5)%nat
     /\ EngineStatus.readyToTrade (fst (EngineStatus.getStatus b')) = false.
Proof.
  assert (Hinv : queueInv Sample.fresh).
  { split; cbn; intros; unfold TradingEngine.MAX_QUEUE_SIZE; lia. }
  split; [exact Hinv|]. cbv zeta.
  destruct (queue_stays_bounded config Sample.accepting
              [TradeRequested Sample.gem; TradeRequested Sample.other;
               TradeFinished Sample.gem (TradingEngine.PurchaseFailed 1) 0]
              Sample.fresh Hinv) as (H1 & _ & H3 & _).
  split; [exact H1|]. rewrite H3. reflexivity.
Defined.

(** X11. Queued trades are started first in, first out: when the queue
    holds no empty token, completing the running trade and then each trade
    that this starts submits the queued tokens in the order they were
    queued, one per completion; once all are completed the queue is empty
    and no trade is running. *)
Theorem queue_is_first_in_first_out cfg :
  forall (outcomes : list (TradingEngine.Pipeline * nat))
         (current : string) (b : Bot),
    Forall (fun queued => queued <> EmptyString) (tradingQueue b) ->
    fst (drain cfg current outcomes b)
    = take (length outcomes) (tradingQueue b)
    /\ ((length (tradingQueue b) < length outcomes)%nat ->
        isTrading (snd (drain cfg current outcomes b)) = false
        /\ tradingQueue (snd (drain cfg current outcomes b)) = []).
Proof.
  induction outcomes as [|[outcome now] outcomes IH]; intros current b Hq.
  - cbn. split; [reflexivity|lia].
  - cbn [drain length].
    destruct (executeTrade_complete_end cfg current outcome now b)
      as (E1 & E2 & E3 & _). cbv zeta in E1, E2, E3.
    set (r := TradingEngine.executeTrade_complete cfg current outcome now b)
      in *.
    destruct (tradingQueue b) as [|queued rest] eqn:Hqueue.
    + rewrite E2. cbn. split; [reflexivity|]. intros _.
      rewrite E3, E2, E1. split; reflexivity.
    + apply Forall_cons in Hq as (Hne & Hrest).
      apply truthy_nonempty in Hne. rewrite Hne in E2. rewrite E2.
      cbn [tl] in E1. rewrite <- E1 in Hrest.
      destruct (IH queued (snd r) Hrest) as (I1 & I2).
      cbn [fst snd]. rewrite I1, E1. split; [reflexivity|].
      cbn [length]. intros Hlt. apply I2. rewrite E1. lia.
Qed.

Lemma queue_is_first_in_first_out_witness :
  let busy := snd (TradingEngine.executeTrade_enter Sample.gem Sample.fresh) in
  let queued :=
    snd (TradingEngine.executeTrade_enter Sample.gem
           (snd (TradingEngine.executeTrade_enter Sample.other busy))) in
  Forall (fun queued => queued <> EmptyString) (tradingQueue queued)
  /\ fst (drain config Sample.gem
            [(TradingEngine.PurchaseFailed 1, 0%nat);
             (TradingEngine.Declined "no", 0%nat);
             (TradingEngine.PurchaseFailed 1, 0%nat)] queued)
     = [Sample.other; Sample.gem].
Proof.
  cbv zeta.
  assert (H : Forall (fun queued => queued <> EmptyString)
                (tradingQueue
                   (snd (TradingEngine.executeTrade_enter Sample.gem
                      (snd (TradingEngine.executeTrade_enter Sample.other
                         (snd (TradingEngine.executeTrade_enter Sample.gem
                                 Sample.fresh)))))))).
  { cbn. repeat constructor; discriminate. }
  split; [exact H|].
  destruct (queue_is_first_in_first_out config
              [(TradingEngine.PurchaseFailed 1, 0%nat);
               (TradingEngine.Declined "no", 0%nat);
               (TradingEngine.PurchaseFailed 1, 0%nat)] Sample.gem _ H)
    as (H1 & _).
  rewrite H1. reflexivity.
Defined.

(** X12. A finished trade changes the tracked positions only when the
    purchase went through at a price above 0 with advanced trading enabled;
    then the bought token, and no other, gets a fresh record with that
    price and the amount bought. A purchase whose price is 0 (the price
    could not be fetched) is reported as a success and left untracked. *)
Theorem finished_trade_tracks_purchase
    cfg tok (outcome : TradingEngine.Pipeline) (now : nat) (b : Bot) :
  let r := TradingEngine.executeTrade_complete cfg tok outcome now b in
  let result := fst (fst r) in
  (TradingEngine.success result = true
   <-> exists buyAmount price,
         outcome = TradingEngine.Purchased buyAmount price)
  /\ (forall other, other <> tok ->
        positions (snd r) !! other = positions b !! other)
  /\ (positions (snd r) !! tok <> positions b !! tok ->
      exists buyAmount price,
        outcome = TradingEngine.Purchased buyAmount price
        /\ advanced_enabled (advanced_trading cfg) = true /\ 0 < price
        /\ positions (snd r) !! tok
           = Some (freshPosition cfg tok price buyAmount now))
  /\ (forall buyAmount price,
        outcome = TradingEngine.Purchased buyAmount price ->
        TradingEngine.amount result = buyAmount
        /\ TradingEngine.price result = Some price
        /\ (advanced_enabled (advanced_trading cfg) = true -> 0 < price ->
            positions (snd r) !! tok
            = Some (freshPosition cfg tok price buyAmount now))
        /\ (price <= 0 -> positions (snd r) = positions b)).
Proof.
  cbv zeta.
  destruct (executeTrade_complete_end cfg tok outcome now b)
    as (_ & _ & _ & _ & Hpos). cbv zeta in Hpos.
  assert (Hres : fst (fst (TradingEngine.executeTrade_complete cfg tok
                             outcome now b))
                 = match outcome with
                   | TradingEngine.Declined reason =>
                       {| TradingEngine.success := false;
                          TradingEngine.tokenAddress := tok;
                          TradingEngine.amount := 0;
                          TradingEngine.price := None;
                          TradingEngine.error := Some reason |}
                   | TradingEngine.PurchaseFailed buyAmount =>
                       {| TradingEngine.success := false;
                          TradingEngine.tokenAddress := tok;
                          TradingEngine.amount := buyAmount;
                          TradingEngine.price := None;
                          TradingEngine.error := Some "Purchase failed" |}
                   | TradingEngine.Purchased buyAmount price =>
                       {| TradingEngine.success := true;
                          TradingEngine.tokenAddress := tok;
                          TradingEngine.amount := buyAmount;
                          TradingEngine.price := Some price;
                          TradingEngine.error := None |}
                   | TradingEngine.Threw errorMsg =>
                       {| TradingEngine.success := false;
                          TradingEngine.tokenAddress := tok;
                          TradingEngine.amount := 0;
                          TradingEngine.price := None;
                          TradingEngine.error := Some errorMsg |}
                   end).
  { unfold TradingEngine.executeTrade_complete. rewrite bind_eq.
    rewrite bind_eq. unfold ret at 1. cbn [fst].
    destruct outcome; try reflexivity; rewrite bind_eq; reflexivity. }
  set (r := TradingEngine.executeTrade_complete cfg tok outcome now b) in *.
  split; [|split; [|split]].
  - rewrite Hres. destruct outcome as [msg|reason|amt|amt price]; cbn;
      split; try discriminate.
    + intros (x & y & H). discriminate.
    + intros (x & y & H). discriminate.
    + intros (x & y & H). discriminate.
    + intros _. eauto.
    + reflexivity.
  - intros other Hne. rewrite Hpos.
    destruct outcome as [msg|reason|amt|amt price]; try reflexivity.
    destruct (_ && _); [|reflexivity].
    apply lookup_insert_ne. congruence.
  - intros Hchanged. rewrite Hpos in *.
    destruct outcome as [msg|reason|amt|amt price]; try congruence.
    destruct (advanced_enabled (advanced_trading cfg)) eqn:Hadv;
      cbn [andb] in *; [|congruence].
    destruct (JS.gt price 0) eqn:Hgt; [|congruence].
    apply JS_gt_true in Hgt. exists amt, price.
    repeat split; try assumption. apply lookup_insert_eq.
  - intros amt price ->. rewrite Hres, Hpos. cbn.
    split; [reflexivity|]. split; [reflexivity|]. split.
    + intros Hadv Hgt. apply JS_gt_true in Hgt. rewrite Hadv, Hgt. cbn.
      apply lookup_insert_eq.
    + intros Hle. apply JS_gt_false in Hle. rewrite Hle.
      rewrite andb_false_r. reflexivity.
Qed.

(** ** The balance cache and the reports on the balance *)

Lemma getBalance_fetches cfg forceRefresh now fetched s :
  mustFetch forceRefresh now s = true ->
  BalanceManager.getBalance cfg forceRefresh now fetched s
  = match fetched with
    | Some lamports =>
        (Some (BalanceManager.balanceOf cfg lamports),
         {| BalanceManager.balanceCache :=
              Some (BalanceManager.balanceOf cfg lamports);
            BalanceManager.cacheTimestamp := now |})
    | None => (None, s)
    end.
Proof.
  unfold mustFetch, BalanceManager.getBalance.
  destruct (BalanceManager.balanceCache s) as [cached|].
  - intros H. apply negb_true_iff in H. rewrite H.
    destruct fetched; reflexivity.
  - intros _. destruct fetched; reflexivity.
Qed.

Lemma getBalance_keeps_sound cfg forceRefresh now fetched s :
  cacheSound cfg s ->
  cacheSound cfg (snd (BalanceManager.getBalance cfg forceRefresh now
                         fetched s)).
Proof.
  intros Hsound. unfold BalanceManager.getBalance.
  destruct (BalanceManager.balanceCache s) as [cached|] eqn:Hc.
  - destruct (_ && _); [exact Hsound|].
    destruct fetched as [l|]; [|exact Hsound].
    intros c Hc'. cbn in Hc'. injection Hc' as <-. exists l. reflexivity.
  - destruct fetched as [l|]; [|exact Hsound].
    intros c Hc'. cbn in Hc'. injection Hc' as <-. exists l. reflexivity.
Qed.

(** X13. Round trip of the balance cache: after [getBalance] has fetched
    the balance at time [now], a call without forced refresh made less than
    2000 ms later returns the same record without asking the chain (its
    answer does not matter) and leaves the cache as it is; a forced call, a
    call after [clearCache], and a call 2000 ms later or more ask the chain
    again. *)
Theorem getBalance_cache_round_trip
    cfg (forceRefresh : bool) (now now' : nat) (lamports : N)
    (fetched' : option N) (s : BalanceManager.State) :
  mustFetch forceRefresh now s = true ->
  let first :=
    BalanceManager.getBalance cfg forceRefresh now (Some lamports) s in
  fst first = Some (BalanceManager.balanceOf cfg lamports)
  /\ ((now' - now < 2000)%nat ->
      BalanceManager.getBalance cfg false now' fetched' (snd first)
      = (fst first, snd first))
  /\ mustFetch true now' (snd first) = true
  /\ mustFetch false now' (BalanceReports.clearCache (snd first)) = true
  /\ ((2000 <= now' - now)%nat -> mustFetch false now' (snd first) = true).
Proof.
  intros Hmust. cbv zeta. rewrite (getBalance_fetches _ _ _ _ _ Hmust).
  cbn [fst snd]. split; [reflexivity|]. split; [|split; [|split]].
  - intros Hlt. unfold BalanceManager.getBalance.
    cbn [BalanceManager.balanceCache BalanceManager.cacheTimestamp negb andb].
    apply Nat.ltb_lt in Hlt.
    unfold BalanceManager.CACHE_DURATION. rewrite Hlt. reflexivity.
  - reflexivity.
  - reflexivity.
  - intros Hge. unfold mustFetch.
    cbn [BalanceManager.balanceCache BalanceManager.cacheTimestamp negb andb].
    apply Nat.ltb_ge in Hge.
    unfold BalanceManager.CACHE_DURATION. rewrite Hge. reflexivity.
Qed.

Lemma getBalance_cache_round_trip_witness :
  mustFetch false 1000 Sample.noBalanceYet = true
  /\ BalanceManager.getBalance config false 2500 None
       (snd (BalanceManager.getBalance config false 1000
               (Some 1200000000%N) Sample.noBalanceYet))
     = BalanceManager.getBalance config false 1000 (Some 1200000000%N)
         Sample.noBalanceYet.
Proof.
  split; [reflexivity|].
  destruct (getBalance_cache_round_trip config false 1000 2500
              1200000000%N None Sample.noBalanceYet eq_refl)
    as (_ & H & _).
  rewrite H by (cbn; lia).
  destruct (BalanceManager.getBalance config false 1000
              (Some 1200000000%N) Sample.noBalanceYet). reflexivity.
Defined.

(** X14. When the chain cannot be asked, [getBalance] throws and leaves
    the cache as it was, stale record included; [canAffordTrade] then
    refuses with the reason "Error checking balance" and the two reports
    give nothing. *)
Theorem getBalance_failed_fetch
    cfg (show : Q -> string) (forceRefresh : bool) (now : nat)
    (s : BalanceManager.State) :
  mustFetch forceRefresh now s = true ->
  BalanceManager.getBalance cfg forceRefresh now None s = (None, s)
  /\ (forceRefresh = false ->
      BalanceManager.canAffordTrade cfg show now None s
      = ({| BalanceManager.canTrade := false;
            BalanceManager.reason := Some "Error checking balance";
            BalanceManager.availableAmount := None;
            BalanceManager.recommendedAmount := None |}, s)
      /\ BalanceReports.getBalanceStats cfg now None s = (None, s)
      /\ BalanceReports.getHealthStatus cfg now None s = (None, s)
      /\ BalanceReports.getOptimalBuyAmount cfg now None s = (None, s)).
Proof.
  intros Hmust. pose proof (getBalance_fetches cfg _ _ None _ Hmust) as H.
  split; [exact H|]. intros ->.
  unfold BalanceManager.canAffordTrade, BalanceReports.getBalanceStats,
    BalanceReports.getHealthStatus, BalanceReports.getOptimalBuyAmount.
  rewrite H. repeat split.
Qed.

Lemma getBalance_failed_fetch_witness :
  mustFetch false 1000 Sample.noBalanceYet = true
  /\ BalanceManager.canTrade
       (fst (BalanceManager.canAffordTrade config Sample.noDigits 1000 None
               Sample.noBalanceYet)) = false.
Proof.
  split; [reflexivity|].
  destruct (getBalance_failed_fetch config Sample.noDigits false 1000
              Sample.noBalanceYet eq_refl) as (_ & H).
  destruct (H eq_refl) as (-> & _). reflexivity.
Defined.

Lemma or_default_nonneg x d : 0 <= x -> 0 <= d -> 0 <= JS.or_default x d.
Proof. unfold JS.or_default. destruct (Qeq_bool x 0); auto. Qed.

Lemma Math_max_ge_l x y : x <= JS.Math_max x y.
Proof.
  unfold JS.Math_max. destruct (Qle_bool x y) eqn:H; [|apply Qle_refl].
  apply Qle_bool_iff. exact H.
Qed.

Lemma Math_max_ge_r x y : y <= JS.Math_max x y.
Proof.
  unfold JS.Math_max. destruct (Qle_bool x y) eqn:H; [apply Qle_refl|].
  assert (Hn : ~ x <= y) by (rewrite <- Qle_bool_iff; congruence).
  apply Qnot_le_lt in Hn. apply Qlt_le_weak. exact Hn.
Qed.

Lemma Math_min_cases x y :
  JS.Math_min x y = x \/ JS.Math_min x y = y.
Proof. unfold JS.Math_min. destruct (Qle_bool x y); auto. Qed.

Lemma balanceOf_available_nonneg cfg lamports :
  0 <= BalanceManager.availableForTrading
         (BalanceManager.balanceOf cfg lamports).
Proof.
  unfold BalanceManager.balanceOf.
  destruct (BalanceManager.calculateBuyAmount cfg _). cbn.
  apply Math_max_ge_l.
Qed.

Lemma balanceOf_buy_nonneg cfg lamports :
  amountsNonNegative cfg ->
  0 <= BalanceManager.calculatedBuyAmount
         (BalanceManager.balanceOf cfg lamports).
Proof.
  intros (Hmin & Hfixed & _).
  pose proof (balanceOf_available_nonneg cfg lamports) as Havail.
  unfold BalanceManager.balanceOf, BalanceManager.calculateBuyAmount in *.
  destruct (String.eqb _ _); cbn in *.
  - match goal with
    | |- 0 <= JS.Math_min ?x ?y => destruct (Math_min_cases x y) as [-> | ->]
    end; [|exact Havail].
    eapply Qle_trans; [|apply Math_max_ge_l].
    apply or_default_nonneg; [exact Hmin|discriminate].
  - match goal with
    | |- 0 <= JS.Math_min ?x ?y => destruct (Math_min_cases x y) as [-> | ->]
    end; [|exact Havail].
    apply or_default_nonneg; [exact Hfixed|discriminate].
Qed.

(** X15. Every balance record that [getBalance] returns, from the chain
    or from its cache, has a trading balance that is not negative and a buy
    amount that does not exceed it; the buy amount is not negative when the
    configured amounts are not. The cache keeps holding such records. *)
Theorem getBalance_amounts_in_bounds
    cfg (forceRefresh : bool) (now : nat) (fetched : option N)
    (s : BalanceManager.State) (balance : BalanceManager.BalanceInfo) :
  cacheSound cfg s ->
  fst (BalanceManager.getBalance cfg forceRefresh now fetched s)
  = Some balance ->
  0 <= BalanceManager.availableForTrading balance
  /\ BalanceManager.calculatedBuyAmount balance
     <= BalanceManager.availableForTrading balance
  /\ (amountsNonNegative cfg ->
      0 <= BalanceManager.calculatedBuyAmount balance)
  /\ cacheSound cfg (snd (BalanceManager.getBalance cfg forceRefresh now
                            fetched s)).
Proof.
  intros Hsound Hget.
  destruct (getBalance_sound cfg _ _ _ _ _ Hsound Hget) as (l & ->).
  split; [apply balanceOf_available_nonneg|].
  split; [apply balanceOf_buy_le_available|].
  split; [apply balanceOf_buy_nonneg|].
  apply getBalance_keeps_sound. exact Hsound.
Qed.

Lemma config_amountsNonNegative : amountsNonNegative config.
Proof. unfold amountsNonNegative. cbn. repeat split; discriminate. Qed.

Lemma getBalance_amounts_in_bounds_witness :
  cacheSound config Sample.noBalanceYet
  /\ fst (BalanceManager.getBalance config false 1000 (Some 100000000%N)
            Sample.noBalanceYet)
     = Some (BalanceManager.balanceOf config 100000000%N)
  /\ 0 <= BalanceManager.calculatedBuyAmount
            (BalanceManager.balanceOf config 100000000%N).
Proof.
  split; [apply noBalanceYet_sound|]. split; [reflexivity|].
  destruct (getBalance_amounts_in_bounds config false 1000
              (Some 100000000%N) Sample.noBalanceYet
              (BalanceManager.balanceOf config 100000000%N)
              (noBalanceYet_sound config) eq_refl) as (_ & _ & H & _).
  apply H. exact config_amountsNonNegative.
Defined.

Lemma tradesFor_bounds (available buy : Q) :
  0 < buy -> buy <= available ->
  let trades := inject_Z (Qfloor (available / buy)) in
  1 <= trades /\ trades * buy <= available
  /\ available < (trades + 1) * buy.
Proof.
  intros Hbuy Hle. cbv zeta.
  assert (Hx : available == (available / buy) * buy).
  { field. intros H. rewrite H in Hbuy. apply (Qlt_irrefl 0). exact Hbuy. }
  split; [|split].
  - change 1 with (inject_Z (Qfloor 1)). rewrite <- Zle_Qle.
    apply Qfloor_resp_le. apply Qle_shift_div_l; [exact Hbuy|]. lra.
  - rewrite Hx at 2. apply Qmult_le_compat_r; [apply Qfloor_le|lra].
  - rewrite Hx at 1. apply Qmult_lt_compat_r; [exact Hbuy|].
    pose proof (Qlt_floor (available / buy)) as H.
    rewrite inject_Z_plus in H. exact H.
Qed.

(** X16. The number of trades that [getBalanceStats] estimates is never
    negative. The next buy amount never exceeds the trading balance, so
    the estimate is at least 1 whenever the next buy amount is positive;
    it is 0 when the next buy amount is not positive. *)
Theorem estimated_trades_bounds
    cfg (now : nat) (fetched : option N) (s : BalanceManager.State)
    (stats : BalanceReports.BalanceStats) :
  cacheSound cfg s ->
  fst (BalanceReports.getBalanceStats cfg now fetched s) = Some stats ->
  (0 <= BalanceReports.estimatedTrades stats)%Z
  /\ BalanceReports.nextBuyAmount stats <= BalanceReports.tradingBalance stats
  /\ (0 < BalanceReports.nextBuyAmount stats ->
      (1 <= BalanceReports.estimatedTrades stats)%Z)
  /\ (BalanceReports.nextBuyAmount stats <= 0 ->
      BalanceReports.estimatedTrades stats = 0%Z).
Proof.
  intros Hsound Hstats.
  unfold BalanceReports.getBalanceStats in Hstats.
  destruct (BalanceManager.getBalance cfg false now fetched s)
    as [[balance|] s'] eqn:Hget; [|discriminate].
  cbn in Hstats. injection Hstats as <-.
  assert (Hget' : fst (BalanceManager.getBalance cfg false now fetched s)
                  = Some balance) by (rewrite Hget; reflexivity).
  destruct (getBalance_sound cfg _ _ _ _ _ Hsound Hget') as (l & ->).
  pose proof (balanceOf_buy_le_available cfg l) as Hle.
  unfold BalanceReports.statsOf, BalanceReports.tradesFor.
  cbn [BalanceReports.estimatedTrades BalanceReports.nextBuyAmount
       BalanceReports.tradingBalance].
  set (available := BalanceManager.availableForTrading _) in *.
  set (buy := BalanceManager.calculatedBuyAmount _) in *.
  destruct (JS.gt buy 0) eqn:Hgt.
  - apply JS_gt_true in Hgt.
    destruct (tradesFor_bounds available buy Hgt Hle) as (T1 & _).
    cbv zeta in T1. change 1 with (inject_Z 1) in T1.
    rewrite <- Zle_Qle in T1.
    split; [lia|]. split; [exact Hle|]. split; [intros _; exact T1|].
    intros Hnonpos. lra.
  - apply JS_gt_false in Hgt.
    split; [lia|]. split; [exact Hle|]. split; [intros H; lra|].
    reflexivity.
Qed.

Lemma estimated_trades_bounds_witness :
  cacheSound config Sample.noBalanceYet
  /\ exists stats,
       fst (BalanceReports.getBalanceStats config 1000 (Some 1200000000%N)
              Sample.noBalanceYet) = Some stats
       /\ (1 <= BalanceReports.estimatedTrades stats)%Z.
Proof.
  split; [apply noBalanceYet_sound|].
  exists (BalanceReports.statsOf config
            (BalanceManager.balanceOf config 1200000000%N)).
  split; [reflexivity|].
  destruct (estimated_trades_bounds config 1000 (Some 1200000000%N)
              Sample.noBalanceYet _ (noBalanceYet_sound config) eq_refl)
    as (_ & _ & H & _).
  apply H. vm_compute. reflexivity.
Defined.

(** X17. The health report and the affordability check agree at the two
    ends, when no configured amount is negative: a balance that
    [canAffordTrade] refuses for being below the reserve is reported as
    critical, and, in percentage mode, a balance reported as healthy is one
    that [canAffordTrade] accepts. *)
Theorem healthy_balance_affords_trade
    cfg (show : Q -> string) (now : nat) (fetched : option N)
    (s : BalanceManager.State) (health : BalanceReports.HealthStatus) :
  amountsNonNegative cfg ->
  cacheSound cfg s ->
  fst (BalanceReports.getHealthStatus cfg now fetched s) = Some health ->
  let verdict :=
    fst (BalanceManager.canAffordTrade cfg show now fetched s) in
  (forall balance,
     fst (BalanceManager.getBalance cfg false now fetched s) = Some balance ->
     BalanceManager.solBalance balance < BalanceManager.reservedAmount balance ->
     BalanceReports.status health = BalanceReports.Critical
     /\ BalanceManager.canTrade verdict = false)
  /\ (buy_mode (token_buy cfg) = "percentage" ->
      BalanceReports.status health = BalanceReports.Healthy ->
      BalanceManager.canTrade verdict = true
      /\ (3 <= BalanceReports.possibleTrades
                 (BalanceReports.details health))%Z).
Proof.
  intros (Hmin & Hfixed & Hres) Hsound Hhealth. cbv zeta.
  unfold BalanceReports.getHealthStatus in Hhealth.
  unfold BalanceManager.canAffordTrade.
  destruct (BalanceManager.getBalance cfg false now fetched s)
    as [[balance|] s'] eqn:Hget; [|discriminate].
  cbn in Hhealth. injection Hhealth as <-. cbn [fst].
  assert (Hget' : fst (BalanceManager.getBalance cfg false now fetched s)
                  = Some balance) by (rewrite Hget; reflexivity).
  destruct (getBalance_sound cfg _ _ _ _ _ Hsound Hget') as (l & Hbal).
  assert (Hreserve : 0 <= BalanceManager.reservedAmount balance).
  { rewrite Hbal. unfold BalanceManager.balanceOf.
    destruct (BalanceManager.calculateBuyAmount cfg _). cbn.
    apply or_default_nonneg; [exact Hres|discriminate]. }
  split.
  - intros balance' Heq Hbelow. injection Heq as <-.
    unfold BalanceReports.healthOf, BalanceManager.affordable. cbv zeta.
    assert (H1 : JS.le (BalanceManager.solBalance balance)
                       (BalanceManager.reservedAmount balance * 2) = true).
    { apply JS_le_true. lra. }
    assert (H2 : JS.lt (BalanceManager.solBalance balance)
                       (BalanceManager.reservedAmount balance) = true).
    { apply JS_lt_true. exact Hbelow. }
    rewrite H1, H2. split; reflexivity.
  - intros Hmode. unfold BalanceReports.healthOf. cbv zeta.
    destruct (JS.le (BalanceManager.solBalance balance) _) eqn:Hcrit;
      [discriminate|].
    destruct (JS.le (BalanceManager.solBalance balance) _
              || Z.ltb _ 3) eqn:Hwarn; [discriminate|].
    intros _. cbn [BalanceReports.details BalanceReports.possibleTrades].
    apply JS_le_false in Hcrit.
    apply orb_false_elim in Hwarn as (_ & Htrades).
    apply Z.ltb_ge in Htrades. split; [|exact Htrades].
    unfold BalanceReports.tradesFor in Htrades.
    destruct (JS.gt (BalanceManager.calculatedBuyAmount balance) 0) eqn:Hgt;
      [|lia].
    apply JS_gt_true in Hgt.
    pose proof (balanceOf_buy_le_available cfg l) as Hle.
    rewrite <- Hbal in Hle.
    destruct (tradesFor_bounds _ _ Hgt Hle) as (_ & T2 & _).
    cbv zeta in T2.
    assert (H3 : 3 <= inject_Z (Qfloor
                   (BalanceManager.availableForTrading balance
                    / BalanceManager.calculatedBuyAmount balance))).
    { change 3 with (inject_Z 3). rewrite <- Zle_Qle. exact Htrades. }
    assert (Hstrict : BalanceManager.calculatedBuyAmount balance
                      < BalanceManager.availableForTrading balance).
    { eapply Qlt_le_trans; [|exact T2].
      set (buy := BalanceManager.calculatedBuyAmount balance) in *.
      set (t := inject_Z _) in *.
      assert (Hm : 3 * buy <= t * buy)
        by (apply Qmult_le_compat_r; [exact H3|lra]).
      lra. }
    assert (Hminimum :
              JS.or_default (min_sol_amount (token_buy cfg)) 0.01
              <= BalanceManager.calculatedBuyAmount balance).
    { clear - Hbal Hmode Hstrict. rewrite Hbal in *.
      unfold BalanceManager.balanceOf, BalanceManager.calculateBuyAmount in *.
      rewrite Hmode in *. cbn in *.
      match goal with
      | |- _ <= JS.Math_min ?x ?y =>
          destruct (Math_min_cases x y) as [Hc | Hc]
      end.
      - rewrite Hc. apply Math_max_ge_l.
      - rewrite Hc in Hstrict. exfalso. apply (Qlt_irrefl _ Hstrict). }
    unfold BalanceManager.affordable.
    assert (A1 : JS.lt (BalanceManager.solBalance balance)
                       (BalanceManager.reservedAmount balance) = false).
    { apply JS_lt_false. lra. }
    assert (A2 : JS.le (BalanceManager.calculatedBuyAmount balance) 0 = false).
    { apply JS_le_false. exact Hgt. }
    assert (A3 : JS.lt (BalanceManager.calculatedBuyAmount balance)
                       (JS.or_default (min_sol_amount (token_buy cfg)) 0.01)
                 = false).
    { apply JS_lt_false. exact Hminimum. }
    rewrite A1, A2. cbv zeta. rewrite A3. reflexivity.
Qed.

Lemma healthy_balance_affords_trade_witness :
  amountsNonNegative config
  /\ cacheSound config Sample.noBalanceYet
  /\ exists health,
       fst (BalanceReports.getHealthStatus config 1000 (Some 1200000000%N)
              Sample.noBalanceYet) = Some health
       /\ BalanceReports.status health = BalanceReports.Healthy
       /\ BalanceManager.canTrade
            (fst (BalanceManager.canAffordTrade config Sample.noDigits 1000
                    (Some 1200000000%N) Sample.noBalanceYet)) = true.
Proof.
  split; [exact config_amountsNonNegative|].
  split; [apply noBalanceYet_sound|].
  eexists. split; [reflexivity|]. split; [reflexivity|].
  destruct (healthy_balance_affords_trade config Sample.noDigits 1000
              (Some 1200000000%N) Sample.noBalanceYet _
              config_amountsNonNegative (noBalanceYet_sound config) eq_refl)
    as (_ & H).
  apply H; reflexivity.
Defined.

(** ** The checks before a purchase *)

Lemma quickTradeCheck_approved cfg show toFixed4 blank tok now fetched
    now' fetched' msg s d s' :
  TradeChecks.quickTradeCheck cfg show toFixed4 blank tok now fetched
    now' fetched' msg s = (d, s') ->
  TradeChecks.shouldTrade d = true ->
  TradeChecks.invalidAddress blank tok = false
  /\ BalanceManager.canTrade
       (fst (BalanceManager.canAffordTrade cfg show now fetched s)) = true
  /\ exists balance,
       BalanceManager.getBalance cfg false now' fetched'
         (snd (BalanceManager.canAffordTrade cfg show now fetched s))
       = (Some balance, s')
       /\ d = {| TradeChecks.shouldTrade := true;
                 TradeChecks.reason := "All checks passed";
                 TradeChecks.tokenAddress := Some tok;
                 TradeChecks.buyAmount :=
                   Some (BalanceManager.calculatedBuyAmount balance) |}
       /\ 0 < BalanceManager.calculatedBuyAmount balance
       /\ JS.or_default (min_sol_amount (token_buy cfg)) 0.01
          <= BalanceManager.calculatedBuyAmount balance.
Proof.
  unfold TradeChecks.quickTradeCheck.
  destruct (TradeChecks.invalidAddress blank tok);
    [intros H; injection H as <- _; discriminate|].
  destruct (BalanceManager.canAffordTrade cfg show now fetched s)
    as [affordCheck s1].
  destruct (BalanceManager.canTrade affordCheck) eqn:Hcan; cbn [negb fst snd];
    [|intros H; injection H as <- _; discriminate].
  unfold BalanceReports.getOptimalBuyAmount.
  destruct (BalanceManager.getBalance cfg false now' fetched' s1)
    as [[balance|] s2]; [|intros H; injection H as <- _; discriminate].
  destruct (JS.le _ 0) eqn:Hle;
    [intros H; injection H as <- _; discriminate|].
  cbv zeta. destruct (JS.lt _ _) eqn:Hlt;
    [intros H; injection H as <- _; discriminate|].
  intros H _. injection H as <- <-.
  apply JS_le_false in Hle. apply JS_lt_false in Hlt.
  split; [reflexivity|]. split; [exact Hcan|].
  exists balance. repeat split; assumption.
Qed.

(** X18. [quickTradeCheck] approves a trade only for an address that is
    not blank and has at least 32 characters, and only with the amount that
    the sizing policy computed from a balance it read: an amount above 0,
    not below the configured minimum, and not above the balance available
    for trading. A refusal carries neither token nor amount, and an invalid
    address is refused before the balance is read. *)
Theorem quickTradeCheck_approval
    cfg (show toFixed4 : Q -> string) (blank : string -> bool) tok
    (now : nat) (fetched : option N) (now' : nat) (fetched' : option N)
    (msg : string) (s : BalanceManager.State) :
  cacheSound cfg s ->
  let r := TradeChecks.quickTradeCheck cfg show toFixed4 blank tok now
             fetched now' fetched' msg s in
  (TradeChecks.shouldTrade (fst r) = true ->
   blank tok = false /\ (32 <= String.length tok)%nat
   /\ TradeChecks.tokenAddress (fst r) = Some tok
   /\ exists balance,
        TradeChecks.buyAmount (fst r)
        = Some (BalanceManager.calculatedBuyAmount balance)
        /\ BalanceManager.balanceCache (snd r) = Some balance
        /\ 0 < BalanceManager.calculatedBuyAmount balance
        /\ JS.or_default (min_sol_amount (token_buy cfg)) 0.01
           <= BalanceManager.calculatedBuyAmount balance
        /\ BalanceManager.calculatedBuyAmount balance
           <= BalanceManager.availableForTrading balance)
  /\ (TradeChecks.shouldTrade (fst r) = false ->
      TradeChecks.tokenAddress (fst r) = None
      /\ TradeChecks.buyAmount (fst r) = None)
  /\ (TradeChecks.invalidAddress blank tok = true ->
      r = (TradeChecks.declined "Invalid token address", s)).
Proof.
  intros Hsound. cbv zeta.
  destruct (TradeChecks.quickTradeCheck cfg show toFixed4 blank tok now
              fetched now' fetched' msg s) as [d s'] eqn:Hr.
  cbn [fst snd]. split; [|split].
  - intros Hyes.
    destruct (quickTradeCheck_approved _ _ _ _ _ _ _ _ _ _ _ _ _ Hr Hyes)
      as (Haddr & _ & balance & Hget & -> & Hpos & Hmin).
    unfold TradeChecks.invalidAddress in Haddr.
    apply orb_false_elim in Haddr as (Hblank & Hlen).
    apply Nat.ltb_ge in Hlen.
    split; [exact Hblank|]. split; [exact Hlen|]. split; [reflexivity|].
    exists balance. split; [reflexivity|].
    assert (Hsound1 : cacheSound cfg
              (snd (BalanceManager.canAffordTrade cfg show now fetched s))).
    { unfold BalanceManager.canAffordTrade.
      pose proof (getBalance_keeps_sound cfg false now fetched s Hsound) as H.
      destruct (BalanceManager.getBalance cfg false now fetched s)
        as [[bal|] s1]; exact H. }
    assert (Hfst : fst (BalanceManager.getBalance cfg false now' fetched'
                          (snd (BalanceManager.canAffordTrade cfg show now
                                  fetched s))) = Some balance)
      by (rewrite Hget; reflexivity).
    destruct (getBalance_sound cfg _ _ _ _ _ Hsound1 Hfst) as (l & Hbal).
    split.
    + clear - Hget. unfold BalanceManager.getBalance in Hget.
      destruct (BalanceManager.balanceCache _) as [cached|] eqn:Hc.
      * destruct (_ && _).
        -- injection Hget as <- <-. exact Hc.
        -- destruct fetched'; [|discriminate].
           injection Hget as <- <-. reflexivity.
      * destruct fetched'; [|discriminate].
        injection Hget as <- <-. reflexivity.
    + split; [exact Hpos|]. split; [exact Hmin|].
      rewrite Hbal. apply balanceOf_buy_le_available.
  - intros Hno. revert Hr. unfold TradeChecks.quickTradeCheck.
    repeat match goal with
           | |- context [if ?c then _ else _] => destruct c
           | |- context [let (_, _) := ?x in _] => destruct x
           | |- context [match ?x with (_, _) => _ end] => destruct x
           | |- context [match ?x with Some _ => _ | None => _ end] =>
               destruct x
           end;
      intros H; injection H as <- _; try (split; reflexivity);
      discriminate.
  - intros Hbad. revert Hr. unfold TradeChecks.quickTradeCheck.
    rewrite Hbad. intros <-. reflexivity.
Qed.

Lemma quickTradeCheck_approval_witness :
  cacheSound config Sample.noBalanceYet
  /\ TradeChecks.shouldTrade
       (fst (TradeChecks.quickTradeCheck config Sample.noDigits
               Sample.noDigits Scenario.blankIfEmpty Sample.gem 1000
               (Some Scenario.funded) 1001 None "" Sample.noBalanceYet))
     = true
  /\ TradeChecks.tokenAddress
       (fst (TradeChecks.quickTradeCheck config Sample.noDigits
               Sample.noDigits Scenario.blankIfEmpty Sample.gem 1000
               (Some Scenario.funded) 1001 None "" Sample.noBalanceYet))
     = Some Sample.gem.
Proof.
  split; [apply noBalanceYet_sound|].
  assert (H : TradeChecks.shouldTrade
                (fst (TradeChecks.quickTradeCheck config Sample.noDigits
                        Sample.noDigits Scenario.blankIfEmpty Sample.gem 1000
                        (Some Scenario.funded) 1001 None ""
                        Sample.noBalanceYet)) = true)
    by (vm_compute; reflexivity).
  split; [exact H|].
  destruct (quickTradeCheck_approval config Sample.noDigits Sample.noDigits
              Scenario.blankIfEmpty Sample.gem 1000 (Some Scenario.funded)
              1001 None "" Sample.noBalanceYet (noBalanceYet_sound config))
    as (Hyes & _).
  destruct (Hyes H) as (_ & _ & Htok & _). exact Htok.
Defined.

(** X19. A trade that [quickTradeCheck] approved reaches the execution
    service as sized, when the configured minimum is above 0.001 SOL: the
    purchase request names the approved token and the approved amount
    (the handler's own amount and its size check play no part), the trade
    counts as purchased exactly when the service answers 200 or 201, and
    its outcome carries the approved amount either way. *)
Theorem approved_trade_is_ordered_as_sized
    cfg (show toFixed4 : Q -> string) (blank : string -> bool) tok
    (now : nat) (fetched : option N) (now' : nat) (fetched' : option N)
    (msg : string) (s : BalanceManager.State)
    (optimal : Q) (answer : option bool) (currentPrice : option Q)
    (typeError : string) :
  0.001 < JS.or_default (min_sol_amount (token_buy cfg)) 0.01 ->
  let decision :=
    fst (TradeChecks.quickTradeCheck cfg show toFixed4 blank tok now
           fetched now' fetched' msg s) in
  TradeChecks.shouldTrade decision = true ->
  exists amount,
    TradeChecks.buyAmount decision = Some amount
    /\ TradeChecks.buyToken blank tok (Some amount) optimal answer
       = (match answer with Some ok => ok | None => false end,
          Some {| TradeChecks.order_tokenAddress := tok;
                  TradeChecks.inputAmount := amount |})
    /\ TradeChecks.purchase blank tok decision optimal answer currentPrice
         typeError
       = (match answer with
          | Some true =>
              TradingEngine.Purchased amount
                (JS.or_default (default 0 currentPrice) 0)
          | _ => TradingEngine.PurchaseFailed amount
          end,
          Some {| TradeChecks.order_tokenAddress := tok;
                  TradeChecks.inputAmount := amount |}).
Proof.
  intros Hmin. cbv zeta.
  destruct (TradeChecks.quickTradeCheck cfg show toFixed4 blank tok now
              fetched now' fetched' msg s) as [d s'] eqn:Hr.
  cbn [fst]. intros Hyes.
  destruct (quickTradeCheck_approved _ _ _ _ _ _ _ _ _ _ _ _ _ Hr Hyes)
    as (Haddr & _ & balance & _ & -> & Hpos & Hge).
  set (amount := BalanceManager.calculatedBuyAmount balance) in *.
  exists amount. split; [reflexivity|].
  assert (Hbuy : TradeChecks.buyToken blank tok (Some amount) optimal answer
                 = (match answer with Some ok => ok | None => false end,
                    Some {| TradeChecks.order_tokenAddress := tok;
                            TradeChecks.inputAmount := amount |})).
  { unfold TradeChecks.buyToken. rewrite Haddr. cbv zeta.
    assert (Hnz : JS.or_default amount optimal = amount).
    { unfold JS.or_default. destruct (Qeq_bool amount 0) eqn:Hz; [|reflexivity].
      apply Qeq_bool_iff in Hz. rewrite Hz in Hpos.
      exfalso. apply (Qlt_irrefl 0). exact Hpos. }
    rewrite Hnz.
    assert (Hbig : JS.le amount 0.001 = false) by (apply JS_le_false; lra).
    rewrite Hbig. reflexivity. }
  split; [exact Hbuy|].
  unfold TradeChecks.purchase.
  cbn [TradeChecks.shouldTrade TradeChecks.buyAmount negb].
  rewrite Hbuy. destruct answer as [[|]|]; reflexivity.
Qed.

Lemma approved_trade_is_ordered_as_sized_witness :
  0.001 < JS.or_default (min_sol_amount (token_buy config)) 0.01
  /\ exists amount,
       snd (TradeChecks.purchase Scenario.blankIfEmpty Sample.gem
              (fst (TradeChecks.quickTradeCheck config Sample.noDigits
                      Sample.noDigits Scenario.blankIfEmpty Sample.gem 1000
                      (Some Scenario.funded) 1001 None ""
                      Sample.noBalanceYet))
              1 (Some true) (Some 100) "")
       = Some {| TradeChecks.order_tokenAddress := Sample.gem;
                 TradeChecks.inputAmount := amount |}.
Proof.
  assert (Hmin : 0.001 < JS.or_default (min_sol_amount (token_buy config)) 0.01)
    by reflexivity.
  split; [exact Hmin|].
  destruct (approved_trade_is_ordered_as_sized config Sample.noDigits
              Sample.noDigits Scenario.blankIfEmpty Sample.gem 1000
              (Some Scenario.funded) 1001 None "" Sample.noBalanceYet
              1 (Some true) (Some 100) "" Hmin
              ltac:(vm_compute; reflexivity))
    as (amount & _ & _ & H).
  exists amount. rewrite H. reflexivity.
Defined.

Lemma affordable_accepts cfg show balance :
  BalanceManager.canTrade (BalanceManager.affordable cfg show balance) = true ->
  JS.le (BalanceManager.calculatedBuyAmount balance) 0 = false
  /\ JS.lt (BalanceManager.calculatedBuyAmount balance)
           (JS.or_default (min_sol_amount (token_buy cfg)) 0.01) = false.
Proof.
  unfold BalanceManager.affordable.
  destruct (JS.lt (BalanceManager.solBalance balance) _); [discriminate|].
  destruct (JS.le _ 0); [discriminate|]. cbv zeta.
  destruct (JS.lt _ _); [discriminate|]. split; reflexivity.
Qed.

(** X20. When the second balance read of [quickTradeCheck] falls less than
    2000 ms after a first read that asked the chain, it is served from the
    cache: for a valid address the decision is then the verdict of
    [canAffordTrade] on the balance fetched, an approval carries the buy
    amount of that balance, and the answer of the chain to the second read
    plays no part. *)
Theorem quickTradeCheck_follows_canAffordTrade
    cfg (show toFixed4 : Q -> string) (blank : string -> bool) tok
    (now now' : nat) (lamports : N) (fetched' : option N) (msg : string)
    (s : BalanceManager.State) :
  TradeChecks.invalidAddress blank tok = false ->
  mustFetch false now s = true ->
  (now' - now < 2000)%nat ->
  let balance := BalanceManager.balanceOf cfg lamports in
  let r := TradeChecks.quickTradeCheck cfg show toFixed4 blank tok now
             (Some lamports) now' fetched' msg s in
  TradeChecks.shouldTrade (fst r)
  = BalanceManager.canTrade (BalanceManager.affordable cfg show balance)
  /\ (TradeChecks.shouldTrade (fst r) = true ->
      TradeChecks.buyAmount (fst r)
      = Some (BalanceManager.calculatedBuyAmount balance))
  /\ snd r = {| BalanceManager.balanceCache := Some balance;
                BalanceManager.cacheTimestamp := now |}.
Proof.
  intros Haddr Hmust Hlt. cbv zeta.
  unfold TradeChecks.quickTradeCheck. rewrite Haddr.
  unfold BalanceManager.canAffordTrade.
  rewrite (getBalance_fetches cfg false now (Some lamports) s Hmust).
  set (balance := BalanceManager.balanceOf cfg lamports).
  destruct (BalanceManager.canTrade
              (BalanceManager.affordable cfg show balance)) eqn:Hcan;
    cbn [negb].
  - unfold BalanceReports.getOptimalBuyAmount.
    assert (Hhit : BalanceManager.getBalance cfg false now' fetched'
                     {| BalanceManager.balanceCache := Some balance;
                        BalanceManager.cacheTimestamp := now |}
                   = (Some balance,
                      {| BalanceManager.balanceCache := Some balance;
                         BalanceManager.cacheTimestamp := now |})).
    { unfold BalanceManager.getBalance.
      cbn [BalanceManager.balanceCache BalanceManager.cacheTimestamp
           negb andb].
      apply Nat.ltb_lt in Hlt.
      unfold BalanceManager.CACHE_DURATION. rewrite Hlt. reflexivity. }
    rewrite Hhit.
    destruct (affordable_accepts cfg show balance Hcan) as (H1 & H2).
    rewrite H1. cbv zeta. rewrite H2. cbn. repeat split.
  - cbn. repeat split. discriminate.
Qed.

Lemma quickTradeCheck_follows_canAffordTrade_witness :
  TradeChecks.invalidAddress Scenario.blankIfEmpty Sample.gem = false
  /\ mustFetch false 1000 Sample.noBalanceYet = true
  /\ TradeChecks.shouldTrade
       (fst (TradeChecks.quickTradeCheck config Sample.noDigits
               Sample.noDigits Scenario.blankIfEmpty Sample.gem 1000
               (Some 203000000%N) 1500 None "" Sample.noBalanceYet))
     = false.
Proof.
  split; [reflexivity|]. split; [reflexivity|].
  destruct (quickTradeCheck_follows_canAffordTrade config Sample.noDigits
              Sample.noDigits Scenario.blankIfEmpty Sample.gem 1000 1500
              203000000%N None "" Sample.noBalanceYet eq_refl eq_refl
              ltac:(cbn; lia)) as (H & _).
  rewrite H. reflexivity.
Defined.

(** ** The emergency sweep *)

Lemma sellEach_details svc l : forall b,
  Forall (fun pos => Sniperoo.positionId pos <> 0%nat) l ->
  let r := Sniperoo.sellEach svc l b in
  requests (snd r) = (requests b + length l)%nat
  /\ map Sniperoo.detail_tokenAddress (fst r) = map Sniperoo.tokenAddress l
  /\ map Sniperoo.detail_positionId (fst r) = map Sniperoo.positionId l
  /\ (forall i d, fst r !! i = Some d ->
        Sniperoo.detail_success d
        = Sniperoo.sellOkAt svc (requests b + i)%nat).
Proof.
  induction l as [|pos rest IH]; intros b Hvalid; cbv zeta.
  - cbn. repeat split; [lia|]. intros i d H. destruct i; discriminate.
  - apply Forall_cons in Hvalid as (Hpos & Hrest).
    cbn [Sniperoo.sellEach]. rewrite !bind_eq. unfold ret. cbn [fst snd].
    set (order := {| Sniperoo.order_positionId := Sniperoo.positionId pos;
                     Sniperoo.percentage := 100;
                     Sniperoo.reason := "Emergency sell" |}).
    destruct (sellToken_posts svc order b) as (_ & Hreq & Hok);
      [exact Hpos|cbn; lra|].
    set (b1 := snd (Sniperoo.sellToken svc order b)) in *.
    destruct (IH b1 Hrest) as (I1 & I2 & I3 & I4). cbv zeta in I1, I2, I3, I4.
    split; [|split; [|split]].
    + rewrite I1, Hreq. cbn [length]. lia.
    + cbn [map Sniperoo.detail_tokenAddress]. rewrite I2. reflexivity.
    + cbn [map Sniperoo.detail_positionId]. rewrite I3. reflexivity.
    + intros [|i] d Hd.
      * cbn in Hd. injection Hd as <-. cbn [Sniperoo.detail_success].
        rewrite Hok. f_equal. lia.
      * cbn in Hd. rewrite (I4 i d Hd), Hreq. f_equal. lia.
Qed.

Lemma filter_success_split (l : list Sniperoo.EmergencySellDetail) :
  (length (filter (fun d => Sniperoo.detail_success d = true) l)
   + length (filter (fun d => Sniperoo.detail_success d = false) l))%nat
  = length l.
Proof.
  induction l as [|d l IH]; [reflexivity|].
  rewrite !filter_cons.
  destruct (Sniperoo.detail_success d) eqn:Hd.
  - rewrite decide_True by reflexivity.
    rewrite decide_False by discriminate. cbn [length]. lia.
  - rewrite decide_False by discriminate.
    rewrite decide_True by reflexivity. cbn [length]. lia.
Qed.

Lemma filter_all_length {A} (P : A -> Prop) `{forall x, Decision (P x)}
    (l : list A) :
  Forall P l -> length (filter P l) = length l.
Proof.
  induction 1 as [|x l Hx _ IH]; [reflexivity|].
  rewrite filter_cons, decide_True by exact Hx. cbn [length]. lia.
Qed.

(** X21. The emergency sweep accounts for every holding: it reads the
    holdings and then posts one sell of 100% per holding, in their order,
    whether or not earlier sells failed, and nothing else; its result has
    one detail per holding, each with the token and the position id of
    the holding, and the numbers of successes and failures add up to the
    total. When the service executes every sell there is no failure, and
    when it refuses every sell there is no success. The sweep leaves the
    tracked positions and the engine alone. *)
Theorem emergencySellAll_accounts_for_every_holding
    svc (b : Bot) :
  let r := fst (Sniperoo.emergencySellAll svc b) in
  let b' := snd (Sniperoo.emergencySellAll svc b) in
  let held := default [] (fst (Sniperoo.getWalletHoldings svc b)) in
  Sniperoo.total r = length held
  /\ (Sniperoo.successful r + Sniperoo.failed r)%nat = Sniperoo.total r
  /\ map Sniperoo.detail_tokenAddress (Sniperoo.details r)
     = map Sniperoo.tokenAddress held
  /\ map Sniperoo.detail_positionId (Sniperoo.details r)
     = map Sniperoo.positionId held
  /\ trace b'
     = trace b
       ++ map (fun pos => SellPosted (Sniperoo.positionId pos) 100
                                     "Emergency sell") held
  /\ positions b' = positions b
  /\ isTrading b' = isTrading b
  /\ tradingQueue b' = tradingQueue b
  /\ ((forall n, Sniperoo.sellOkAt svc n = true) ->
      Sniperoo.failed r = 0%nat
      /\ Forall (fun d => Sniperoo.detail_success d = true)
                (Sniperoo.details r))
  /\ ((forall n, Sniperoo.sellOkAt svc n = false) ->
      Sniperoo.successful r = 0%nat
      /\ Forall (fun d => Sniperoo.detail_success d = false)
                (Sniperoo.details r)).
Proof.
  cbv zeta.
  destruct (emergencySellAll_onlyTalked svc b) as (Hflag & Hqueue & Hpos & _).
  unfold Sniperoo.emergencySellAll in *. rewrite bind_eq in *.
  assert (Htrace : trace (snd (Sniperoo.getWalletHoldings svc b)) = trace b).
  { unfold Sniperoo.getWalletHoldings. rewrite bind_eq.
    unfold Sniperoo.request. cbn [fst snd].
    destruct (Sniperoo.holdingsAt svc (requests b)); reflexivity. }
  assert (Hvalid : forall held,
            fst (Sniperoo.getWalletHoldings svc b) = Some held ->
            Forall (fun pos => Sniperoo.positionId pos <> 0%nat) held).
  { unfold Sniperoo.getWalletHoldings. rewrite bind_eq.
    unfold Sniperoo.request. cbn [fst snd].
    destruct (Sniperoo.holdingsAt svc (requests b)); cbn;
      intros held H; try discriminate; injection H as <-.
    - constructor.
    - apply holdings_valid. }
  set (b1 := snd (Sniperoo.getWalletHoldings svc b)) in *.
  destruct (fst (Sniperoo.getWalletHoldings svc b)) as [[|pos rest]|] eqn:Hh;
    cbn [default].
  - cbn. rewrite Htrace, app_nil_r.
    repeat split; try assumption; try lia; constructor.
  - specialize (Hvalid _ eq_refl).
    rewrite bind_eq in *. unfold ret in *. cbn [fst snd] in *.
    destruct (sellEach_details svc (pos :: rest) b1 Hvalid)
      as (_ & S2 & S3 & S4). cbv zeta in S2, S3, S4.
    cbn [Sniperoo.total Sniperoo.successful Sniperoo.failed Sniperoo.details].
    set (details := fst (Sniperoo.sellEach svc (pos :: rest) b1)) in *.
    assert (Hlen : length details = length (pos :: rest)).
    { rewrite <- (length_map Sniperoo.detail_positionId), S3.
      apply length_map. }
    pose proof (filter_success_split details) as Hsplit.
    split; [reflexivity|].
    split; [rewrite Hsplit; exact Hlen|].
    split; [exact S2|]. split; [exact S3|].
    split; [rewrite (sellEach_trace svc _ b1 Hvalid), Htrace; reflexivity|].
    split; [exact Hpos|]. split; [exact Hflag|]. split; [exact Hqueue|].
    split; intros Hall.
    + assert (Hok : Forall (fun d => Sniperoo.detail_success d = true)
                           details).
      { apply Forall_lookup. intros i d Hd.
        rewrite (S4 i d Hd). apply Hall. }
      split; [|exact Hok].
      pose proof (filter_all_length _ details Hok). lia.
    + assert (Hno : Forall (fun d => Sniperoo.detail_success d = false)
                           details).
      { apply Forall_lookup. intros i d Hd.
        rewrite (S4 i d Hd). apply Hall. }
      split; [|exact Hno].
      pose proof (filter_all_length _ details Hno). lia.
  - cbn. rewrite Htrace, app_nil_r.
    repeat split; try assumption; try lia; constructor.
Qed.

Lemma script_sweep_spec svc b :
  let r := EmergencySell.sweep svc b in
  onlyTalked b (snd r)
  /\ snd (fst r)
     = [EmergencySell.Completed (Sniperoo.successful (fst (fst r)))
          (Sniperoo.total (fst (fst r))) (Sniperoo.failed (fst (fst r)))].
Proof.
  cbv zeta. unfold EmergencySell.sweep. rewrite bind_eq. unfold ret.
  cbn [fst snd]. split; [apply emergencySellAll_onlyTalked|reflexivity].
Qed.

Lemma script_emergencySellAll_spec svc b :
  let r := EmergencySell.emergencySellAll svc b in
  onlyTalked b (snd r)
  /\ ((Sniperoo.failed (fst (fst r)) = 0%nat /\ snd (fst r) = [])
      \/ snd (fst r)
         = [EmergencySell.Completed (Sniperoo.successful (fst (fst r)))
              (Sniperoo.total (fst (fst r)))
              (Sniperoo.failed (fst (fst r)))]).
Proof.
  cbv zeta. unfold EmergencySell.emergencySellAll. rewrite bind_eq.
  cbn [fst snd].
  destruct (Nat.eqb (size (positions b)) 0).
  - rewrite bind_eq.
    pose proof (getWalletHoldings_onlyTalked svc b) as Hh.
    set (b1 := snd (Sniperoo.getWalletHoldings svc b)) in *.
    destruct (fst (Sniperoo.getWalletHoldings svc b)) as [[|pos rest]|].
    + cbn. split; [exact Hh|]. left. split; reflexivity.
    + destruct (script_sweep_spec svc b1) as (S1 & S2).
      split; [eapply onlyTalked_trans; eassumption|]. right. exact S2.
    + cbn. split; [exact Hh|]. left. split; reflexivity.
  - destruct (script_sweep_spec svc b) as (S1 & S2).
    split; [exact S1|]. right. exact S2.
Qed.

Lemma retryLoop_spec svc attempts : forall left lastResult b,
  (forall r, lastResult = Some r -> (0 < Sniperoo.failed r)%nat) ->
  let r := EmergencySell.retryLoop svc attempts left lastResult b in
  let result := fst (fst r) in
  let notices := snd (fst r) in
  onlyTalked b (snd r)
  /\ (length (List.filter isSweep notices) <= left)%nat
  /\ (Sniperoo.failed result = 0%nat -> List.forallb isSweep notices = true)
  /\ ((0 < Sniperoo.failed result)%nat ->
      exists sweeps,
        notices
        = sweeps ++ [EmergencySell.Incomplete attempts
                       (Sniperoo.successful result) (Sniperoo.failed result)]
        /\ length sweeps = left
        /\ List.forallb isSweep sweeps = true).
Proof.
  induction left as [|left IH]; intros lastResult b Hlast; cbv zeta.
  - cbn [EmergencySell.retryLoop]. unfold ret. cbn [fst snd].
    split; [apply onlyTalked_refl|].
    unfold EmergencySell.afterRetries.
    destruct lastResult as [r|]; cbn [fst snd].
    + specialize (Hlast r eq_refl).
      assert (Hlt : Nat.ltb 0 (Sniperoo.failed r) = true)
        by (apply Nat.ltb_lt; exact Hlast).
      rewrite Hlt. split; [cbn; lia|]. split; [lia|].
      intros _. exists []. repeat split.
    + cbn. split; [lia|]. split; [reflexivity|]. lia.
  - cbn [EmergencySell.retryLoop]. rewrite bind_eq.
    destruct (script_emergencySellAll_spec svc b) as (T1 & Hnotice).
    cbv zeta in T1, Hnotice.
    set (attempt := fst (EmergencySell.emergencySellAll svc b)) in *.
    set (b1 := snd (EmergencySell.emergencySellAll svc b)) in *.
    destruct (Nat.eqb (Sniperoo.failed (fst attempt)) 0) eqn:Hzero.
    + unfold ret. cbn [fst snd]. apply Nat.eqb_eq in Hzero.
      split; [exact T1|].
      destruct Hnotice as [(_ & ->) | ->].
      * cbn. split; [lia|]. split; [reflexivity|]. lia.
      * cbn. split; [lia|]. split; [reflexivity|]. lia.
    + apply Nat.eqb_neq in Hzero.
      destruct Hnotice as [(Hz & _) | Hsw]; [contradiction|].
      rewrite bind_eq. unfold ret. cbn [fst snd].
      assert (Hlast' : forall r, Some (fst attempt) = Some r ->
                                 (0 < Sniperoo.failed r)%nat).
      { intros r Hr. injection Hr as <-. lia. }
      destruct (IH (Some (fst attempt)) b1 Hlast') as (I1 & I2 & I3 & I4).
      cbv zeta in I1, I2, I3, I4.
      set (rest := EmergencySell.retryLoop svc attempts left
                     (Some (fst attempt)) b1) in *.
      split; [eapply onlyTalked_trans; eassumption|].
      rewrite Hsw. cbn [app List.filter isSweep length List.forallb andb].
      split; [lia|]. split; [exact I3|].
      intros Hpos. destruct (I4 Hpos) as (sweeps & E1 & E2 & E3).
      eexists (_ :: sweeps). rewrite E1. split; [reflexivity|].
      cbn [length List.forallb isSweep andb]. split; [lia|exact E3].
Qed.

Lemma afterSweeps_S svc k b :
  afterSweeps svc (S k) b
  = afterSweeps svc k (snd (EmergencySell.emergencySellAll svc b)).
Proof.
  unfold afterSweeps.
  set (f := fun c => snd (EmergencySell.emergencySellAll svc c)).
  induction k as [|k IH]; [reflexivity|].
  change (f (Nat.iter (S k) f b) = f (Nat.iter k f (f b))).
  rewrite IH. reflexivity.
Qed.

Lemma sweepAt_S svc b k :
  sweepAt svc b (S k)
  = sweepAt svc (snd (EmergencySell.emergencySellAll svc b)) k.
Proof. unfold sweepAt. rewrite afterSweeps_S. reflexivity. Qed.

Lemma sweepNotices_S svc b n :
  concat (map (fun k => snd (sweepAt svc b k)) (seq 0 (S n)))
  = snd (sweepAt svc b 0)
    ++ concat (map (fun k =>
                      snd (sweepAt svc
                             (snd (EmergencySell.emergencySellAll svc b)) k))
                   (seq 0 n)).
Proof.
  cbn [seq map concat]. f_equal. rewrite <- seq_shift, map_map.
  f_equal. apply map_ext. intros k. rewrite sweepAt_S. reflexivity.
Qed.

Lemma retryLoop_S svc attempts left lastResult :
  EmergencySell.retryLoop svc attempts (S left) lastResult
  = (let* attempt := EmergencySell.emergencySellAll svc in
     if Nat.eqb (Sniperoo.failed (fst attempt)) 0 then ret attempt
     else
       let* rest :=
         EmergencySell.retryLoop svc attempts left (Some (fst attempt)) in
       ret (fst rest, snd attempt ++ snd rest)).
Proof. reflexivity. Qed.

(** The loop with at least one attempt to go: it ends with the first sweep
    that has no failure, or with its last attempt. *)
Lemma retryLoop_exact svc attempts : forall left lastResult b,
  let r := EmergencySell.retryLoop svc attempts (S left) lastResult b in
  exists n,
    (n <= left)%nat
    /\ (forall k, (k < n)%nat ->
                  (0 < Sniperoo.failed (fst (sweepAt svc b k)))%nat)
    /\ fst (fst r) = fst (sweepAt svc b n)
    /\ snd r = afterSweeps svc (S n) b
    /\ snd (fst r)
       = concat (map (fun k => snd (sweepAt svc b k)) (seq 0 (S n)))
         ++ (if Nat.eqb (Sniperoo.failed (fst (fst r))) 0 then []
             else [EmergencySell.Incomplete attempts
                     (Sniperoo.successful (fst (fst r)))
                     (Sniperoo.failed (fst (fst r)))])
    /\ ((0 < Sniperoo.failed (fst (fst r)))%nat -> n = left).
Proof.
  induction left as [|left IH]; intros lastResult b; cbv zeta;
    rewrite retryLoop_S, bind_eq;
    change (fst (EmergencySell.emergencySellAll svc b))
      with (sweepAt svc b 0);
    destruct (Nat.eqb (Sniperoo.failed (fst (sweepAt svc b 0))) 0) eqn:Hzero.
  - exists 0%nat. unfold ret. cbn [fst snd].
    split; [lia|]. split; [intros k Hk; lia|]. split; [reflexivity|].
    split; [reflexivity|]. split.
    + rewrite Hzero. cbn. rewrite !app_nil_r. reflexivity.
    + apply Nat.eqb_eq in Hzero. lia.
  - exists 0%nat. cbn [EmergencySell.retryLoop].
    rewrite bind_eq. unfold ret. cbn [fst snd].
    unfold EmergencySell.afterRetries. cbn [fst snd].
    apply Nat.eqb_neq in Hzero as Hpos.
    assert (Hlt : Nat.ltb 0 (Sniperoo.failed (fst (sweepAt svc b 0))) = true)
      by (apply Nat.ltb_lt; lia).
    rewrite Hlt. cbn [fst snd].
    split; [lia|]. split; [intros k Hk; lia|]. split; [reflexivity|].
    split; [reflexivity|]. split; [|reflexivity].
    rewrite Hzero. cbn. rewrite app_nil_r. reflexivity.
  - exists 0%nat. unfold ret. cbn [fst snd].
    split; [lia|]. split; [intros k Hk; lia|]. split; [reflexivity|].
    split; [reflexivity|]. split.
    + rewrite Hzero. cbn. rewrite !app_nil_r. reflexivity.
    + apply Nat.eqb_eq in Hzero. lia.
  - rewrite bind_eq. unfold ret. cbn [fst snd].
    set (b1 := snd (EmergencySell.emergencySellAll svc b)).
    destruct (IH (Some (fst (sweepAt svc b 0))) b1)
      as (n & Hn & Hbefore & Hres & Hstate & Hnotes & Hall).
    cbv zeta in Hres, Hstate, Hnotes, Hall.
    set (rest := EmergencySell.retryLoop svc attempts (S left)
                   (Some (fst (sweepAt svc b 0))) b1) in *.
    exists (S n). split; [lia|]. split.
    { intros [|k] Hk.
      - apply Nat.eqb_neq in Hzero. lia.
      - rewrite sweepAt_S. apply Hbefore. lia. }
    split; [rewrite sweepAt_S; exact Hres|].
    split; [rewrite afterSweeps_S; exact Hstate|].
    split; [|intros Hpos; rewrite (Hall Hpos); reflexivity].
    rewrite sweepNotices_S, Hnotes, <- app_assoc. reflexivity.
Qed.

(** X22. [emergencySellWithRetry] makes at most [maxRetries + 1] sweeps,
    one after the other, and stops with the first sweep that has no
    failure: every sweep before the one it stops with has failures, its
    result is the result of that sweep, and nothing happens after it.
    Its notices are those of its sweeps, each of which sends at most its
    completion report; when the result has failures, all the attempts
    were made and a last notice reports the incomplete sale with the
    counts of the result. It never changes the tracked positions or the
    state of the engine. *)
Theorem emergencySellWithRetry_attempts
    svc (maxRetries : nat) (b : Bot) :
  let r := EmergencySell.emergencySellWithRetry svc maxRetries b in
  let result := fst (fst r) in
  let notices := snd (fst r) in
  positions (snd r) = positions b
  /\ isTrading (snd r) = isTrading b
  /\ tradingQueue (snd r) = tradingQueue b
  /\ (exists n,
        (n <= maxRetries)%nat
        /\ (forall k, (k < n)%nat ->
                      (0 < Sniperoo.failed (fst (sweepAt svc b k)))%nat)
        /\ result = fst (sweepAt svc b n)
        /\ snd r = afterSweeps svc (S n) b
        /\ (Sniperoo.failed result = 0%nat ->
            notices
            = concat (map (fun k => snd (sweepAt svc b k)) (seq 0 (S n))))
        /\ ((0 < Sniperoo.failed result)%nat ->
            n = maxRetries
            /\ notices
               = concat (map (fun k => snd (sweepAt svc b k)) (seq 0 (S n)))
                 ++ [EmergencySell.Incomplete (maxRetries + 1)
                       (Sniperoo.successful result)
                       (Sniperoo.failed result)]))
  /\ (forall k,
        let sweep := sweepAt svc b k in
        (Sniperoo.failed (fst sweep) = 0%nat /\ snd sweep = [])
        \/ snd sweep
           = [EmergencySell.Completed (Sniperoo.successful (fst sweep))
                (Sniperoo.total (fst sweep)) (Sniperoo.failed (fst sweep))]).
Proof.
  cbv zeta. unfold EmergencySell.emergencySellWithRetry.
  destruct (retryLoop_spec svc (maxRetries + 1) (maxRetries + 1) None b)
    as ((H1 & H2 & H3 & _) & _); [discriminate|].
  cbv zeta in *.
  split; [exact H3|]. split; [exact H1|]. split; [exact H2|]. split.
  - replace (maxRetries + 1)%nat with (S maxRetries) by lia.
    destruct (retryLoop_exact svc (S maxRetries) maxRetries None b)
      as (n & Hn & Hbefore & Hres & Hstate & Hnotes & Hall).
    cbv zeta in Hres, Hstate, Hnotes, Hall.
    exists n. split; [exact Hn|]. split; [exact Hbefore|].
    split; [exact Hres|]. split; [exact Hstate|]. split.
    + intros Hzero. rewrite Hnotes, Hzero. cbn. apply app_nil_r.
    + intros Hpos. split; [exact (Hall Hpos)|]. rewrite Hnotes.
      destruct (Nat.eqb_spec (Sniperoo.failed
                  (fst (fst (EmergencySell.retryLoop svc (S maxRetries)
                               (S maxRetries) None b)))) 0) as [E|_];
        [lia|reflexivity].
  - intros k.
    destruct (script_emergencySellAll_spec svc (afterSweeps svc k b))
      as (_ & Hcase).
    exact Hcase.
Qed.

(** ** The price feed *)

Lemma bestPair_fold (l : list DexScreener.Pair) : forall acc,
  let r := DexScreener.bestPair acc l in
  (r = acc
   /\ forall p, p ∈ l -> DexScreener.liquidity p <= DexScreener.liquidity acc)
  \/ exists l1 l2,
       l = l1 ++ r :: l2
       /\ DexScreener.liquidity acc < DexScreener.liquidity r
       /\ (forall p, p ∈ l1 ->
             DexScreener.liquidity p < DexScreener.liquidity r)
       /\ (forall p, p ∈ l2 ->
             DexScreener.liquidity p <= DexScreener.liquidity r).
Proof.
  induction l as [|x l IH]; intros acc; cbv zeta.
  - left. split; [reflexivity|]. intros p Hp. inversion Hp.
  - unfold DexScreener.bestPair. cbn [fold_left].
    destruct (JS.gt (DexScreener.liquidity x) (DexScreener.liquidity acc))
      eqn:Hgt.
    + apply JS_gt_true in Hgt. right.
      destruct (IH x) as [(Hr & Hall) | (l1 & l2 & Hl & Hlt & H1 & H2)];
        unfold DexScreener.bestPair in *; cbv zeta in *.
      * exists [], l. rewrite Hr. split; [reflexivity|].
        split; [exact Hgt|]. split; [|exact Hall].
        intros p Hp. inversion Hp.
      * exists (x :: l1), l2. split; [rewrite Hl at 1; reflexivity|].
        split; [lra|]. split; [|exact H2].
        intros p Hp. apply elem_of_cons in Hp as [->|Hp];
          [exact Hlt|apply H1; exact Hp].
    + apply JS_gt_false in Hgt.
      destruct (IH acc) as [(Hr & Hall) | (l1 & l2 & Hl & Hlt & H1 & H2)];
        unfold DexScreener.bestPair in *; cbv zeta in *.
      * left. split; [exact Hr|].
        intros p Hp. apply elem_of_cons in Hp as [->|Hp];
          [exact Hgt|apply Hall; exact Hp].
      * right. exists (x :: l1), l2.
        split; [rewrite Hl at 1; reflexivity|].
        split; [exact Hlt|]. split; [|exact H2].
        intros p Hp. apply elem_of_cons in Hp as [->|Hp];
          [lra|apply H1; exact Hp].
Qed.

(** X23. [getPriceFromDexScreener] quotes the first of the pairs with the
    highest liquidity and no other: when the answer holds pairs, the result
    is the price of that pair, and null when that pair has no usable
    price, whatever the prices of the other pairs; without pairs the result
    is null. *)
Theorem dexscreener_quotes_most_liquid_pair
    (response : DexScreener.Response) :
  match response with
  | DexScreener.Pairs (first :: rest) =>
      exists before best after,
        first :: rest = before ++ best :: after
        /\ (forall p, p ∈ before ->
              DexScreener.liquidity p < DexScreener.liquidity best)
        /\ (forall p, p ∈ after ->
              DexScreener.liquidity p <= DexScreener.liquidity best)
        /\ DexScreener.getPriceFromDexScreener response
           = match DexScreener.priceUsd best with
             | Some price => PriceFeed.FetchedPrice price
             | None => PriceFeed.FetchedNull
             end
  | _ => DexScreener.getPriceFromDexScreener response = PriceFeed.FetchedNull
  end.
Proof.
  destruct response as [| | |[|first rest]]; try reflexivity.
  cbn [DexScreener.getPriceFromDexScreener].
  assert (Hfirst : DexScreener.bestPair first (first :: rest)
                   = DexScreener.bestPair first rest).
  { unfold DexScreener.bestPair. cbn [fold_left].
    assert (H : JS.gt (DexScreener.liquidity first)
                      (DexScreener.liquidity first) = false)
      by (apply JS_gt_false; apply Qle_refl).
    rewrite H. reflexivity. }
  rewrite Hfirst.
  destruct (bestPair_fold rest first)
    as [(Hr & Hall) | (l1 & l2 & Hl & Hlt & H1 & H2)]; cbv zeta in *.
  - exists [], first, rest. rewrite Hr. split; [reflexivity|].
    split; [intros p Hp; inversion Hp|]. split; [exact Hall|reflexivity].
  - exists (first :: l1), (DexScreener.bestPair first rest), l2.
    split; [rewrite Hl at 1; reflexivity|]. split; [|split;
      [exact H2|reflexivity]].
    intros p Hp. apply elem_of_cons in Hp as [->|Hp];
      [exact Hlt|apply H1; exact Hp].
Qed.

Lemma getTokenPrice_valid tok now fetched s :
  pricesValid s ->
  pricesValid (snd (PriceFeed.getTokenPrice tok now fetched s))
  /\ forall price,
       fst (PriceFeed.getTokenPrice tok now fetched s) = Some price ->
       0 < price /\ price < 1e10.
Proof.
  intros Hvalid.
  assert (Hfetch :
    pricesValid (snd (PriceFeed.fetchTokenPrice tok now fetched s))
    /\ forall price,
         fst (PriceFeed.fetchTokenPrice tok now fetched s) = Some price ->
         0 < price /\ price < 1e10).
  { unfold PriceFeed.fetchTokenPrice.
    destruct fetched as [p| |]; try (split; [exact Hvalid|discriminate]).
    destruct (JS.gt p 0 && JS.lt p 1e10) eqn:Hok;
      [|split; [exact Hvalid|discriminate]].
    apply andb_prop in Hok as (Hgt & Hlt).
    apply JS_gt_true in Hgt. apply JS_lt_true in Hlt.
    split.
    - intros t info. cbn [PriceFeed.priceCache snd].
      destruct (decide (tok = t)) as [->|Hne].
      + rewrite lookup_insert_eq. intros H. injection H as <-.
        cbn. split; assumption.
      + rewrite lookup_insert_ne by exact Hne. apply Hvalid.
    - cbn. intros price H. injection H as <-. split; assumption. }
  unfold PriceFeed.getTokenPrice.
  destruct (PriceFeed.priceCache s !! tok) as [cached|] eqn:Hc;
    [|exact Hfetch].
  destruct (Nat.ltb _ _); [|exact Hfetch].
  split; [exact Hvalid|].
  cbn. intros price H. injection H as <-. apply (Hvalid tok cached Hc).
Qed.

(** X24. Price monitoring acts only on checked prices. When the price
    cache holds checked prices, which every call of [getTokenPrice]
    maintains, a price that the feed returns lies strictly between 0 and
    1e10, the checks of the position manager's [fetchTokenPrice] reject
    nothing that the feed returned, the monitoring loop of the position
    manager and the one of [index.ts] do the same thing, and when the feed
    returns no price the positions, the engine and the trace are left as
    they were. *)
Theorem monitoring_acts_on_checked_prices
    cfg svc tok (now : nat) (fetched : PriceFeed.Fetched)
    (feed : PriceFeed.State) (b : Bot) :
  pricesValid feed ->
  let answer := PriceFeed.getTokenPrice tok now fetched feed in
  let after := PriceMonitor.monitorToken cfg svc tok now fetched (feed, b) in
  pricesValid (fst after)
  /\ PriceMonitor.fetchTokenPrice tok now fetched feed = answer
  /\ PriceMonitor.updateWithRealPrice cfg svc tok now fetched (feed, b)
     = after
  /\ fst after = snd answer
  /\ match fst answer with
     | Some price =>
         0 < price /\ price < 1e10
         /\ snd after
            = snd (PositionManager.updatePosition cfg svc tok price b)
     | None => snd after = b
     end.
Proof.
  intros Hvalid. cbv zeta.
  destruct (getTokenPrice_valid tok now fetched feed Hvalid) as (Hkeep & Hin).
  assert (Hsame : PriceMonitor.fetchTokenPrice tok now fetched feed
                  = PriceFeed.getTokenPrice tok now fetched feed).
  { unfold PriceMonitor.fetchTokenPrice.
    destruct (PriceFeed.getTokenPrice tok now fetched feed)
      as [[price|] feed'] eqn:Hget; [|reflexivity].
    destruct (Hin price eq_refl) as (Hpos & Hlt).
    assert (H1 : JS.le price 0 = false) by (apply JS_le_false; exact Hpos).
    assert (H2 : JS.gt price 1e10 = false)
      by (apply JS_gt_false; apply Qlt_le_weak; exact Hlt).
    rewrite H1, H2. reflexivity. }
  unfold PriceMonitor.monitorToken, PriceMonitor.updateWithRealPrice.
  cbn [fst snd]. rewrite Hsame.
  destruct (PriceFeed.getTokenPrice tok now fetched feed)
    as [[price|] feed'] eqn:Hget; cbn [fst snd] in *.
  - destruct (Hin price eq_refl) as (Hpos & Hlt).
    assert (Hnz : Qeq_bool price 0 = false).
    { destruct (Qeq_bool price 0) eqn:Hz; [|reflexivity].
      apply Qeq_bool_iff in Hz. rewrite Hz in Hpos.
      exfalso. apply (Qlt_irrefl 0). exact Hpos. }
    rewrite Hnz.
    split; [exact Hkeep|]. split; [reflexivity|]. split; [reflexivity|].
    split; [reflexivity|]. split; [exact Hpos|]. split; [exact Hlt|].
    reflexivity.
  - split; [exact Hkeep|]. repeat split.
Qed.

Lemma noPriceYet_valid : pricesValid Sample.noPriceYet.
Proof. intros tok info H. cbn in H. rewrite lookup_empty in H. discriminate. Qed.

Lemma monitoring_acts_on_checked_prices_witness :
  pricesValid Sample.noPriceYet
  /\ snd (PriceMonitor.monitorToken config Sample.accepting Sample.gem 0
            PriceFeed.FetchedNull (Sample.noPriceYet, Sample.bought))
     = Sample.bought
  /\ snd (PriceMonitor.monitorToken config Sample.accepting Sample.gem 0
            (PriceFeed.FetchedPrice 130) (Sample.noPriceYet, Sample.bought))
     = Sample.firstLevelSold.
Proof.
  split; [exact noPriceYet_valid|]. split.
  - destruct (monitoring_acts_on_checked_prices config Sample.accepting
                Sample.gem 0 PriceFeed.FetchedNull Sample.noPriceYet
                Sample.bought noPriceYet_valid) as (_ & _ & _ & _ & H).
    exact H.
  - destruct (monitoring_acts_on_checked_prices config Sample.accepting
                Sample.gem 0 (PriceFeed.FetchedPrice 130) Sample.noPriceYet
                Sample.bought noPriceYet_valid) as (_ & _ & _ & _ & H).
    destruct H as (_ & _ & H). exact H.
Defined.

(** X25. Round trip of the price cache: a checked price fetched for a
    token at time [now] is returned again, without asking the source and
    without touching the failure tracking, by every call for that token
    made less than 3000 ms later; the fetch ends the token's run of
    failures and leaves the cache entries and failure counts of the other
    tokens as they were. *)
Theorem getTokenPrice_cache_round_trip
    tok (now now' : nat) (price : Q) (fetched' : PriceFeed.Fetched)
    (s : PriceFeed.State) :
  mustAsk tok now s = true ->
  isFailure (PriceFeed.FetchedPrice price) = false ->
  let first :=
    PriceFeed.getTokenPrice tok now (PriceFeed.FetchedPrice price) s in
  fst first = Some price
  /\ PriceFeed.failureCount (snd first) !! tok = None
  /\ PriceFeed.warnings (snd first) = PriceFeed.warnings s
  /\ ((now' - now < 3000)%nat ->
      PriceFeed.getTokenPrice tok now' fetched' (snd first)
      = (Some price, snd first))
  /\ ((3000 <= now' - now)%nat -> mustAsk tok now' (snd first) = true)
  /\ (forall other, other <> tok ->
        PriceFeed.priceCache (snd first) !! other
        = PriceFeed.priceCache s !! other
        /\ PriceFeed.failureCount (snd first) !! other
           = PriceFeed.failureCount s !! other).
Proof.
  intros Hask Hgood. cbv zeta.
  assert (Hget : PriceFeed.getTokenPrice tok now
                   (PriceFeed.FetchedPrice price) s
                 = (Some price,
                    {| PriceFeed.priceCache :=
                         <[tok := {| PriceFeed.price := price;
                                     PriceFeed.timestamp := now;
                                     PriceFeed.source := "dexscreener" |}]>
                           (PriceFeed.priceCache s);
                       PriceFeed.failureCount :=
                         delete tok (PriceFeed.failureCount s);
                       PriceFeed.warnings := PriceFeed.warnings s |})).
  { unfold PriceFeed.getTokenPrice, mustAsk in *.
    assert (Hok : JS.gt price 0 && JS.lt price 1e10 = true).
    { cbn in Hgood. apply negb_false_iff in Hgood. exact Hgood. }
    destruct (PriceFeed.priceCache s !! tok) as [cached|].
    - apply negb_true_iff in Hask. rewrite Hask.
      unfold PriceFeed.fetchTokenPrice. rewrite Hok. reflexivity.
    - unfold PriceFeed.fetchTokenPrice. rewrite Hok. reflexivity. }
  rewrite Hget. cbn [fst snd PriceFeed.failureCount PriceFeed.warnings
                     PriceFeed.priceCache].
  split; [reflexivity|]. split; [apply lookup_delete_eq|].
  split; [reflexivity|]. split; [|split].
  - intros Hlt. unfold PriceFeed.getTokenPrice.
    cbn [PriceFeed.priceCache]. rewrite lookup_insert_eq.
    cbn [PriceFeed.timestamp PriceFeed.price].
    apply Nat.ltb_lt in Hlt. unfold PriceFeed.CACHE_DURATION.
    rewrite Hlt. reflexivity.
  - intros Hge. unfold mustAsk. cbn [PriceFeed.priceCache].
    rewrite lookup_insert_eq. cbn [PriceFeed.timestamp].
    apply Nat.ltb_ge in Hge. unfold PriceFeed.CACHE_DURATION.
    rewrite Hge. reflexivity.
  - intros other Hne. split.
    + apply lookup_insert_ne. congruence.
    + apply lookup_delete_ne. congruence.
Qed.

Lemma getTokenPrice_cache_round_trip_witness :
  mustAsk Sample.gem 1000 Sample.noPriceYet = true
  /\ isFailure (PriceFeed.FetchedPrice 130) = false
  /\ fst (PriceFeed.getTokenPrice Sample.gem 3500 PriceFeed.FetchThrew
            (snd (PriceFeed.getTokenPrice Sample.gem 1000
                    (PriceFeed.FetchedPrice 130) Sample.noPriceYet)))
     = Some 130.
Proof.
  split; [reflexivity|]. split; [reflexivity|].
  destruct (getTokenPrice_cache_round_trip Sample.gem 1000 3500 130
              PriceFeed.FetchThrew Sample.noPriceYet eq_refl eq_refl)
    as (_ & _ & _ & H & _).
  rewrite H by (cbn; lia). reflexivity.
Defined.

(** X26. The warning about a token is sent once per run of failures: once
    the count of a token is at 3 or more, further failures send nothing;
    after [clearFailureTracking] for the token, as after a success, its
    third failure warns again. [clearFailureTracking] for a token leaves
    the counts of the other tokens alone, and for the empty string it
    clears the counts of all tokens, as it does without argument. *)
Theorem failure_warning_once_per_run
    tok (now : nat) (answers : list PriceFeed.Fetched)
    (s : PriceFeed.State) :
  Forall (fun fetched => isFailure fetched = true) answers ->
  ((3 <= default 0%nat (PriceFeed.failureCount s !! tok))%nat ->
   PriceFeed.warnings (PriceFeed.fetches tok now answers s)
   = PriceFeed.warnings s)
  /\ (tok <> EmptyString ->
      (3 <= length answers)%nat ->
      exists reason,
        PriceFeed.warnings
          (PriceFeed.fetches tok now answers
             (FailureTracking.clearFailureTracking (Some tok) s))
        = PriceFeed.warnings s
          ++ [ {| PriceFeed.warned_token := tok;
                  PriceFeed.warned_failures := 3;
                  PriceFeed.warned_reason := reason |} ])
  /\ (tok <> EmptyString ->
      forall other, other <> tok ->
        PriceFeed.failureCount
          (FailureTracking.clearFailureTracking (Some tok) s) !! other
        = PriceFeed.failureCount s !! other)
  /\ FailureTracking.clearFailureTracking (Some EmptyString) s
     = FailureTracking.clearFailureTracking None s.
Proof.
  intros Hfail. split; [|split; [|split]].
  - intros Hcount.
    destruct (fetches_failures tok now answers s _ Hfail eq_refl)
      as (reason & Hw).
    rewrite Hw. rewrite decide_False by lia. apply app_nil_r.
  - intros Hne Hlen.
    assert (Hzero : default 0%nat
                      (PriceFeed.failureCount
                         (FailureTracking.clearFailureTracking (Some tok) s)
                       !! tok) = 0%nat).
    { unfold FailureTracking.clearFailureTracking.
      apply truthy_nonempty in Hne. rewrite Hne.
      cbn [PriceFeed.failureCount]. rewrite lookup_delete_eq. reflexivity. }
    destruct (fetches_failures tok now answers _ _ Hfail Hzero)
      as (reason & Hw).
    exists reason. rewrite Hw. rewrite decide_True by lia. reflexivity.
  - intros Hne other Hother. unfold FailureTracking.clearFailureTracking.
    apply truthy_nonempty in Hne. rewrite Hne.
    cbn [PriceFeed.failureCount]. apply lookup_delete_ne. congruence.
  - reflexivity.
Qed.

Lemma failure_warning_once_per_run_witness :
  Forall (fun fetched => isFailure fetched = true) Sample.fourFailures
  /\ length (PriceFeed.warnings
               (PriceFeed.fetches Sample.gem 0 Sample.fourFailures
                  (FailureTracking.clearFailureTracking (Some Sample.gem)
                     (PriceFeed.fetches Sample.gem 0 Sample.fourFailures
                        Sample.noPriceYet)))) = 2%nat.
Proof.
  assert (H : Forall (fun fetched => isFailure fetched = true)
                     Sample.fourFailures)
    by (repeat constructor).
  split; [exact H|].
  destruct (failure_warning_once_per_run Sample.gem 0 Sample.fourFailures
              (PriceFeed.fetches Sample.gem 0 Sample.fourFailures
                 Sample.noPriceYet) H) as (_ & Hclear & _).
  destruct (Hclear ltac:(discriminate) ltac:(cbn; lia)) as (reason & ->).
  rewrite length_app. reflexivity.
Defined.

(** ** The health monitor *)

(** X27. What [quickCheck] reports. The overall status is critical exactly
    when the execution service is unreachable; the balance is never
    reported as critical, so a critical alert always names the execution
    service and never the balance. When the report says that the system is
    ready for trading, the execution service was reachable and the balance
    statistics, read through a cache of sized balances, show a next buy
    amount above 0 that the trading balance covers. *)
Theorem quickCheck_report
    cfg (now : nat) (fetched : option N) (s : BalanceManager.State)
    (sniperooOk priceFeedOk : bool) (positionCount : nat) (time : nat) :
  cacheSound cfg s ->
  let stats := fst (BalanceReports.getBalanceStats cfg now fetched s) in
  let health :=
    HealthMonitor.quickCheck sniperooOk stats priceFeedOk positionCount time in
  (HealthMonitor.overall health = HealthMonitor.Critical
   <-> sniperooOk = false)
  /\ HealthMonitor.balance (HealthMonitor.components health)
     <> HealthMonitor.Critical
  /\ (forall issues,
        HealthMonitor.criticalIssues health = Some issues ->
        "Sniperoo API down" ∈ issues /\ "Balance critical" ∉ issues)
  /\ (HealthMonitor.isReadyForTrading (Some health) = true ->
      sniperooOk = true
      /\ 0 < HealthMonitor.nextBuyAmount (HealthMonitor.metrics health)
      /\ exists balanceStats,
           stats = Some balanceStats
           /\ BalanceReports.nextBuyAmount balanceStats
              <= BalanceReports.tradingBalance balanceStats).
Proof.
  intros Hsound. cbv zeta.
  set (stats := fst (BalanceReports.getBalanceStats cfg now fetched s)).
  assert (Hbal : fst (HealthMonitor.checkBalanceHealth stats)
                 <> HealthMonitor.Critical).
  { unfold HealthMonitor.checkBalanceHealth.
    destruct stats as [st|]; cbn; [destruct (JS.lt _ _)|]; discriminate. }
  split; [|split; [|split]].
  - unfold HealthMonitor.quickCheck, HealthMonitor.calculateOverallHealth.
    cbn [HealthMonitor.overall].
    destruct sniperooOk; cbn [negb]; [|split; reflexivity].
    destruct (_ || _); split; discriminate.
  - exact Hbal.
  - intros issues. unfold HealthMonitor.criticalIssues,
      HealthMonitor.quickCheck, HealthMonitor.calculateOverallHealth.
    cbn [HealthMonitor.overall HealthMonitor.components
         HealthMonitor.sniperoo HealthMonitor.balance
         HealthMonitor.priceFeed].
    destruct sniperooOk; cbn [negb].
    + destruct (_ || _); discriminate.
    + intros H. injection H as <-. split; [apply list_elem_of_here|].
      destruct (fst (HealthMonitor.checkBalanceHealth stats));
        [| |contradiction];
        destruct priceFeedOk; cbn; intros Hin;
        repeat (apply elem_of_cons in Hin as [Hin|Hin];
                [discriminate|]); inversion Hin.
  - unfold HealthMonitor.isReadyForTrading, HealthMonitor.quickCheck.
    cbn [HealthMonitor.overall HealthMonitor.components
         HealthMonitor.sniperoo HealthMonitor.metrics
         HealthMonitor.estimatedTrades HealthMonitor.nextBuyAmount].
    intros Hready. apply andb_prop in Hready as (Hready & Htrades).
    apply andb_prop in Hready as (_ & Hsn).
    apply Z.ltb_lt in Htrades. split; [exact Hsn|].
    subst stats. unfold BalanceReports.getBalanceStats in *.
    destruct (BalanceManager.getBalance cfg false now fetched s)
      as [[balance|] s'] eqn:Hget; cbn [fst] in *;
      [|cbn in Htrades; lia].
    assert (Hget' : fst (BalanceManager.getBalance cfg false now fetched s)
                    = Some balance) by (rewrite Hget; reflexivity).
    destruct (getBalance_sound cfg _ _ _ _ _ Hsound Hget') as (l & ->).
    cbn [HealthMonitor.checkBalanceHealth snd
         HealthMonitor.checked_estimatedTrades
         HealthMonitor.checked_nextBuyAmount
         BalanceReports.statsOf BalanceReports.estimatedTrades
         BalanceReports.nextBuyAmount] in *.
    unfold BalanceReports.tradesFor in Htrades.
    destruct (JS.gt _ 0) eqn:Hgt; [|lia].
    apply JS_gt_true in Hgt. split; [exact Hgt|].
    eexists. split; [reflexivity|].
    cbn [BalanceReports.nextBuyAmount BalanceReports.tradingBalance].
    apply balanceOf_buy_le_available.
Qed.

Lemma quickCheck_report_witness :
  cacheSound config Sample.noBalanceYet
  /\ HealthMonitor.isReadyForTrading
       (Some (HealthMonitor.quickCheck true
                (fst (BalanceReports.getBalanceStats config 1000
                        (Some Scenario.funded) Sample.noBalanceYet))
                true 0 1000)) = true
  /\ 0 < HealthMonitor.nextBuyAmount
           (HealthMonitor.metrics
              (HealthMonitor.quickCheck true
                 (fst (BalanceReports.getBalanceStats config 1000
                         (Some Scenario.funded) Sample.noBalanceYet))
                 true 0 1000)).
Proof.
  split; [apply noBalanceYet_sound|].
  assert (Hready : HealthMonitor.isReadyForTrading
            (Some (HealthMonitor.quickCheck true
                     (fst (BalanceReports.getBalanceStats config 1000
                             (Some Scenario.funded) Sample.noBalanceYet))
                     true 0 1000)) = true)
    by (vm_compute; reflexivity).
  split; [exact Hready|].
  destruct (quickCheck_report config 1000 (Some Scenario.funded)
              Sample.noBalanceYet true true 0 1000
              (noBalanceYet_sound config)) as (_ & _ & _ & H).
  apply (H Hready).
Defined.

(** ** Well-formed records and the stop loss *)

(** X28. In every reachable state a tracked record is filed under its own
    token, its highest price is not below its entry price, and the levels
    recorded as executed are levels of the ladder, so that there are at
    most as many of them as the ladder has levels. *)
Theorem reachable_record_well_formed
    cfg svc (b : Bot) tok (p : Position) :
  reachable cfg svc b ->
  positions b !! tok = Some p ->
  let ladder := levels (take_profit_grid (advanced_trading cfg)) in
  tokenAddress p = tok
  /\ entryPrice p <= highestPrice p
  /\ (forall j, j ∈ executedTpLevels p -> exists level, ladder !! j = Some level)
  /\ (length (executedTpLevels p) <= length ladder)%nat.
Proof.
  intros Hreach Hp. cbv zeta.
  assert (Hinv : tokenAddress p = tok /\ entryPrice p <= highestPrice p
                 /\ forall j, j ∈ executedTpLevels p ->
                      exists level,
                        levels (take_profit_grid (advanced_trading cfg)) !! j
                        = Some level).
  { revert b Hreach tok p Hp.
    apply (reachable_tracked cfg svc (fun tok p =>
             tokenAddress p = tok /\ entryPrice p <= highestPrice p
             /\ forall j, j ∈ executedTpLevels p ->
                  exists level,
                    levels (take_profit_grid (advanced_trading cfg)) !! j
                    = Some level)).
    - intros b tok price amount now p Hp.
      rewrite addPosition_lookup in Hp. injection Hp as <-. cbn.
      split; [reflexivity|]. split; [apply Qle_refl|].
      intros j Hj. inversion Hj.
    - intros b tok price p p' _ Hp (I1 & I2 & I3) Hp'.
      destruct (updatePosition_kept_sold cfg svc tok price b p p' Hp Hp')
        as (new & Heq & _).
      destruct (applyLevels_frame
                  (levels (take_profit_grid (advanced_trading cfg))) new
                  (beforeLadder cfg p price))
        as (F1 & F2 & _ & _ & _ & _ & _ & F8).
      destruct (beforeLadder_frame cfg p price) as (_ & _ & E3 & _).
      destruct (beforeLadder_kept cfg p price) as (K1 & _ & _ & K4 & _).
      destruct (seenPrice_max p price) as (M1 & _).
      cbv zeta in *. rewrite <- Heq in *.
      split; [congruence|]. split.
      + rewrite F2, E3, F8, K4. lra.
      + destruct (updatePosition_executed cfg svc tok price b p p' Hp Hp')
          as (new' & events & _ & Hex & _ & Hsold).
        intros j Hj. rewrite Hex in Hj. apply elem_of_app in Hj as [Hj|Hj].
        * apply I3. exact Hj.
        * rewrite Forall_forall in Hsold.
          destruct (Hsold j Hj) as (_ & level & Hl & _).
          exists level. exact Hl. }
  destruct Hinv as (I1 & I2 & I3).
  split; [exact I1|]. split; [exact I2|]. split; [exact I3|].
  assert (Hlen : (length (executedTpLevels p)
                  <= length (seq 0 (length (levels (take_profit_grid
                                                      (advanced_trading cfg))))))%nat).
  { apply submseteq_length. apply NoDup_submseteq.
    - apply (reachable_executed_NoDup cfg svc b Hreach tok p Hp).
    - intros j Hj. destruct (I3 j Hj) as (level & Hl).
      apply lookup_lt_Some in Hl. apply elem_of_seq. lia. }
  rewrite length_seq in Hlen. exact Hlen.
Qed.

Lemma reachable_record_well_formed_witness :
  reachable config Sample.accepting Sample.firstLevelSold
  /\ positions Sample.firstLevelSold !! Sample.gem
     = Some Sample.firstLevelSoldPosition
  /\ (length (executedTpLevels Sample.firstLevelSoldPosition) <= 5)%nat.
Proof.
  split; [exact firstLevelSold_reachable|].
  split; [exact firstLevelSold_lookup|].
  destruct (reachable_record_well_formed config Sample.accepting
              Sample.firstLevelSold Sample.gem Sample.firstLevelSoldPosition
              firstLevelSold_reachable firstLevelSold_lookup)
    as (_ & _ & _ & H).
  exact H.
Defined.

Lemma executeSell_succeeds svc tok pct price reason b data :
  Sniperoo.holdingsAt svc (requests b) = Sniperoo.HoldingsOk data ->
  (exists pos, pos ∈ data /\ Sniperoo.api_tokenAddress pos = tok
               /\ Sniperoo.id pos <> 0%nat) ->
  tok <> EmptyString ->
  0 < pct -> pct <= 100 ->
  Sniperoo.sellOkAt svc (S (requests b)) = true ->
  fst (PositionManager.executeSell svc tok pct price reason b) = true.
Proof.
  intros Hhold (pos & Hin & Haddr & Hid) Htok Hlo Hhi Hok.
  unfold PositionManager.executeSell. rewrite bind_eq.
  unfold Sniperoo.getWalletHoldings at 1 2. rewrite !bind_eq.
  unfold Sniperoo.request. cbn [fst snd]. rewrite Hhold.
  unfold ret at 1 2. cbn [fst snd].
  set (held := map _ (filter _ data)).
  set (b1 := {| isTrading := isTrading b; tradingQueue := tradingQueue b;
                positions := positions b; requests := S (requests b);
                trace := trace b |}).
  assert (Hvalid : Forall (fun h => Sniperoo.positionId h <> 0%nat) held)
    by apply holdings_valid.
  destruct (List.find (fun h => String.eqb (Sniperoo.tokenAddress h) tok) held)
    as [position|] eqn:Hfind.
  - assert (Hpid : Sniperoo.positionId position <> 0%nat).
    { apply List.find_some in Hfind as (Hmem & _).
      rewrite Forall_forall in Hvalid. apply Hvalid.
      apply list_elem_of_In. exact Hmem. }
    destruct held as [|h rest]; [discriminate|]. cbv beta iota.
    rewrite bind_eq. unfold ret. cbn [fst snd].
    set (order := {| Sniperoo.order_positionId := Sniperoo.positionId position;
                     Sniperoo.percentage := pct;
                     Sniperoo.reason := reason |}).
    destruct (sellToken_posts svc order b1) as (_ & _ & Hsuccess);
      [exact Hpid|split; assumption|].
    rewrite Hsuccess. exact Hok.
  - exfalso.
    pose proof (List.find_none _ _ Hfind
                  {| Sniperoo.tokenAddress := Sniperoo.api_tokenAddress pos;
                     Sniperoo.balance := Sniperoo.initialTokenAmountUi pos;
                     Sniperoo.value := Sniperoo.currentValue pos;
                     Sniperoo.positionId := Sniperoo.id pos |}) as Hnone.
    cbn in Hnone. rewrite Haddr, String.eqb_refl in Hnone.
    assert (Hmem : In {| Sniperoo.tokenAddress := tok;
                         Sniperoo.balance := Sniperoo.initialTokenAmountUi pos;
                         Sniperoo.value := Sniperoo.currentValue pos;
                         Sniperoo.positionId := Sniperoo.id pos |} held).
    { apply list_elem_of_In. subst held. rewrite <- Haddr.
      apply (list_elem_of_fmap_2
               (fun pos =>
                  {| Sniperoo.tokenAddress := Sniperoo.api_tokenAddress pos;
                     Sniperoo.balance := Sniperoo.initialTokenAmountUi pos;
                     Sniperoo.value := Sniperoo.currentValue pos;
                     Sniperoo.positionId := Sniperoo.id pos |})).
      apply list_elem_of_filter. split; [|exact Hin].
      split; [exact Hid|]. rewrite Haddr. exact Htok. }
    specialize (Hnone Hmem). discriminate.
Qed.

(** X29. The stop loss does close a position. When the execution service
    lists a valid holding of the token and executes every sell, a tick at
    or below the stop loss of a tracked position whose sold share is in
    [0, 100) removes the position: the order sells the whole remainder,
    [100 - totalSold] percent, the sale is notified, and no other step of
    the tick sends anything. *)
Theorem stop_loss_closes_position
    cfg svc tok (price : Q) (b : Bot) (p : Position)
    (data : list Sniperoo.ApiPosition) :
  positions b !! tok = Some p ->
  0 <= totalSold p ->
  totalSold p < 100 ->
  price <= currentStopLoss p ->
  tok <> EmptyString ->
  (forall n, Sniperoo.holdingsAt svc n = Sniperoo.HoldingsOk data) ->
  (exists pos, pos ∈ data /\ Sniperoo.api_tokenAddress pos = tok
               /\ Sniperoo.id pos <> 0%nat) ->
  (forall n, Sniperoo.sellOkAt svc n = true) ->
  let b' := snd (PositionManager.updatePosition cfg svc tok price b) in
  positions b' = delete tok (positions b)
  /\ isTrading b' = isTrading b
  /\ tradingQueue b' = tradingQueue b
  /\ exists positionId,
       trace b'
       = trace b
         ++ [SellPosted positionId (100 - totalSold p) "Stop Loss";
             TokenSold (if isTrailingActive p
                        then "Trailing Stop Loss" else "Stop Loss")
                       (PositionManager.profitPercentOf p price)
                       (remainingAmount p * (price / entryPrice p - 1))
                       tok price].
Proof.
  intros Hp Hge Hlt Hle Htok Hhold Hheld Hok. cbv zeta.
  destruct (updatePosition_engine cfg svc tok price b) as (Hflag & Hqueue).
  cbv zeta in Hflag, Hqueue.
  split; [|split; [exact Hflag|split; [exact Hqueue|]]];
    rewrite (updatePosition_unfold cfg svc tok price b p Hp);
    rewrite bind_eq;
    destruct (priceSeen_lookup tok p price b Hp) as (p' & Hp' & Hcase & _);
    rewrite (checkStopLoss_eq svc tok price
               (PositionManager.profitPercentOf p price) _ p' Hp');
    assert (Hsame : currentStopLoss p' = currentStopLoss p
                    /\ totalSold p' = totalSold p
                    /\ remainingAmount p' = remainingAmount p
                    /\ entryPrice p' = entryPrice p
                    /\ isTrailingActive p' = isTrailingActive p)
      by (destruct Hcase as [-> | ->]; repeat split);
    destruct Hsame as (Hsl & Hts & Hra & Hep & Hta);
    rewrite Hsl, Hts, Hra, Hep, Hta;
    apply JS_le_true in Hle; rewrite Hle; cbv zeta;
    destruct (priceSeen_set_positions tok p price b) as (f & Hseen & Hdel);
    rewrite Hseen; rewrite executeSell_set_positions; cbn [fst snd];
    assert (Hsold : fst (PositionManager.executeSell svc tok
                           (100 - totalSold p) price "Stop Loss" b) = true)
      by (apply (executeSell_succeeds svc tok _ price "Stop Loss" b data);
          auto; lra);
    rewrite Hsold; cbn [fst snd]; unfold ret; cbn [snd];
    destruct (PositionManager.executeSell svc tok (100 - totalSold p) price
                "Stop Loss" b) as [ok b2] eqn:Hexec;
    cbn [fst] in Hsold; subst ok;
    apply executeSell_true in Hexec;
    destruct Hexec as (positionId & -> & _); cbn.
  - exact Hdel.
  - exists positionId. rewrite <- app_assoc. reflexivity.
Qed.

Lemma stop_loss_closes_position_witness :
  positions Sample.firstLevelSold !! Sample.gem
  = Some Sample.firstLevelSoldPosition
  /\ 0 <= totalSold Sample.firstLevelSoldPosition
  /\ totalSold Sample.firstLevelSoldPosition < 100
  /\ 100 <= currentStopLoss Sample.firstLevelSoldPosition
  /\ positions (snd (PositionManager.updatePosition config Sample.accepting
                       Sample.gem 100 Sample.firstLevelSold)) !! Sample.gem
     = None.
Proof.
  assert (Hge : 0 <= totalSold Sample.firstLevelSoldPosition)
    by (vm_compute; discriminate).
  assert (Hlt : totalSold Sample.firstLevelSoldPosition < 100)
    by (vm_compute; reflexivity).
  assert (Hle : 100 <= currentStopLoss Sample.firstLevelSoldPosition)
    by (vm_compute; discriminate).
  split; [exact firstLevelSold_lookup|]. split; [exact Hge|].
  split; [exact Hlt|]. split; [exact Hle|].
  destruct (stop_loss_closes_position config Sample.accepting Sample.gem 100
              Sample.firstLevelSold Sample.firstLevelSoldPosition
              [ {| Sniperoo.id := 7; Sniperoo.api_tokenAddress := Sample.gem;
                   Sniperoo.initialTokenAmountUi := 1000;
                   Sniperoo.currentValue := 1 |} ]
              firstLevelSold_lookup Hge Hlt Hle
              ltac:(discriminate) ltac:(reflexivity)
              ltac:(eexists; split; [apply list_elem_of_here|];
                    split; [reflexivity|discriminate])
              ltac:(reflexivity)) as (Hgone & _).
  rewrite Hgone. apply lookup_delete_eq.
Defined.

Lemma noTakeProfitFailure_report e :
  isReport e = true -> noTakeProfitFailure e.
Proof. destruct e; cbn; try discriminate; intros _; exact I. Qed.

Lemma noTakeProfitFailure_order positionId percentage reason :
  positionId <> 0%nat -> 0 < percentage -> percentage <= 100 ->
  noTakeProfitFailure (SellPosted positionId percentage reason).
Proof. intros _ _ _. exact I. Qed.

(** With a service that lists the token and executes every sell, a pass
    over levels that sell a share in (0, 100] sends no failure alert. *)
Lemma takeProfitLoop_cooperative svc tok price profit data :
  (forall n, Sniperoo.holdingsAt svc n = Sniperoo.HoldingsOk data) ->
  (forall n, Sniperoo.sellOkAt svc n = true) ->
  (exists pos, pos ∈ data /\ Sniperoo.api_tokenAddress pos = tok
               /\ Sniperoo.id pos <> 0%nat) ->
  tok <> EmptyString ->
  forall rest i p,
    Forall (fun level => 0 < sell_percent level /\ sell_percent level <= 100)
           rest ->
    quiet noTakeProfitFailure
      (PositionManager.takeProfitLoop svc tok price profit i rest p).
Proof.
  intros Hhold Hok Hheld Htok.
  induction rest as [|level rest IH]; intros i p Hvalid;
    cbn [PositionManager.takeProfitLoop]; [apply quiet_ret|].
  apply Forall_cons in Hvalid as ((Hlo & Hhi) & Hrest).
  destruct (bool_decide _); [apply IH; exact Hrest|].
  destruct (JS.lt _ _); [apply IH; exact Hrest|].
  intros b. rewrite bind_eq.
  assert (Hsold : fst (PositionManager.executeSell svc tok
                         (sell_percent level) price (description level) b)
                  = true).
  { apply (executeSell_succeeds svc tok _ price _ b data); auto. }
  rewrite Hsold. cbv zeta.
  apply (sends_trans _ _
           (snd (PositionManager.executeSell svc tok (sell_percent level)
                   price (description level) b)));
    [apply (executeSell_quiet noTakeProfitFailure noTakeProfitFailure_order
              noTakeProfitFailure_report)|].
  generalize (snd (PositionManager.executeSell svc tok (sell_percent level)
                     price (description level) b)).
  match goal with
  | |- forall c, sends ?P c (snd (?m c)) => change (quiet P m)
  end.
  apply quiet_bind; [quiet_step noTakeProfitFailure_report|intros _].
  apply quiet_bind; [quiet_step noTakeProfitFailure_report|intros _].
  destruct (JS.ge _ _);
    [quiet_step noTakeProfitFailure_report|apply IH; exact Hrest].
Qed.

(** X30. Take-profit levels do fire. When the execution service lists a
    valid holding of the token and executes every sell, and every level of
    the ladder sells a share in (0, 100], a pass of [checkTakeProfitGrid]
    sends no alert of a failed take-profit sell, and every level whose
    threshold the profit handed to the pass has reached and that was not
    executed before is recorded as executed after the pass, unless the
    pass closed the position. *)
Theorem take_profit_fires_when_service_sells
    cfg svc tok (price profit : Q) (b : Bot) (p : Position)
    (data : list Sniperoo.ApiPosition) (k : nat) (level : TakeProfitLevel) :
  (forall n, Sniperoo.holdingsAt svc n = Sniperoo.HoldingsOk data) ->
  (forall n, Sniperoo.sellOkAt svc n = true) ->
  (exists pos, pos ∈ data /\ Sniperoo.api_tokenAddress pos = tok
               /\ Sniperoo.id pos <> 0%nat) ->
  tok <> EmptyString ->
  sharesValid cfg ->
  grid_enabled (take_profit_grid (advanced_trading cfg)) = true ->
  positions b !! tok = Some p ->
  levels (take_profit_grid (advanced_trading cfg)) !! k = Some level ->
  k ∉ executedTpLevels p ->
  profit_percent level <= profit ->
  let b' := snd (PositionManager.checkTakeProfitGrid cfg svc tok price
                   profit b) in
  (exists events,
     trace b' = trace b ++ events
     /\ forall l t pr target,
          ErrorAlert (TakeProfitFailed l t pr target) ∉ events)
  /\ (positions b' !! tok = None
      \/ exists p', positions b' !! tok = Some p' /\ k ∈ executedTpLevels p').
Proof.
  intros Hhold Hok Hheld Htok Hvalid Hgrid Hp Hk Hnot Hprofit. cbv zeta.
  set (ladder := levels (take_profit_grid (advanced_trading cfg))) in *.
  assert (Hrun : snd (PositionManager.checkTakeProfitGrid cfg svc tok price
                        profit b)
                 = snd (PositionManager.takeProfitLoop svc tok price profit
                          0 ladder p b)).
  { unfold PositionManager.checkTakeProfitGrid. rewrite bind_eq.
    unfold PositionManager.getPosition. cbn [fst snd]. rewrite Hp.
    cbv zeta. rewrite Hgrid. reflexivity. }
  rewrite Hrun.
  destruct (takeProfitLoop_cooperative svc tok price profit data Hhold Hok
              Hheld Htok ladder 0%nat p Hvalid b)
    as (events' & Htrace' & Hnone).
  assert (Hclean : forall l t pr target,
            ErrorAlert (TakeProfitFailed l t pr target) ∉ events').
  { intros l t pr target Hin. rewrite Forall_forall in Hnone.
    apply (Hnone _ Hin). }
  split; [exists events'; split; [exact Htrace'|exact Hclean]|].
  destruct (takeProfitLoop_pass svc tok price profit ladder ladder 0 p b)
    as (new & events & Hpass & Hreached).
  { intros j l Hj. exact Hj. }
  cbv zeta in Hpass, Hreached.
  destruct Hpass as (_ & _ & _ & Htrace & _ & _ & Hpos & _).
  assert (Hsame : events = events').
  { rewrite Htrace in Htrace'. apply app_inv_head in Htrace'. exact Htrace'. }
  subst events'.
  destruct (Hreached k level Hk Hnot Hprofit) as [Hin | [Halert | Hgone]].
  - destruct Hpos as [(-> & _) | [(_ & _ & Hq) | (_ & _ & Hq)]].
    + inversion Hin.
    + right. rewrite Hq. eexists. split; [apply lookup_insert_eq|].
      rewrite applyLevels_executed. apply elem_of_app. right. exact Hin.
    + left. rewrite Hq. apply lookup_delete_eq.
  - exfalso. apply (Hclean _ _ _ _ Halert).
  - left. exact Hgone.
Qed.

Lemma config_sharesValid : sharesValid config.
Proof.
  unfold sharesValid. cbn.
  repeat constructor; first [reflexivity | discriminate].
Qed.

Lemma take_profit_fires_when_service_sells_witness :
  (forall n, Sniperoo.holdingsAt Sample.accepting n = Sample.holdings)
  /\ sharesValid config
  /\ positions Sample.bought !! Sample.gem = Some Sample.boughtPosition
  /\ levels (take_profit_grid (advanced_trading config)) !! 0%nat
     = Some Sample.quickProfit
  /\ exists p',
       positions (snd (PositionManager.checkTakeProfitGrid config
                         Sample.accepting Sample.gem 130 30 Sample.bought))
       !! Sample.gem
       = Some p'
       /\ 0%nat ∈ executedTpLevels p'.
Proof.
  split; [reflexivity|]. split; [exact config_sharesValid|].
  split; [exact bought_lookup|]. split; [reflexivity|].
  destruct (take_profit_fires_when_service_sells config Sample.accepting
              Sample.gem 130 30 Sample.bought Sample.boughtPosition
              [ {| Sniperoo.id := 7; Sniperoo.api_tokenAddress := Sample.gem;
                   Sniperoo.initialTokenAmountUi := 1000;
                   Sniperoo.currentValue := 1 |} ]
              0%nat Sample.quickProfit
              ltac:(reflexivity) ltac:(reflexivity)
              ltac:(eexists; split; [apply list_elem_of_here|];
                    split; [reflexivity|discriminate])
              ltac:(discriminate) config_sharesValid eq_refl bought_lookup
              eq_refl ltac:(cbn; apply not_elem_of_nil)
              ltac:(vm_compute; discriminate))
    as (_ & [Hgone | Hkept]).
  - exfalso. revert Hgone. vm_compute. discriminate.
  - exact Hkept.
Defined.


(** * The take-profit pass, level by level *)
























(** ** Accounting of the sales *)



(** ** Take-profit levels fire once *)





(** While the service refuses the sells, the first level of the sample
    position fails on a pass at a profit of 30% and is tried again, and
    sold, on the next pass once the service executes the sells. *)
Example refused_level_fires_later :
  let ladder := levels (take_profit_grid (advanced_trading config)) in
  let failed :=
    snd (PositionManager.checkTakeProfitGrid config Sample.refusing
           Sample.gem 130 30 Sample.bought) in
  outcomeAt Sample.refusing Sample.gem 130 30 ladder Sample.boughtPosition
            Sample.bought 0 = Refused
  /\ positions failed !! Sample.gem = Some Sample.boughtPosition
  /\ outcomeAt Sample.accepting Sample.gem 130 30 ladder Sample.boughtPosition
               failed 0 = Sold
  /\ exists p',
       positions (snd (PositionManager.checkTakeProfitGrid config
                         Sample.accepting Sample.gem 130 30 failed))
       !! Sample.gem = Some p'
       /\ executedTpLevels p' = [0%nat].
Proof.
  cbv zeta. split; [vm_compute; reflexivity|].
  split; [vm_compute; reflexivity|]. split; [vm_compute; reflexivity|].
  eexists. split; [vm_compute; reflexivity|reflexivity].
Qed.

(** ** Alerts on failures *)



(** ** Single-flight execution *)





